(** * iconix: a shallow embedding of [iconix.py] and [patch.py]

    The two scripts install an application icon into the user's "hicolor"
    icon theme.  This development embeds their logic as Rocq functions and
    proves properties of the size-token parser, the ordering of sizes, the
    image source object, the downloader and the install pipeline.

    Modelling conventions.
    - A Python [str] is a list of Unicode code points ([pystr]); [bytes] is a
      list of byte values.
    - Python integers are unbounded: [Z].  The interpreter refuses to
      convert between an integer and a decimal text of more digits than a
      configurable limit (4300 by default; when set, never below 640, and
      texts of up to 640 digits are never checked).  [int10] and [str_of_Z]
      have no such limit: they stand for [int] and [str] on texts within it,
      and the statements that a token or a name parses take texts of at most
      [max_digits_unchecked] digits.
    - The Unicode database of the interpreter (which non-ASCII code points are
      decimal digits, and how non-ASCII code points are lower-cased) varies
      with the interpreter version; it is a parameter of the development.  On
      ASCII the functions are written out.
    - Third-party libraries (Pillow, CairoSVG, urllib, tarfile) and the
      operating system are an environment record [Env] that answers each
      call; every externally visible effect is appended to a trace. *)

From Stdlib Require Import List ZArith NArith Lia Bool String Ascii.
From Stdlib Require Import Sorted Permutation DecimalString DecimalPos.
Import ListNotations.

Local Open Scope Z_scope.

(** ** Python strings *)

Definition char := N.
Definition pystr := list char.
Definition bytes := list N.

Definition lit (s : string) : pystr := map N_of_ascii (list_ascii_of_string s).

Definition char_eqb (a b : char) : bool := N.eqb a b.

Fixpoint str_eqb (a b : pystr) : bool :=
  match a, b with
  | [], [] => true
  | x :: a', y :: b' => char_eqb x y && str_eqb a' b'
  | _, _ => false
  end.

(** [s.startswith(p)], returning the remainder after the prefix. *)
Fixpoint strip_prefix (p s : pystr) : option pystr :=
  match p with
  | [] => Some s
  | x :: p' =>
      match s with
      | y :: s' => if char_eqb x y then strip_prefix p' s' else None
      | [] => None
      end
  end.

Definition startswith (p s : pystr) : bool :=
  match strip_prefix p s with Some _ => true | None => false end.

(** [sub in s] for sequences of code points or bytes. *)
Fixpoint contains (sub s : list N) : bool :=
  startswith sub s ||
  match s with
  | [] => false
  | _ :: s' => contains sub s'
  end.

(** [str(n)] and [f"{n}"] for an integer. *)
(** [int] and [str] convert a decimal text of at most this many digits
    whatever the interpreter's limit on such conversions is
    ([sys.int_info.str_digits_check_threshold]). *)
Definition max_digits_unchecked : nat := 640.

Definition str_of_Z (n : Z) : pystr := lit (NilZero.string_of_int (Z.to_int n)).

Definition c_x : char := 120%N.
Definition c_at : char := 64%N.
Definition c_nl : char := 10%N.
Definition c_slash : char := 47%N.
Definition c_dot : char := 46%N.
Definition c_quote : char := 34%N.

(** A text between double quotes, as the messages print it. *)
Definition quoted (s : pystr) : pystr := c_quote :: s ++ [c_quote].

Definition nl : pystr := [c_nl].

(** [o is not None]. *)
Definition is_not_None {A : Type} (o : option A) : bool :=
  match o with Some _ => true | None => false end.

(** [sep.join(items)]. *)
Fixpoint join (sep : pystr) (items : list pystr) : pystr :=
  match items with
  | [] => []
  | [x] => x
  | x :: rest => x ++ sep ++ join sep rest
  end.

(** [s.split(sep)] for a one-character separator. *)
Fixpoint split (sep : char) (s : pystr) : list pystr :=
  match s with
  | [] => [[]]
  | c :: s' =>
      if char_eqb c sep then [] :: split sep s'
      else match split sep s' with
           | h :: t => (c :: h) :: t
           | [] => [[c]]
           end
  end.

(** [s.ljust(width)]. *)
Definition ljust (s : pystr) (width : nat) : pystr :=
  s ++ repeat 32%N (width - List.length s).

(** ** [pathlib] on POSIX

    A path is its root ([""], ["/"] or ["//"]) and its components. *)

Record Path : Type := mkPath { root : pystr; parts : list pystr }.

(** [posixpath.splitroot]: exactly two leading slashes are kept apart. *)
Definition splitroot (s : pystr) : pystr * pystr :=
  match s with
  | a :: rest =>
      if char_eqb a c_slash then
        match rest with
        | b :: rest' =>
            if char_eqb b c_slash then
              match rest' with
              | c :: _ => if char_eqb c c_slash then ([c_slash], rest)
                          else ([c_slash; c_slash], rest')
              | [] => ([c_slash; c_slash], rest')
              end
            else ([c_slash], rest)
        | [] => ([c_slash], rest)
        end
      else ([], s)
  | [] => ([], s)
  end.

(** The components of a relative text: empty ones and ["."] are dropped. *)
Definition keep_component (x : pystr) : bool :=
  negb (str_eqb x []) && negb (str_eqb x [c_dot]).

Definition components (s : pystr) : list pystr :=
  filter keep_component (split c_slash s).

(** [Path(text)]. *)
Definition Path_of_str (s : pystr) : Path :=
  let (r, rel) := splitroot s in mkPath r (components rel).

(** [p / key]: an absolute [key] replaces [p]. *)
Definition truediv (p : Path) (key : pystr) : Path :=
  if startswith [c_slash] key then Path_of_str key
  else mkPath (root p) (parts p ++ components key).

(** [str(p)]. *)
Definition Path_str (p : Path) : pystr :=
  match root p, parts p with
  | [], [] => [c_dot]
  | r, ps => r ++ join [c_slash] ps
  end.

(** [p.name]. *)
Definition Path_name (p : Path) : pystr := last (parts p) [].

(** [s.rfind(c)]: the index of the last occurrence. *)
Fixpoint rfind (c : char) (s : pystr) : option nat :=
  match s with
  | [] => None
  | x :: s' =>
      match rfind c s' with
      | Some i => Some (S i)
      | None => if char_eqb x c then Some O else None
      end
  end.

(** [p.suffix]: the last dot of the name and what follows it, unless that
    dot is the first or the last character. *)
Definition Path_suffix (p : Path) : pystr :=
  let name := Path_name p in
  match rfind c_dot name with
  | Some i =>
      if (Nat.ltb 0 i && Nat.ltb i (List.length name - 1))%bool
      then skipn i name else []
  | None => []
  end.

(** ** Regular expressions: the constructs the size pattern uses *)

Inductive item : Type :=
| ILit (c : char)       (* a literal character *)
| IDigit.               (* \d *)

Inductive regex : Type :=
| Bol                            (* ^ *)
| Eol                            (* $ *)
| One (i : item)
| Many1 (i : item)               (* i+ , greedy *)
| Opt (r : regex)                (* (?:r)? , greedy *)
| Cat (r1 r2 : regex)
| Group (n : nat) (r : regex)    (* capture group number n *)
| Backref (n : nat).             (* \n *)

Definition groups := list (nat * pystr).

Fixpoint group (g : groups) (n : nat) : option pystr :=
  match g with
  | [] => None
  | (k, v) :: g' => if Nat.eqb k n then Some v else group g' n
  end.

(** ** Exceptions *)

Inductive Error : Type :=
| InvalidSizeSpecifier (text : pystr)
| SizeNotEven (n : Z)
| SizeNotPositive (n : Z)
| ScaleNotPositive (n : Z)
| IntConversion (text : pystr)
| EmptyName
| NotAFile (p : Path)
| EmptyFile (p : Path)
| SvgUnsupported
| NoIconChosen
| NoTargetSize
| HttpStatus (code : Z)
| MemberNotFound (p : Path)
| ExactlyOneInput
| EmptyRawBytes
| NoImageData
| NoSvgRawBytes
| NoImagePath
| RawSvgAsImage
| NoRawBytes
| NotSquare (human_size : pystr)
| MkdirFailed (p : Path)
| AssertionFailed
| LibraryError (text : pystr).   (* raised inside a library or system call *)

(** How a call ends: it returns, raises, or leaves through [exit(code)]. *)
Inductive outcome (A : Type) : Type :=
| Ok (a : A)
| Raise (e : Error)
| Exit (code : Z).
Arguments Ok {A} a.
Arguments Raise {A} e.
Arguments Exit {A} code.

Definition Error_message (e : Error) : pystr :=
  match e with
  | InvalidSizeSpecifier t => lit "Invalid size specifier: " ++ quoted t ++ lit "."
  | SizeNotEven n => lit "Size must be an even number: " ++ quoted (str_of_Z n) ++ lit "."
  | SizeNotPositive n => lit "Size must be a positive number: " ++ quoted (str_of_Z n) ++ lit "."
  | ScaleNotPositive n => lit "Scale must be a positive number: " ++ quoted (str_of_Z n) ++ lit "."
  | IntConversion t => lit "invalid literal for int() with base 10"
  | EmptyName => lit "The target icon name cannot be empty."
  | NotAFile p =>
      lit "The file " ++ quoted (Path_str p)
      ++ lit " does not exist or is not a regular file."
  | EmptyFile p => lit "The file " ++ quoted (Path_str p) ++ lit " is empty."
  | SvgUnsupported =>
      lit "You attempted to use an SVG file, but CairoSVG is not available on your system."
  | NoIconChosen => lit "You must choose either the Discord icon or a custom icon."
  | NoTargetSize => lit "You must provide at least one target icon size."
  | HttpStatus code => lit "HTTP " ++ str_of_Z code ++ lit " response received."
  | MemberNotFound p => lit "Error: " ++ Path_str p ++ lit " was not found in archive!"
  | ExactlyOneInput =>
      lit "You must provide exactly one input to IconImage. Either path, raw_bytes or img."
  | EmptyRawBytes => lit "You have provided an empty raw_bytes image buffer."
  | NoImageData => lit "IconImage doesn't contain any Image data."
  | NoSvgRawBytes => lit "IconImage doesn't contain any SVG raw bytes data."
  | NoImagePath => lit "IconImage doesn't contain any image path."
  | RawSvgAsImage => lit "Raw SVG data cannot be loaded as an Image."
  | NoRawBytes => lit "IconImage doesn't contain any raw bytes data."
  | NotSquare h => lit "Icon dimensions are not square (" ++ h ++ lit ")."
  | MkdirFailed p =>
      lit "Failed to create icon directory at " ++ quoted (Path_str p) ++ lit "."
  | AssertionFailed => []
  | LibraryError t => t
  end.

(** ** The world outside the program *)

(** A decoded Pillow image: its [size] and its pixel data. *)
Record ImageData : Type :=
  mkImage { im_width : Z; im_height : Z; im_pixels : list N }.

Definition blank_image : ImageData := mkImage 0 0 [].

Inductive Resampling : Type :=
| NEAREST | BOX | BILINEAR | HAMMING | BICUBIC | LANCZOS.

(** Effects on the terminal, the network, the file system and other
    processes, in the order the program performs them. *)
Inductive Event : Type :=
| Print (text : pystr)                    (* written to standard output *)
| PrintHelp                               (* parser.print_help() *)
| HttpGet (url : pystr)
| Mkdir (p : Path)                        (* mkdir(0o755, parents, exist_ok) *)
| OpenWb (p : Path)                       (* p.open("wb"): created, or emptied *)
| WritePng (p : Path) (img : ImageData)   (* save as PNG, level 9, then close *)
| WriteBytes (p : Path) (data : bytes)    (* write into the open file, close *)
| Utime (p : Path)                        (* os.utime(p) *)
| Run (argv : list pystr)                 (* subprocess.run(argv) *)
| WriteText (p : Path) (text : pystr).    (* p.write_text(text) *)

(** An HTTP response: status, the Content-Length header if any, and what
    the successive [read(chunk_size)] calls return (after the last one,
    [read] returns the empty bytes). *)
Record Response : Type :=
  mkResponse { getcode : Z;
               content_length_header : option pystr;
               reads : list bytes }.

(** What the interpreter, the libraries and the operating system answer.
    A library or system call that can raise answers [inl text] when it
    does. *)
Record Env : Type := mkEnv {
  (* the process *)
  XDG_DATA_HOME : option pystr;            (* os.environ.get("XDG_DATA_HOME") *)
  home : pystr;                            (* the text behind Path.home() *)
  program_dir : Path;                      (* Path(__file__).absolute().parent *)
  isatty : bool;                           (* sys.stdout.isatty() *)
  os_name_nt : bool;                       (* os.name == "nt" *)
  svg_supported : bool;                    (* import cairosvg succeeded *)
  (* the interpreter *)
  py_int : pystr -> option Z;              (* int(text) on any text *)
  str_title : pystr -> pystr;              (* str.title() *)
  str_strip : pystr -> pystr;              (* str.strip() *)
  format_2f : Z -> Z -> pystr;             (* "{:.2f}".format(a / b) *)
  format_percent : Z -> Z -> pystr;        (* f"{(a / b) * 100:.2f}" *)
  (* the file system *)
  is_file : Path -> bool;
  st_size : Path -> Z;
  read_bytes : Path -> pystr + bytes;
  os_accepts : list Event -> Event -> option pystr;
                                           (* [Some text]: the call raises *)
  is_dir : list Event -> Path -> bool;
  which : pystr -> bool;                   (* shutil.which(cmd) is not None *)
  run_result : list Event -> list pystr -> pystr + (Z * pystr);
                                           (* returncode and captured output *)
  (* the network and the archive reader *)
  urlopen : pystr -> pystr + Response;
  tar_open : bytes -> pystr + list (pystr * option bytes);
                                           (* the members, each with what
                                              extractfile reads from it: the
                                              content of a file, or of the
                                              file a link leads to; [None]
                                              when there is nothing to read *)
  (* Pillow and CairoSVG *)
  pil_open : bytes -> pystr + ImageData;   (* Image.open(f) and load() *)
  pil_tell : bytes -> nat;                 (* where decoding leaves the stream *)
  pil_resize : ImageData -> Z -> Z -> Resampling -> ImageData;
  svg2png : bytes -> Z -> Z -> pystr + bytes
                                           (* cairosvg.svg2png(unsafe=True), as
                                              a function of the bytes given;
                                              what the library loads besides
                                              them is not modelled *)
}.

(** The state the program changes: the trace of its effects and the store
    of Pillow image objects, addressed by reference. *)
Record World : Type := mkWorld { trace : list Event; images : list ImageData }.

(** ** Program data *)

Record IconSize : Type := mkIconSize { size : Z; scale : Z }.

(** The constructor takes an [int] or a [str]. *)
Inductive size_arg : Type :=
| SizeInt (n : Z)
| SizeStr (text : pystr).

Record BytesIO : Type := mkBytesIO { content : bytes; position : nat }.

Record IconImage : Type := mkIconImage {
  id : pystr;
  path : option Path;
  raw_bytes : option BytesIO;
  img : option nat;                 (* a reference into the image store *)
  _path_suffix : option pystr;
  _is_svg : option bool
}.

Record Settings : Type := mkSettings {
  name : pystr;
  icon_sizes : list IconSize;
  simulate : bool;
  use_discord : bool;
  icon_path : option Path
}.

(** The options as [argparse] reads them; an option that is absent is
    [None] or [false]. *)
Record CommandLine : Type := mkCommandLine {
  arg_discord : bool;
  arg_icon : option pystr;
  arg_name : option pystr;
  arg_size : option (list pystr);
  arg_simulate : bool
}.

(** What the script is started with: a help option that the parser comes
    to, a command line that the parser refuses for another reason than a
    size token (an unknown option, an option without its value), or the
    options above. *)
Inductive Invocation : Type :=
| HelpOption                     (* -h or --help *)
| Unparsable
| Options (c : CommandLine).

(** What [--size] holds after [parse_args]: each token went through
    [type=IconSize]; without the option, the default list of [int]. *)
Inductive raw_size : Type :=
| RawIconSize (s : IconSize)
| RawInt (n : Z).

(** ** A sample environment

    A machine on which everything succeeds: the home directory is
    [/home/user], the download answers 200 with two chunks, the archive
    holds the icon, the icon decodes to 256x256 pixels. *)

Definition no_unicode_digits : char -> option Z := fun _ => None.

Definition no_unicode_lower : char -> pystr := fun c => [c].

Definition sample_image : ImageData := mkImage 256 256 [7%N; 7%N; 7%N].

Definition sample_env : Env :=
  mkEnv None (lit "/home/user") (Path_of_str (lit "/opt/iconix")) false false true
    (fun _ => None) (fun t => t) (fun t => t) (fun _ _ => lit "0.00")
    (fun _ _ => lit "0.00")
    (fun _ => true) (fun _ => 3) (fun _ => inr [1%N; 2%N; 3%N])
    (fun _ _ => None) (fun _ _ => true) (fun _ => true)
    (fun _ _ => inr (0, lit "Cache file created successfully."))
    (fun _ => inr (mkResponse 200 None [[1%N; 2%N]; [3%N]]))
    (fun _ => inr [(lit "Discord/discord.png", Some [1%N; 2%N; 3%N])])
    (fun _ => inr sample_image) (fun _ => O)
    (fun d width height _ => mkImage width height (im_pixels d))
    (fun _ _ _ => inr [1%N]).

Definition empty_world : World := mkWorld [] [].

(** The same machine with another answer of the server (204 is a status
    that [urlopen] hands over instead of raising), or another decoded
    image. *)
Definition with_urlopen (E : Env) (f : pystr -> pystr + Response) : Env :=
  mkEnv (XDG_DATA_HOME E) (home E) (program_dir E) (isatty E) (os_name_nt E)
    (svg_supported E) (py_int E) (str_title E) (str_strip E) (format_2f E)
    (format_percent E) (is_file E) (st_size E) (read_bytes E) (os_accepts E)
    (is_dir E) (which E) (run_result E) f (tar_open E) (pil_open E) (pil_tell E)
    (pil_resize E) (svg2png E).

Definition with_pil_open (E : Env) (f : bytes -> pystr + ImageData) : Env :=
  mkEnv (XDG_DATA_HOME E) (home E) (program_dir E) (isatty E) (os_name_nt E)
    (svg_supported E) (py_int E) (str_title E) (str_strip E) (format_2f E)
    (format_percent E) (is_file E) (st_size E) (read_bytes E) (os_accepts E)
    (is_dir E) (which E) (run_result E) (urlopen E) (tar_open E) f (pil_tell E)
    (pil_resize E) (svg2png E).

Definition sample_env_204 : Env :=
  with_urlopen sample_env (fun _ => inr (mkResponse 204 None [])).

Definition sample_env_wide : Env :=
  with_pil_open sample_env (fun _ => inr (mkImage 300 200 [7%N])).

(** A command line that picks a custom vector file. *)
Definition scenario_svg : CommandLine :=
  mkCommandLine false (Some (lit "logo.SVG")) None None true.

(** The same machine seen from a terminal, with VT100 support
    ([nt = false]) or without; a machine on which an icon of width 64
    cannot be saved; and the scenario as a run that writes. *)
Definition with_terminal (E : Env) (nt : bool) : Env :=
  mkEnv (XDG_DATA_HOME E) (home E) (program_dir E) true nt
    (svg_supported E) (py_int E) (str_title E) (str_strip E) (format_2f E)
    (format_percent E) (is_file E) (st_size E) (read_bytes E) (os_accepts E)
    (is_dir E) (which E) (run_result E) (urlopen E) (tar_open E) (pil_open E)
    (pil_tell E) (pil_resize E) (svg2png E).

Definition sample_env_vt100 : Env := with_terminal sample_env false.

Definition sample_env_windows : Env := with_terminal sample_env true.

Definition sample_env_no_save : Env :=
  mkEnv (XDG_DATA_HOME sample_env) (home sample_env) (program_dir sample_env)
    (isatty sample_env) (os_name_nt sample_env)
    (svg_supported sample_env) (py_int sample_env) (str_title sample_env)
    (str_strip sample_env) (format_2f sample_env)
    (format_percent sample_env) (is_file sample_env) (st_size sample_env)
    (read_bytes sample_env)
    (fun _ e => match e with
                | WritePng _ d => if im_width d =? 64
                                  then Some (lit "No space left on device")
                                  else None
                | _ => None
                end)
    (is_dir sample_env) (which sample_env) (run_result sample_env)
    (urlopen sample_env) (tar_open sample_env) (pil_open sample_env)
    (pil_tell sample_env) (pil_resize sample_env) (svg2png sample_env).

Definition scenario_real : CommandLine :=
  mkCommandLine true None (Some (lit "testapp")) (Some [lit "32"; lit "64x64@2"]) false.

Definition scenario_real_settings : Settings :=
  mkSettings (lit "testapp") [mkIconSize 32 1; mkIconSize 64 2] false true None.

(** The sample machine with a cache command that fails. *)
Definition sample_env_cache_fails : Env :=
  mkEnv (XDG_DATA_HOME sample_env) (home sample_env) (program_dir sample_env)
    (isatty sample_env) (os_name_nt sample_env)
    (svg_supported sample_env) (py_int sample_env) (str_title sample_env)
    (str_strip sample_env) (format_2f sample_env)
    (format_percent sample_env) (is_file sample_env) (st_size sample_env)
    (read_bytes sample_env) (os_accepts sample_env)
    (is_dir sample_env) (which sample_env)
    (fun _ _ => inr (1, lit "gtk-update-icon-cache: failed"))
    (urlopen sample_env) (tar_open sample_env) (pil_open sample_env)
    (pil_tell sample_env) (pil_resize sample_env) (svg2png sample_env).

Section Iconix.

(** ** The interpreter's Unicode database

    [uni_decimal c] is the decimal-digit value of a non-ASCII code point
    (category Nd), [None] for every other one; [uni_lower c] is the
    lower-casing of a non-ASCII code point. *)
Variable uni_decimal : char -> option Z.
Variable uni_lower : char -> pystr.

Definition decimal (c : char) : option Z :=
  if (c <? 128)%N
  then if ((48 <=? c) && (c <=? 57))%N then Some (Z.of_N (c - 48)) else None
  else uni_decimal c.

(** The class [\d] of [re] on a [str] pattern. *)
Definition is_digit (c : char) : bool :=
  match decimal c with Some _ => true | None => false end.

(** [int(text, 10)] on a run of decimal digits, the only strings the source
    passes to it; [None] stands for its [ValueError]. *)
Fixpoint int10_from (acc : Z) (text : pystr) : option Z :=
  match text with
  | [] => Some acc
  | c :: text' =>
      match decimal c with
      | Some d => int10_from (10 * acc + d) text'
      | None => None
      end
  end.

Definition int10 (text : pystr) : option Z :=
  match text with
  | [] => None
  | _ => int10_from 0 text
  end.

(** [str.lower()]. *)
Definition lower_char (c : char) : pystr :=
  if (c <? 128)%N
  then if ((65 <=? c) && (c <=? 90))%N then [(c + 32)%N] else [c]
  else uni_lower c.

Definition lower (s : pystr) : pystr := flat_map lower_char s.

(** ** The fragment of [re] that the size pattern uses

    A backtracking matcher in continuation-passing style: greedy
    quantifiers try the longer alternative first and fall back, exactly as
    [re] does; capture groups are threaded through the continuation, so a
    failed alternative leaves no capture behind. *)

Definition item_ok (i : item) (c : char) : bool :=
  match i with
  | ILit c' => char_eqb c' c
  | IDigit => is_digit c
  end.

(** Greedy [i*]: consume as many as possible, give back one at a time. *)
Fixpoint many {A : Type} (i : item) (s : pystr) (k : pystr -> option A) : option A :=
  match s with
  | c :: s' =>
      if item_ok i c
      then match many i s' k with
           | Some r => Some r
           | None => k s
           end
      else k s
  | [] => k s
  end.

(** [$] without MULTILINE: the end of the string, or just before a newline
    that is the last character. *)
Definition at_eol (s : pystr) : bool :=
  match s with
  | [] => true
  | [c] => char_eqb c c_nl
  | _ => false
  end.

(** [rmatch whole r s g k]: match [r] at the position of [whole] whose
    remaining text is [s]. *)
Fixpoint rmatch (whole : pystr) (r : regex) (s : pystr) (g : groups)
         (k : pystr -> groups -> option groups) {struct r} : option groups :=
  match r with
  | Bol => if Nat.eqb (List.length s) (List.length whole) then k s g else None
  | Eol => if at_eol s then k s g else None
  | One i =>
      match s with
      | c :: s' => if item_ok i c then k s' g else None
      | [] => None
      end
  | Many1 i =>
      match s with
      | c :: s' => if item_ok i c then many i s' (fun s'' => k s'' g) else None
      | [] => None
      end
  | Opt r1 =>
      match rmatch whole r1 s g k with
      | Some res => Some res
      | None => k s g
      end
  | Cat r1 r2 => rmatch whole r1 s g (fun s' g' => rmatch whole r2 s' g' k)
  | Group n r1 =>
      rmatch whole r1 s g
        (fun s' g' => k s' ((n, firstn (List.length s - List.length s') s) :: g'))
  | Backref n =>
      match group g n with
      | Some v =>
          match strip_prefix v s with
          | Some s' => k s' g
          | None => None
          end
      | None => None
      end
  end.

(** [re.search(r, text)]: the first start position, left to right, at which
    the pattern matches. *)
Fixpoint search_from (whole : pystr) (r : regex) (s : pystr) : option groups :=
  match rmatch whole r s [] (fun _ g => Some g) with
  | Some g => Some g
  | None =>
      match s with
      | [] => None
      | _ :: s' => search_from whole r s'
      end
  end.

Definition re_search (r : regex) (text : pystr) : option groups :=
  search_from text r text.

(** [r"^(\d+)(?:x\1(?:@(\d+))?)?$"] *)
Definition size_re : regex :=
  Cat Bol
   (Cat (Group 1 (Many1 IDigit))
    (Cat (Opt (Cat (One (ILit c_x))
               (Cat (Backref 1)
                    (Opt (Cat (One (ILit c_at)) (Group 2 (Many1 IDigit)))))))
         Eol)).

Variable E : Env.

Definition M (A : Type) : Type := World -> outcome A * World.

Definition ret {A : Type} (a : A) : M A := fun w => (Ok a, w).

Definition raise {A : Type} (e : Error) : M A := fun w => (Raise e, w).

Definition exit {A : Type} (code : Z) : M A := fun w => (Exit code, w).

Definition bind {A B : Type} (c : M A) (k : A -> M B) : M B :=
  fun w =>
    match c w with
    | (Ok a, w') => k a w'
    | (Raise e, w') => (Raise e, w')
    | (Exit n, w') => (Exit n, w')
    end.

Notation "x <- c ;; k" := (bind c (fun x => k))
  (at level 61, c at next level, right associativity).
Notation "c ;;; k" := (bind c (fun _ => k))
  (at level 61, right associativity).

(** [try: c except Exception as e: h e]; [exit] passes through. *)
Definition try_except {A : Type} (c : M A) (h : Error -> M A) : M A :=
  fun w =>
    match c w with
    | (Raise e, w') => h e w'
    | r => r
    end.

Definition emit (e : Event) : M unit :=
  fun w => (Ok tt, mkWorld (trace w ++ [e]) (images w)).

(** [print(text)] and [print(text, end="")]. *)
Definition print (text : pystr) : M unit := emit (Print (text ++ nl)).
Definition print_noend (text : pystr) : M unit := emit (Print text).

(** An operation the operating system may refuse. *)
Definition os_call (e : Event) : M unit :=
  fun w =>
    match os_accepts E (trace w) e with
    | Some text => (Raise (LibraryError text), w)
    | None => emit e w
    end.

Definition get_trace : M (list Event) := fun w => (Ok (trace w), w).

(** A library call that answers a value or raises. *)
Definition lib_call {A : Type} (r : pystr + A) : M A :=
  match r with
  | inl text => raise (LibraryError text)
  | inr a => ret a
  end.

(** Image objects. *)
Definition deref (w : World) (r : nat) : ImageData := nth r (images w) blank_image.

Definition alloc (d : ImageData) : M nat :=
  fun w => (Ok (List.length (images w)), mkWorld (trace w) (images w ++ [d])).

Definition load (r : nat) : M ImageData := fun w => (Ok (deref w r), w).

(** ** [IconSize] *)

(** The first half of [IconSize.__init__]: the fields before validation. *)
Definition IconSize_fields (sz : size_arg) (scale0 : Z) : outcome IconSize :=
  match sz with
  | SizeInt n => Ok (mkIconSize n scale0)
  | SizeStr text =>
      match re_search size_re text with
      | None => Raise (InvalidSizeSpecifier text)
      | Some m =>
          match group m 1 with
          | None => Raise (IntConversion [])
          | Some g1 =>
              match int10 g1 with
              | None => Raise (IntConversion g1)
              | Some n =>
                  match group m 2 with
                  | None => Ok (mkIconSize n scale0)
                  | Some g2 =>
                      match int10 g2 with
                      | None => Raise (IntConversion g2)
                      | Some sc => Ok (mkIconSize n sc)
                      end
                  end
              end
          end
      end
  end.

(** The second half: evenness, then positivity of the size, then of the
    scale. *)
Definition IconSize_validate (s : IconSize) : outcome IconSize :=
  if negb (size s mod 2 =? 0) then Raise (SizeNotEven (size s))
  else if size s <=? 0 then Raise (SizeNotPositive (size s))
  else if scale s <=? 0 then Raise (ScaleNotPositive (scale s))
  else Ok s.

Definition IconSize_init (sz : size_arg) (scale0 : Z) : outcome IconSize :=
  match IconSize_fields sz scale0 with
  | Ok s => IconSize_validate s
  | Raise e => Raise e
  | Exit c => Exit c
  end.

(** [IconSize(text)], the call that parses one size token. *)
Definition parse_size (text : pystr) : outcome IconSize :=
  IconSize_init (SizeStr text) 1.

Definition get_name (s : IconSize) : pystr :=
  if scale s <=? 1
  then str_of_Z (size s) ++ [c_x] ++ str_of_Z (size s)
  else str_of_Z (size s) ++ [c_x] ++ str_of_Z (size s) ++ [c_at] ++ str_of_Z (scale s).

(** [IconSize.__lt__]. *)
Definition IconSize_lt (a b : IconSize) : bool :=
  if size a =? size b then scale a <? scale b else size a <? size b.

(** [list.sort()] compares with [<] only and is stable.  It is embedded as
    the stable insertion sort that the interpreter runs on short lists: each
    element is placed after the elements that are not greater than it. *)
Fixpoint sort_insert (x : IconSize) (l : list IconSize) : list IconSize :=
  match l with
  | [] => [x]
  | y :: l' => if IconSize_lt x y then x :: y :: l' else y :: sort_insert x l'
  end.

Definition list_sort (l : list IconSize) : list IconSize :=
  fold_left (fun acc x => sort_insert x acc) l [].

Definition DEFAULT_ICON_SIZES : list Z := [16; 32; 48; 64; 128; 256; 512; 1024].

(** ** [validate_size]

    The module-level companion of the constructor.  Its pattern is
    [r"^(\d+)(?:x\1(@\d+)?)?$"]: the second group holds the [@] as well as
    the digits of the scale. *)
Definition validate_re : regex :=
  Cat Bol
   (Cat (Group 1 (Many1 IDigit))
    (Cat (Opt (Cat (One (ILit c_x))
               (Cat (Backref 1)
                    (Opt (Group 2 (Cat (One (ILit c_at)) (Many1 IDigit)))))))
         Eol)).

(** [validate_size(text)] returns an [int], or the text itself when it
    carries a scale; [None] stands for the [ValueError] it raises, its own
    or the one of [int]. *)
Definition validate_size (text : pystr) : option size_arg :=
  match re_search validate_re text with
  | None => None
  | Some m =>
      match group m 1 with
      | None => None
      | Some size_raw =>
          match int10 size_raw with
          | None => None
          | Some size_num =>
              if negb (size_num mod 2 =? 0) then None
              else if size_num <=? 0 then None
              else if is_not_None (group m 2) then Some (SizeStr text)
              else Some (SizeInt size_num)
          end
      end
  end.

(** ** [io.BytesIO] *)

Definition BytesIO_new (data : bytes) : BytesIO := mkBytesIO data 0.

Definition seek0 (b : BytesIO) : BytesIO := mkBytesIO (content b) 0.

(** [b.read(n)]. *)
Definition read_n (n : nat) (b : BytesIO) : bytes * BytesIO :=
  let data := firstn n (skipn (position b) (content b)) in
  (data, mkBytesIO (content b) (position b + List.length data)).

(** [b.read()]. *)
Definition read_all (b : BytesIO) : bytes * BytesIO :=
  let data := skipn (position b) (content b) in
  (data, mkBytesIO (content b) (position b + List.length data)).

(** [b.getbuffer().nbytes]. *)
Definition nbytes (b : BytesIO) : Z := Z.of_nat (List.length (content b)).

(** ** [IconImage] *)

Definition set_raw_bytes (self : IconImage) (b : option BytesIO) : IconImage :=
  mkIconImage (id self) (path self) b (img self) (_path_suffix self) (_is_svg self).

Definition set_img (self : IconImage) (r : option nat) : IconImage :=
  mkIconImage (id self) (path self) (raw_bytes self) r (_path_suffix self) (_is_svg self).

Definition set_path_suffix (self : IconImage) (x : option pystr) : IconImage :=
  mkIconImage (id self) (path self) (raw_bytes self) (img self) x (_is_svg self).

Definition set_is_svg (self : IconImage) (x : option bool) : IconImage :=
  mkIconImage (id self) (path self) (raw_bytes self) (img self) (_path_suffix self) x.

(** The module-level [get_file_suffix(file)]. *)
Definition get_file_suffix (file : Path) : pystr := lower (Path_suffix file).

(** [IconImage.get_file_suffix]: computed once, then cached. *)
Definition IconImage_get_file_suffix (self : IconImage) : pystr * IconImage :=
  match _path_suffix self with
  | Some x => (x, self)
  | None =>
      let x := match path self with
               | Some p => get_file_suffix p
               | None => []
               end in
      (x, set_path_suffix self (Some x))
  end.

Definition rewind_raw_bytes (self : IconImage) : IconImage :=
  match raw_bytes self with
  | Some b => set_raw_bytes self (Some (seek0 b))
  | None => self
  end.

Definition svg_marker : bytes := lit "<svg".

(** [IconImage.is_svg]: computed once, then cached.  With a path the
    suffix decides; otherwise the buffer is rewound and its first 4096 bytes
    are searched for the marker. *)
Definition is_svg (self : IconImage) : bool * IconImage :=
  match _is_svg self with
  | Some x => (x, self)
  | None =>
      let self := set_is_svg self (Some false) in
      match path self with
      | Some _ =>
          let (sfx, self) := IconImage_get_file_suffix self in
          let x := str_eqb sfx (lit ".svg") in
          (x, set_is_svg self (Some x))
      | None =>
          match raw_bytes self with
          | Some b =>
              let (early_bytes, b') := read_n 4096 (seek0 b) in
              let self := set_raw_bytes self (Some b') in
              let x := contains svg_marker early_bytes in
              (x, set_is_svg self (Some x))
          | None => (false, self)
          end
      end
  end.

(** [IconImage.get_image_size]. *)
Definition get_image_size (self : IconImage) : M ((Z * Z) * IconImage) :=
  let (svg, self) := is_svg self in
  if svg then ret ((-1, -1), self)
  else match img self with
       | None => raise NoImageData
       | Some r => d <- load r ;; ret ((im_width d, im_height d), self)
       end.

Definition _load_bytes_from_path (self : IconImage) : M IconImage :=
  match path self with
  | None => raise NoImagePath
  | Some p =>
      data <- lib_call (read_bytes E p) ;;
      ret (set_raw_bytes self (Some (BytesIO_new data)))
  end.

Definition _load_image_from_bytes (self : IconImage) : M IconImage :=
  let (svg, self) := is_svg self in
  if svg then raise RawSvgAsImage
  else match raw_bytes self with
       | None => raise NoRawBytes
       | Some b =>
           d <- lib_call (pil_open E (content b)) ;;
           r <- alloc d ;;
           ret (set_img (set_raw_bytes self
                           (Some (mkBytesIO (content b) (pil_tell E (content b)))))
                        (Some r))
       end.

(** [IconImage.__post_init__], run on the fields the caller gave. *)
Definition __post_init__ (self : IconImage) : M IconImage :=
  let input_count :=
    ((if is_not_None (path self) then 1 else 0)
     + (if is_not_None (raw_bytes self) then 1 else 0)
     + (if is_not_None (img self) then 1 else 0))%nat in
  if negb (Nat.eqb input_count 1) then raise ExactlyOneInput
  else
    self <- (match img self, raw_bytes self, path self with
             | None, None, Some _ => _load_bytes_from_path self
             | _, _, _ => ret self
             end) ;;
    self <- (match img self with
             | Some _ => ret self
             | None =>
                 let (svg, self) := is_svg self in
                 if svg then ret self else _load_image_from_bytes self
             end) ;;
    match raw_bytes self with
    | Some b => if nbytes b <=? 0 then raise EmptyRawBytes else ret self
    | None => ret self
    end.

(** [IconImage(id=.., path=.., raw_bytes=.., img=..)]. *)
Definition IconImage_init (id0 : pystr) (path0 : option Path)
           (raw_bytes0 : option BytesIO) (img0 : option nat) : M IconImage :=
  __post_init__ (mkIconImage id0 path0 raw_bytes0 img0 None None).

(** [IconImage.resize_image_as_copy]. *)
Definition resize_image_as_copy (self : IconImage) (icon_size : IconSize)
           (resample : Resampling) : M (nat * IconImage) :=
  let width := size icon_size in
  let height := size icon_size in
  let (svg, self) := is_svg self in
  if svg then
    match raw_bytes self with
    | None => raise NoSvgRawBytes
    | Some b =>
        let (data, b') := read_all (seek0 b) in
        let self := set_raw_bytes self (Some b') in
        png <- lib_call (svg2png E data width height) ;;
        d <- lib_call (pil_open E png) ;;
        new_img <- alloc d ;;
        ret (new_img, self)
    end
  else
    sz <- get_image_size self ;;
    let '((current_width, current_height), self) := sz in
    match img self with
    | None => raise AssertionFailed
    | Some r =>
        d <- load r ;;
        if (current_width =? width) && (current_height =? height)
        then copy <- alloc d ;; ret (copy, self)
        else resized <- alloc (pil_resize E d width height resample) ;;
             ret (resized, self)
    end.

(** ** The downloader and the archive reader *)

Definition is_terminal_output : bool := isatty E.

Definition is_vt100_supported : bool := negb (os_name_nt E).

Definition convert_bytes_to_string (n : Z) : pystr :=
  if n >=? 1073741824 then format_2f E n 1073741824 ++ lit " GiB"
  else if n >=? 1048576 then format_2f E n 1048576 ++ lit " MiB"
  else if n >=? 1024 then format_2f E n 1024 ++ lit " KiB"
  else str_of_Z n ++ lit " Bytes".

(** The text of one progress line. *)
Definition progress_message (total_size : option Z) (total_size_human : pystr)
           (bytes_downloaded : Z) : pystr :=
  let bytes_downloaded_human := convert_bytes_to_string bytes_downloaded in
  match total_size with
  | Some total =>
      lit "Downloaded " ++ bytes_downloaded_human ++ lit " of " ++ total_size_human
      ++ lit "... (" ++ format_percent E bytes_downloaded total ++ lit "%)"
  | None => lit "Downloaded " ++ bytes_downloaded_human ++ lit "..."
  end.

Definition c_esc : char := 27%N.
Definition c_cr : char := 13%N.

(** The [while True] loop over [response.read(chunk_size)]: it stops at the
    first empty chunk.  The loop state is the buffer, the byte count and the
    longest line printed so far. *)
Fixpoint download_loop (rs : list bytes) (total_size : option Z)
         (total_size_human : pystr) (data : bytes) (bytes_downloaded : Z)
         (max_line_length : nat) : M bytes :=
  match rs with
  | [] => ret data
  | chunk :: rs' =>
      match chunk with
      | [] => ret data
      | _ =>
          let data := data ++ chunk in
          let bytes_downloaded := bytes_downloaded + Z.of_nat (List.length chunk) in
          if negb is_terminal_output
          then download_loop rs' total_size total_size_human data bytes_downloaded
                 max_line_length
          else
            let message :=
              progress_message total_size total_size_human bytes_downloaded in
            if is_vt100_supported
            then print_noend ([c_esc] ++ lit "[2K" ++ [c_cr] ++ message) ;;;
                 download_loop rs' total_size total_size_human data bytes_downloaded
                   max_line_length
            else print_noend ([c_cr] ++ ljust message max_line_length) ;;;
                 download_loop rs' total_size total_size_human data bytes_downloaded
                   (Nat.max max_line_length (List.length message))
      end
  end.

(** The lines between the status check and the read loop: the total size,
    when the header gives a positive one. *)
Definition declared_size (response : Response) : M (option Z) :=
  match content_length_header response with
  | None => ret None
  | Some text =>
      match py_int E text with
      | None => raise (LibraryError (lit "invalid literal for int() with base 10"))
      | Some content_length =>
          if content_length >? 0 then ret (Some content_length) else ret None
      end
  end.

Definition total_size_text (total_size : option Z) : pystr :=
  match total_size with
  | Some n => convert_bytes_to_string n
  | None => []
  end.

(** [download_with_progress] of [iconix.py]. *)
Definition download_with_progress (url : pystr) : M BytesIO :=
  emit (HttpGet url) ;;;
  response <- lib_call (urlopen E url) ;;
  if negb (getcode response =? 200) then raise (HttpStatus (getcode response))
  else
    total_size <- declared_size response ;;
    data <- download_loop (reads response) total_size (total_size_text total_size)
              [] 0 0 ;;
    (if is_terminal_output
     then print (nl ++ lit "Download complete.")
     else print (lit "Download complete.")) ;;;
    ret (seek0 (mkBytesIO data (List.length data))).

(** [download_with_progress] of [patch.py]: it prints the error and returns
    [None] where the other raises. *)
Definition patch_download_with_progress (url : pystr) : M (option BytesIO) :=
  emit (HttpGet url) ;;;
  response <- lib_call (urlopen E url) ;;
  if negb (getcode response =? 200)
  then print (lit "Error: HTTP " ++ str_of_Z (getcode response)
              ++ lit " response received.") ;;;
       ret None
  else
    total_size <- declared_size response ;;
    data <- download_loop (reads response) total_size (total_size_text total_size)
              [] 0 0 ;;
    print ((if is_terminal_output then nl else []) ++ lit "Download complete.") ;;;
    ret (Some (seek0 (mkBytesIO data (List.length data)))).

(** [tar.getmember(name)]: the last member of that name. *)
Fixpoint getmember (members : list (pystr * option bytes)) (name : pystr)
  : option (option bytes) :=
  match members with
  | [] => None
  | (n, data) :: rest =>
      match getmember rest name with
      | Some x => Some x
      | None => if str_eqb n name then Some data else None
      end
  end.

(** [tar.extractfile(name)] under [try .. except KeyError: pass].  A
    missing member raises [KeyError]; so does a link whose target is missing;
    for a directory or a device [extractfile] returns [None]: all three
    leave [None].  For a link to a file it opens that file. *)
Definition extractfile (members : list (pystr * option bytes)) (name : pystr)
  : option bytes :=
  match getmember members name with
  | Some (Some data) => Some data
  | _ => None
  end.

Fixpoint print_names (names : list pystr) : M unit :=
  match names with
  | [] => ret tt
  | name :: rest => print (lit "- " ++ name) ;;; print_names rest
  end.

Definition found_message (discord_png_path : Path) (data : bytes) : pystr :=
  lit "Found " ++ quoted (Path_name discord_png_path) ++ lit ". File Size: "
  ++ convert_bytes_to_string (Z.of_nat (List.length data)) ++ lit ".".

(** [extract_discord_icon] of [iconix.py]. *)
Definition extract_discord_icon (tar_data : BytesIO) (discord_png_path : Path)
  : M BytesIO :=
  members <- lib_call (tar_open E (skipn (position tar_data) (content tar_data))) ;;
  print (lit "Files in the tar archive:") ;;;
  print_names (map fst members) ;;;
  match extractfile members (Path_str discord_png_path) with
  | None => raise (MemberNotFound discord_png_path)
  | Some discord_png_data =>
      print (found_message discord_png_path discord_png_data) ;;;
      ret (BytesIO_new discord_png_data)
  end.

(** [extract_discord_icon] of [patch.py]. *)
Definition patch_extract_discord_icon (tar_data : BytesIO) (discord_png_path : Path)
  : M (option BytesIO) :=
  members <- lib_call (tar_open E (skipn (position tar_data) (content tar_data))) ;;
  print (lit "Files in the tar archive:") ;;;
  print_names (map fst members) ;;;
  match extractfile members (Path_str discord_png_path) with
  | None =>
      print (lit "Error: " ++ Path_str discord_png_path
             ++ lit " was not found in archive!") ;;;
      ret None
  | Some discord_png_data =>
      print (found_message discord_png_path discord_png_data) ;;;
      ret (Some (BytesIO_new discord_png_data))
  end.

Definition discord_tar_url : pystr :=
  lit "https://discord.com/api/download?platform=linux&format=tar.gz".

Definition discord_png_path : Path := Path_of_str (lit "Discord/discord.png").

Definition fetching_message : pystr :=
  lit "Fetching latest Discord tar.gz archive:" ++ nl ++ lit "- "
  ++ quoted discord_tar_url.

Definition get_latest_discord_icon : M BytesIO :=
  print fetching_message ;;;
  tar_data <- download_with_progress discord_tar_url ;;
  print [] ;;;
  discord_png_data <- extract_discord_icon tar_data discord_png_path ;;
  print [] ;;;
  ret discord_png_data.

(** [get_xdg_data_home], the same in both scripts. *)
Definition get_xdg_data_home : Path :=
  match XDG_DATA_HOME E with
  | Some (c :: text) => Path_of_str (c :: text)
  | _ => truediv (Path_of_str (home E)) (lit ".local/share")
  end.

(** ** Settings *)

(** [len(sys.argv) - 1 <= 0]. *)
Definition no_arguments (c : CommandLine) : bool :=
  negb (arg_discord c || is_not_None (arg_icon c) || is_not_None (arg_name c)
        || is_not_None (arg_size c) || arg_simulate c).

Fixpoint convert_tokens (tokens : list pystr) : outcome (list raw_size) :=
  match tokens with
  | [] => Ok []
  | t :: rest =>
      match parse_size t with
      | Ok s =>
          match convert_tokens rest with
          | Ok l => Ok (RawIconSize s :: l)
          | r => r
          end
      | _ => Exit 2      (* parser.error: usage on stderr, status 2 *)
      end
  end.

Definition args_size (c : CommandLine) : outcome (list raw_size) :=
  match arg_size c with
  | None => Ok (map RawInt DEFAULT_ICON_SIZES)
  | Some [] => Exit 2    (* nargs="+" demands a value *)
  | Some tokens => convert_tokens tokens
  end.

(** The loop that fills [target_icon_sizes]. *)
Fixpoint target_sizes (raw : list raw_size) : outcome (list IconSize) :=
  match raw with
  | [] => Ok []
  | r :: rest =>
      match (match r with
             | RawIconSize s => Ok s
             | RawInt n => IconSize_init (SizeInt n) 1
             end) with
      | Ok s =>
          match target_sizes rest with
          | Ok l => Ok (s :: l)
          | e => e
          end
      | Raise e => Raise e
      | Exit n => Exit n
      end
  end.

Definition lift {A : Type} (r : outcome A) : M A := fun w => (r, w).

Definition convert_args_to_settings (c : CommandLine) : M Settings :=
  if no_arguments c then emit PrintHelp ;;; exit 1
  else
    raw <- lift (args_size c) ;;
    let args_name := match arg_name c with Some n => n | None => lit "vesktop" end in
    let args_icon := option_map Path_of_str (arg_icon c) in
    (if str_eqb args_name [] then raise EmptyName else ret tt) ;;;
    (match args_icon with
     | Some icon_path =>
         if negb (is_file E icon_path) then raise (NotAFile icon_path)
         else if st_size E icon_path <=? 0 then raise (EmptyFile icon_path)
         else if negb (svg_supported E) && str_eqb (get_file_suffix icon_path) (lit ".svg")
         then raise SvgUnsupported
         else ret tt
     | None => ret tt
     end) ;;;
    (if negb (arg_discord c) && negb (is_not_None args_icon)
     then raise NoIconChosen else ret tt) ;;;
    target_icon_sizes <- lift (target_sizes raw) ;;
    let target_icon_sizes := list_sort target_icon_sizes in
    (if (Z.of_nat (List.length target_icon_sizes) <=? 0) then raise NoTargetSize
     else ret tt) ;;;
    ret (mkSettings args_name target_icon_sizes (arg_simulate c) (arg_discord c)
           args_icon).

(** ** The pipeline of [iconix.py] *)

Definition fail {A : Type} (e : Error) : M A :=
  print (lit "Error: " ++ Error_message e) ;;; exit 1.

(** The chosen image: the custom file when there is one, else the
    downloaded icon. *)
Definition acquire_icon (settings : Settings) : M IconImage :=
  match icon_path settings with
  | Some p =>
      IconImage_init (lit "Custom Icon (" ++ quoted (Path_str p) ++ lit ")")
        (Some p) None None
  | None =>
      raw <- get_latest_discord_icon ;;
      IconImage_init (lit "Official Discord Icon") None (Some raw) None
  end.

(** The first [try] block: settings, the image, the square check. *)
Definition load_icon (c : CommandLine) : M (Settings * IconImage) :=
  try_except
    (settings <- convert_args_to_settings c ;;
     icon_image <- acquire_icon settings ;;
     print (lit "Loaded Icon:" ++ nl ++ lit "- Source: " ++ id icon_image) ;;;
     sz <- get_image_size icon_image ;;
     let '((original_width, original_height), icon_image) := sz in
     let (svg, icon_image) := is_svg icon_image in
     let human_size :=
       if svg then lit "Scalable Vector Graphics"
       else str_of_Z original_width ++ [c_x] ++ str_of_Z original_height in
     print (lit "- Input Size: " ++ human_size) ;;;
     let (svg, icon_image) := is_svg icon_image in
     if negb svg && negb (original_width =? original_height)
     then raise (NotSquare human_size)
     else ret (settings, icon_image))
    fail.

Definition icon_theme_name : pystr := lit "hicolor".
Definition icon_context : pystr := lit "apps".

Definition icon_theme_dir : Path :=
  truediv get_xdg_data_home (lit "icons/" ++ icon_theme_name).

Definition icon_parent_dir (icon_size : IconSize) : Path :=
  truediv icon_theme_dir (get_name icon_size ++ [c_slash] ++ icon_context).

Definition icon_target_file (target_icon_name : pystr) (icon_size : IconSize) : Path :=
  truediv (icon_parent_dir icon_size) (target_icon_name ++ lit ".png").

(** The [for] loop over [settings.icon_sizes]; its state is the image
    object and the list of installed paths. *)
Fixpoint install_loop (settings : Settings) (icon_image : IconImage)
         (sizes : list IconSize) (installed_icons : list Path) : M (list Path) :=
  match sizes with
  | [] => ret installed_icons
  | icon_size :: rest =>
      let parent := icon_parent_dir icon_size in
      let target := icon_target_file (name settings) icon_size in
      r <- resize_image_as_copy icon_image icon_size LANCZOS ;;
      let (scaled_icon_img, icon_image) := r in
      print (lit "- " ++ quoted (Path_str target)) ;;;
      (if negb (simulate settings) then
         os_call (Mkdir parent) ;;;
         t <- get_trace ;;
         (if negb (is_dir E t parent) then raise (MkdirFailed parent) else ret tt) ;;;
         os_call (OpenWb target) ;;;
         d <- load scaled_icon_img ;;
         os_call (WritePng target d)
       else ret tt) ;;;
      install_loop settings icon_image rest (installed_icons ++ [target])
  end.

Definition gnome_icon_cache_cmd : pystr := lit "gtk-update-icon-cache".

Definition cache_argv : list pystr :=
  [gnome_icon_cache_cmd; lit "-f"; lit "-t"; Path_str icon_theme_dir].

(** Touch the theme directory and refresh the cache; this part runs
    outside any [try], and in simulated runs too. *)
Definition notify_cache : M unit :=
  print (nl ++ lit "Letting the system know that the icon theme was updated:" ++ nl
         ++ lit "- Updating timestamp: " ++ quoted (Path_str icon_theme_dir)) ;;;
  os_call (Utime icon_theme_dir) ;;;
  if which E gnome_icon_cache_cmd then
    t <- get_trace ;;
    result <- lib_call (run_result E t cache_argv) ;;
    emit (Run cache_argv) ;;;
    if negb (fst result =? 0) then
      print (lit "Error: A problem occurred while executing "
             ++ quoted gnome_icon_cache_cmd ++ lit ".") ;;;
      exit 1
    else print (lit "- GNOME's icon cache: " ++ quoted (str_strip E (snd result)))
  else ret tt.

Definition removal_msg (titlecase : pystr) (installed_icons : list Path) : pystr :=
  lit "If you ever want to remove the custom " ++ titlecase
  ++ lit " icons for some reason, simply execute the following commands:" ++ nl ++ nl
  ++ join nl (map (fun f => lit "rm -fv " ++ quoted (Path_str f)) installed_icons) ++ nl
  ++ lit "touch --no-create " ++ quoted (Path_str icon_theme_dir) ++ nl
  ++ gnome_icon_cache_cmd ++ lit " -f -t " ++ quoted (Path_str icon_theme_dir) ++ nl.

Definition removal_text_file : Path :=
  truediv (program_dir E) (lit "how_to_remove.txt").

Definition closing_message (titlecase msg : pystr) : pystr :=
  nl ++ lit "***" ++ nl ++ msg ++ nl
  ++ lit "These instructions have also been saved to "
  ++ quoted (Path_name removal_text_file) ++ lit "." ++ nl
  ++ lit "***" ++ nl ++ nl
  ++ lit "Patching complete! It may take a few minutes for the new icon to become active in your desktop environment."
  ++ nl ++ nl
  ++ lit "If you're on GNOME, opening the Activities Overview and searching for "
  ++ titlecase ++ lit " seems to help it detect the change a bit faster." ++ nl ++ nl
  ++ lit "The new app icon will remain active forever, even after future "
  ++ titlecase ++ lit " app updates!" ++ nl ++ nl
  ++ lit "You will never need to run this patcher again!".

(** Everything after the first [try] block. *)
Definition install (settings : Settings) (icon_image : IconImage) : M unit :=
  let titlecase := str_title E (name settings) in
  print (nl ++ lit "Saving new " ++ titlecase ++ lit " app icons to disk:") ;;;
  installed_icons <-
    try_except (install_loop settings icon_image (icon_sizes settings) []) fail ;;
  notify_cache ;;;
  let msg := removal_msg titlecase installed_icons in
  os_call (WriteText removal_text_file msg) ;;;
  print (closing_message titlecase msg) ;;;
  if simulate settings
  then print (nl ++ lit "[This was a simulated run. Icons have not been written to disk.]")
  else ret tt.

(** The whole script, for options that [parse_args] reads. *)
Definition main (c : CommandLine) : M unit :=
  loaded <- load_icon c ;;
  install (fst loaded) (snd loaded).

(** The script as it is started.  The help option and a refused command
    line end the script inside [parser.parse_args()]: the one prints the
    help and leaves with status 0, the other leaves with status 2 (its
    message goes to standard error).  [SystemExit] is no [Exception], so the
    handler of the first block lets it pass. *)
Definition iconix (i : Invocation) : M unit :=
  match i with
  | HelpOption => emit PrintHelp ;;; exit 0
  | Unparsable => exit 2
  | Options c => main c
  end.

(** ** The pipeline of [patch.py] *)

(** [get_image_size(image_data)] of [patch.py]. *)
Definition patch_get_image_size (image_data : BytesIO)
  : M ((bool * Z * Z) * BytesIO) :=
  d <- lib_call (pil_open E (skipn (position image_data) (content image_data))) ;;
  let width := im_width d in
  let height := im_height d in
  let success := negb ((width =? -1) && (height =? -1)) in
  ret ((success, width, height), seek0 image_data).

Definition patch_target_app_name : pystr := lit "vesktop".

Definition patch_icon_parent_dir (width height : Z) : Path :=
  truediv icon_theme_dir
    (str_of_Z width ++ [c_x] ++ str_of_Z height ++ [c_slash] ++ icon_context).

Definition patch_icon_target_file (width height : Z) (discord_png_path : Path) : Path :=
  truediv (patch_icon_parent_dir width height)
    (patch_target_app_name ++ Path_suffix discord_png_path).

Definition patch_removal_msg (target : Path) : pystr :=
  lit "If you ever want to remove the custom Vesktop icon for some reason, simply execute the following commands:"
  ++ nl ++ nl
  ++ lit "rm -fv " ++ quoted (Path_str target) ++ nl
  ++ lit "touch --no-create " ++ quoted (Path_str icon_theme_dir) ++ nl
  ++ gnome_icon_cache_cmd ++ lit " -f -t " ++ quoted (Path_str icon_theme_dir) ++ nl.

Definition patch_closing_message (msg : pystr) : pystr :=
  nl ++ lit "***" ++ nl ++ msg ++ nl
  ++ lit "These instructions have also been saved to "
  ++ quoted (Path_name removal_text_file) ++ lit "." ++ nl
  ++ lit "***" ++ nl ++ nl
  ++ lit "Patching complete! It may take a few minutes for the new icon to become active in your desktop environment."
  ++ nl ++ nl
  ++ lit "If you're on GNOME, opening the Activities Overview and searching for Vesktop seems to help it detect the change a bit faster."
  ++ nl ++ nl
  ++ lit "The new app icon will remain active forever, even after future Vesktop app updates!"
  ++ nl ++ nl
  ++ lit "You will never need to run this patcher again!".

(** The whole of [patch.py]; it takes no arguments. *)
Definition patch_main : M unit :=
  print fetching_message ;;;
  tar_data <- patch_download_with_progress discord_tar_url ;;
  match tar_data with
  | None => exit 1
  | Some tar_data =>
      print [] ;;;
      discord_png_data <- patch_extract_discord_icon tar_data discord_png_path ;;
      match discord_png_data with
      | None => exit 1
      | Some discord_png_data =>
          r <- patch_get_image_size discord_png_data ;;
          let '((success, width, height), discord_png_data) := r in
          if negb success then
            print (lit "Error: Failed to get icon dimensions from PNG file.") ;;; exit 1
          else if negb (width =? height) || negb (width mod 8 =? 0) then
            print (lit "Error: Icon dimensions are not square or not divisible by 8 ("
                   ++ str_of_Z width ++ [c_x] ++ str_of_Z height ++ lit ").") ;;;
            exit 1
          else
            let parent := patch_icon_parent_dir width height in
            let target := patch_icon_target_file width height discord_png_path in
            os_call (Mkdir parent) ;;;
            t <- get_trace ;;
            if negb (is_dir E t parent) then
              print (lit "Error: Failed to create icon directory at "
                     ++ quoted (Path_str parent) ++ lit ".") ;;;
              exit 1
            else
              print (nl ++ lit "Saving new Vesktop app icon to disk:" ++ nl ++ lit "- "
                     ++ quoted (Path_str target)) ;;;
              os_call (OpenWb target) ;;;
              os_call (WriteBytes target (fst (read_all discord_png_data))) ;;;
              notify_cache ;;;
              let msg := patch_removal_msg target in
              os_call (WriteText removal_text_file msg) ;;;
              print (patch_closing_message msg)
      end
  end.

(** * Properties *)

(** ** The vocabulary of the statements *)

(** A run of decimal digits, as [\d+] matches it. *)
Definition digits (ds : pystr) : Prop :=
  ds <> [] /\ Forall (fun c => is_digit c = true) ds.

(** The text does not go on with a digit. *)
Definition no_digit_ahead (s : pystr) : Prop :=
  match s with
  | [] => True
  | c :: _ => is_digit c = false
  end.

Definition is_empty (s : list N) : bool :=
  match s with [] => true | _ => false end.

(** *** The pattern, read as a recogniser

    A direct reading of the pattern: the longest run of digits, then
    optionally [x] and the same run again, then optionally [@] and a second
    run, then the end of the text (or a last newline). *)

Fixpoint take_digits (s : pystr) : pystr :=
  match s with
  | c :: s' => if is_digit c then c :: take_digits s' else []
  | [] => []
  end.

Fixpoint drop_digits (s : pystr) : pystr :=
  match s with
  | c :: s' => if is_digit c then drop_digits s' else s
  | [] => []
  end.

(** After [x] and the repeated run: [@] and the scale. *)
Definition scale_groups (ds rest2 : pystr) : option groups :=
  match rest2 with
  | c :: rest3 =>
      if char_eqb c_at c
      then if negb (is_empty (take_digits rest3)) && at_eol (drop_digits rest3)
           then Some [(2%nat, take_digits rest3); (1%nat, ds)]
           else None
      else None
  | [] => None
  end.

(** After the first run: [x], the same run, and perhaps a scale. *)
Definition repeat_groups (ds rest : pystr) : option groups :=
  match rest with
  | c :: rest1 =>
      if char_eqb c_x c
      then match strip_prefix ds rest1 with
           | Some rest2 =>
               match scale_groups ds rest2 with
               | Some g => Some g
               | None => if at_eol rest2 then Some [(1%nat, ds)] else None
               end
           | None => None
           end
      else None
  | [] => None
  end.

Definition size_groups (ds rest : pystr) : option groups :=
  match repeat_groups ds rest with
  | Some g => Some g
  | None => if at_eol rest then Some [(1%nat, ds)] else None
  end.

Definition direct_search (text : pystr) : option groups :=
  if is_empty (take_digits text) then None
  else size_groups (take_digits text) (drop_digits text).

Definition final : pystr -> groups -> option groups := fun _ g => Some g.

(** The three shapes of a size token: ["N"], ["NxN"] and ["NxN@S"]. *)
Definition token_N (ds : pystr) : pystr := ds.
Definition token_NxN (ds1 ds2 : pystr) : pystr := ds1 ++ [c_x] ++ ds2.
Definition token_NxNS (ds ss : pystr) : pystr := ds ++ [c_x] ++ ds ++ [c_at] ++ ss.

(** A text of one of the three shapes. *)
Definition size_token (text : pystr) : Prop :=
  exists ds, digits ds /\
    (text = token_N ds \/ text = token_NxN ds ds
     \/ exists ss, digits ss /\ text = token_NxNS ds ss).

(** Where [$] matches: nothing is left, or one last newline. *)
Definition eol (e : pystr) : Prop := e = [] \/ e = nl.

(** The order of sizes: by size, then by scale. *)
Definition IconSize_le (a b : IconSize) : Prop :=
  size a < size b \/ (size a = size b /\ scale a <= scale b).

(** How many of the three inputs of [IconImage] the caller gave. *)
Definition inputs_given (p : option Path) (b : option BytesIO) (i : option nat) : nat :=
  (if is_not_None p then 1 else 0) + (if is_not_None b then 1 else 0)
  + (if is_not_None i then 1 else 0).

(** Two states of an image source with the same inputs: identifier, path,
    bytes of the buffer and image object.  The two memo fields and the read
    position of the buffer are left out. *)
Definition same_source (a b : IconImage) : Prop :=
  id a = id b /\ path a = path b /\ img a = img b
  /\ option_map content (raw_bytes a) = option_map content (raw_bytes b).

(** The chunks the read loop takes: those before the first empty one. *)
Fixpoint chunks_read (rs : list bytes) : list bytes :=
  match rs with
  | [] => []
  | chunk :: rs' => if is_empty chunk then [] else chunk :: chunks_read rs'
  end.

(** The Content-Length header, if there is one, is a number for [int]. *)
Definition header_readable (response : Response) : Prop :=
  forall text, content_length_header response = Some text -> py_int E text <> None.

(** One more effect on a world. *)
Definition after (w : World) (e : Event) : World :=
  mkWorld (trace w ++ [e]) (images w).

(** The two lines printed once the image is loaded. *)
Definition loaded_lines (im : IconImage) (human_size : pystr) : list Event :=
  [Print (lit "Loaded Icon:" ++ nl ++ lit "- Source: " ++ id im ++ nl);
   Print (lit "- Input Size: " ++ human_size ++ nl)].

Definition dimensions_text (width height : Z) : pystr :=
  str_of_Z width ++ [c_x] ++ str_of_Z height.

Definition patch_geometry_error (width height : Z) : Event :=
  Print (lit "Error: Icon dimensions are not square or not divisible by 8 ("
         ++ dimensions_text width height ++ lit ")." ++ nl).

(** The line the install loop prints for one size. *)
Definition target_line (target_icon_name : pystr) (icon_size : IconSize) : Event :=
  Print (lit "- " ++ quoted (Path_str (icon_target_file target_icon_name icon_size))
         ++ nl).

(** [p] is [root] or lies below it. *)
Fixpoint is_prefix (a b : list pystr) : bool :=
  match a, b with
  | [], _ => true
  | x :: a', y :: b' => str_eqb x y && is_prefix a' b'
  | _ :: _, [] => false
  end.

Definition under (root_dir p : Path) : bool :=
  str_eqb (root root_dir) (root p) && is_prefix (parts root_dir) (parts p).

(** An effect that changes the file system at or below [root_dir]: a
    directory or file created or written there, a timestamp updated there,
    or a process run on that directory. *)
Definition modifies (root_dir : Path) (e : Event) : bool :=
  match e with
  | Mkdir p | OpenWb p | WritePng p _ | WriteBytes p _ | WriteText p _ | Utime p =>
      under root_dir p
  | Run argv => existsb (str_eqb (Path_str root_dir)) argv
  | Print _ | PrintHelp | HttpGet _ => false
  end.

(** Effects that leave the file system alone. *)
Definition harmless (e : Event) : Prop :=
  match e with
  | Print _ | PrintHelp | HttpGet _ => True
  | _ => False
  end.

(** The effects a simulated run may have: the harmless ones, the touch of
    the theme directory, the cache refresh and the removal instructions. *)
Definition simulate_allowed (e : Event) : Prop :=
  match e with
  | Print _ | PrintHelp | HttpGet _ => True
  | Utime p => p = icon_theme_dir
  | Run argv => argv = cache_argv
  | WriteText p _ => p = removal_text_file
  | _ => False
  end.

(** A computation whose only effects are harmless events and new image
    objects. *)
Definition quiet {A : Type} (c : M A) : Prop :=
  forall w, exists r evs imgs,
    c w = (r, mkWorld (trace w ++ evs) (images w ++ imgs)) /\ Forall harmless evs.

Definition saving_line (titlecase : pystr) : Event :=
  Print (nl ++ lit "Saving new " ++ titlecase ++ lit " app icons to disk:" ++ nl).

(** The removal instructions for a full list of sizes. *)
Definition removal_event (st : Settings) : Event :=
  WriteText removal_text_file
    (removal_msg (str_title E (name st))
       (map (icon_target_file (name st)) (icon_sizes st))).

(** No effect of a trace changes the file system at or below [root_dir]. *)
Definition untouched (root_dir : Path) (tr : list Event) : bool :=
  forallb (fun e => negb (modifies root_dir e)) tr.

(** A relative text already in the form [pathlib] keeps: no leading,
    doubled or trailing slash and no ["."] component. *)
Definition plain_relative (s : pystr) : bool :=
  forallb keep_component (split c_slash s).

Definition no_slash (s : pystr) : Prop := Forall (fun c => c <> c_slash) s.

(** The settings of the end-to-end scenario: sizes "32" and "64x64@2",
    name "testapp", simulate on, the Discord icon. *)
Definition scenario : CommandLine :=
  mkCommandLine true None (Some (lit "testapp")) (Some [lit "32"; lit "64x64@2"]) true.

Definition scenario_settings : Settings :=
  mkSettings (lit "testapp") [mkIconSize 32 1; mkIconSize 64 2] true true None.

(** The three failure kinds of the size parser. *)
Inductive FailureKind : Type := InvalidFormat | InvalidSize | InvalidScale.

Definition failure_kind (e : Error) : option FailureKind :=
  match e with
  | InvalidSizeSpecifier _ => Some InvalidFormat
  | SizeNotEven _ | SizeNotPositive _ => Some InvalidSize
  | ScaleNotPositive _ => Some InvalidScale
  | _ => None
  end.

(** Case analysis on every test of a monadic computation that is known to
    have produced a given result. *)
Ltac branch H :=
  repeat match type of H with
         | context [match ?x with _ => _ end] =>
             destruct x eqn:?; try discriminate H
         end.

Ltac branch_all :=
  repeat match goal with
         | H : context [match ?x with _ => _ end] |- _ =>
             destruct x eqn:?; try discriminate H
         end.

(** Symbolic execution of the methods of [IconImage]. *)
Ltac exec :=
  cbv beta iota zeta delta
    [IconImage_init __post_init__ _load_bytes_from_path _load_image_from_bytes
     is_svg IconImage_get_file_suffix get_image_size resize_image_as_copy
     rewind_raw_bytes bind ret raise lib_call alloc load deref
     set_raw_bytes set_img set_is_svg set_path_suffix
     id path raw_bytes img _path_suffix _is_svg
     is_not_None Nat.add Nat.eqb negb nbytes content position BytesIO_new seek0
     read_n read_all trace images fst snd].

Ltac run_in H :=
  cbv beta delta [bind ret raise exit lift emit try_except lib_call os_call
                  get_trace load alloc print print_noend fail] in H.

(** ** Further vocabulary *)

(** What the constructor of [IconSize] checks: an even, positive size and a
    positive scale. *)
Definition valid_size (s : IconSize) : Prop :=
  size s mod 2 = 0 /\ 0 < size s /\ 0 < scale s.

(** An integer with a short decimal text: [str] writes it and [int] reads
    it back under every limit of the interpreter. *)
Definition few_digits (n : Z) : Prop :=
  (List.length (str_of_Z n) <= max_digits_unchecked)%nat.

(** The groups of the pattern of [validate_size], from those of the pattern
    of [IconSize]: the second group gains the [@]. *)
Definition with_at (g : groups) : groups :=
  map (fun kv => if Nat.eqb (fst kv) 2 then (fst kv, c_at :: snd kv) else kv) g.

(** The tokens of [--size] that parse, and their sizes. *)
Definition token_ok (t : pystr) : bool :=
  match parse_size t with Ok _ => true | _ => false end.

Definition token_sizes (t : pystr) : list IconSize :=
  match parse_size t with Ok s => [s] | _ => [] end.

(** How a computation may behave: every effect satisfies [P]; when it
    leaves through [exit] the status satisfies [X]; when it raises, the
    exception satisfies [R]. *)
Definition ends {A : Type} (P : Event -> Prop) (X : Z -> Prop) (R : Error -> Prop)
           (c : M A) : Prop :=
  forall w, exists r evs imgs,
    c w = (r, mkWorld (trace w ++ evs) (images w ++ imgs))
    /\ Forall P evs
    /\ match r with
       | Ok _ => True
       | Raise e => R e
       | Exit n => X n
       end.

Definition any {A : Type} (a : A) : Prop := True.

Definition none {A : Type} (a : A) : Prop := False.

(** Every effect but a request of the downloader ([urlopen]). *)
Definition no_request (e : Event) : Prop :=
  match e with
  | HttpGet _ => False
  | _ => True
  end.

(** An exception raised inside a library or a system call, not by a
    [raise] of the scripts. *)
Definition from_library (e : Error) : Prop :=
  match e with
  | LibraryError _ => True
  | _ => False
  end.

Definition status_1 (n : Z) : Prop := n = 1.

Definition status_1_or_2 (n : Z) : Prop := n = 1 \/ n = 2.

(** What [--size] holds after [parse_args] is valid when it is an
    [IconSize]. *)
Definition raw_valid (r : raw_size) : Prop :=
  match r with
  | RawIconSize s => valid_size s
  | RawInt _ => True
  end.

(** The byte counts after each chunk, starting from [n]. *)
Fixpoint running_totals (n : Z) (chunks : list bytes) : list Z :=
  match chunks with
  | [] => []
  | chunk :: rest =>
      (n + Z.of_nat (List.length chunk))
      :: running_totals (n + Z.of_nat (List.length chunk)) rest
  end.

(** The total size the downloader works with: the Content-Length header
    when it is a positive number. *)
Definition announced_size (response : Response) : option Z :=
  match content_length_header response with
  | None => None
  | Some text =>
      match py_int E text with
      | Some n => if n >? 0 then Some n else None
      | None => None
      end
  end.

(** The progress text after [k] bytes of a response. *)
Definition progress_text (response : Response) (k : Z) : pystr :=
  progress_message (announced_size response)
    (total_size_text (announced_size response)) k.

(** A progress line on a VT100 terminal: erase the line, return, text. *)
Definition vt100_line (message : pystr) : Event :=
  Print ([c_esc] ++ lit "[2K" ++ [c_cr] ++ message).

(** A progress line elsewhere: return, text, then spaces. *)
Definition padded_line (message line : pystr) : Prop :=
  exists pad, line = [c_cr] ++ message ++ repeat 32%N pad.

Definition not_shorter (a b : pystr) : Prop :=
  (List.length a <= List.length b)%nat.

(** The member of that name that an archive reader returns: the last
    one. *)
Definition last_member (members : list (pystr * option bytes)) (name : pystr)
           (d : option bytes) : Prop :=
  exists pre post, members = pre ++ (name, d) :: post /\ ~ In name (map fst post).

(** No member of that name, or a last one from which [extractfile] reads
    nothing: a directory, a device, a link whose target is missing.  (A link
    to a file counts as that file.) *)
Definition no_such_file (members : list (pystr * option bytes)) (name : pystr) : Prop :=
  ~ In name (map fst members) \/ last_member members name None.

(** The lines that list an archive. *)
Definition listing (members : list (pystr * option bytes)) : list Event :=
  Print (lit "Files in the tar archive:" ++ nl)
  :: map (fun m => Print (lit "- " ++ fst m ++ nl)) members.

(** An image source that holds what its kind needs: the bytes, not empty,
    of a vector image; the decoded image of a raster one. *)
Definition loaded (im : IconImage) : Prop :=
  (fst (is_svg im) = true -> exists b, raw_bytes im = Some b /\ content b <> [])
  /\ (fst (is_svg im) = false -> img im <> None).

(** The effects of installing one size: its line, its directory, its
    file opened and written. *)
Definition install_events (target_icon_name : pystr) (entry : IconSize * ImageData)
  : list Event :=
  [target_line target_icon_name (fst entry);
   Mkdir (icon_parent_dir (fst entry));
   OpenWb (icon_target_file target_icon_name (fst entry));
   WritePng (icon_target_file target_icon_name (fst entry)) (snd entry)].

(** What is left of an installation that failed: nothing; the line; the
    line and the directory; or the line, the directory and the file opened,
    that is created or emptied, but not written. *)
Definition interrupted (target_icon_name : pystr) (sz : IconSize) (tail : list Event)
  : Prop :=
  tail = [] \/ tail = [target_line target_icon_name sz]
  \/ tail = [target_line target_icon_name sz; Mkdir (icon_parent_dir sz)]
  \/ tail = [target_line target_icon_name sz; Mkdir (icon_parent_dir sz);
             OpenWb (icon_target_file target_icon_name sz)].

(** The files a trace writes as PNG, in order. *)
Definition written_icons (tr : list Event) : list Path :=
  flat_map (fun e => match e with WritePng p _ => [p] | _ => [] end) tr.

(** The files a trace opens for writing, in order. *)
Definition opened_files (tr : list Event) : list Path :=
  flat_map (fun e => match e with OpenWb p => [p] | _ => [] end) tr.

(** The effects of the install loop and of the notification: lines,
    directories, icon files, the touch, the cache command. *)
Definition step_event (e : Event) : Prop :=
  match e with
  | Print _ | Mkdir _ | OpenWb _ | WritePng _ _ | Utime _ | Run _ => True
  | _ => False
  end.

(** A trace in which no text file is written. *)
Definition no_text_written (evs : list Event) : Prop :=
  forall p text, ~ In (WriteText p text) evs.


(** ** The size pattern *)

Lemma char_eqb_refl (c : char) : char_eqb c c = true.
Proof. apply N.eqb_refl. Qed.

Lemma char_eqb_eq (a b : char) : char_eqb a b = true <-> a = b.
Proof. apply N.eqb_eq. Qed.

Lemma str_eqb_eq (a b : pystr) : str_eqb a b = true <-> a = b.
Proof.
  revert b; induction a as [|x a IH]; intros [|y b]; simpl; split;
    try congruence; try reflexivity.
  - intros H. apply andb_true_iff in H as [H1 H2].
    apply char_eqb_eq in H1. apply IH in H2. congruence.
  - intros H. injection H as -> ->. rewrite char_eqb_refl. now apply IH.
Qed.

Lemma strip_prefix_app (p s : pystr) : strip_prefix p (p ++ s) = Some s.
Proof.
  induction p as [|x p IH]; simpl; [reflexivity|].
  now rewrite char_eqb_refl.
Qed.

Lemma strip_prefix_Some (p s r : pystr) : strip_prefix p s = Some r -> s = p ++ r.
Proof.
  revert s; induction p as [|x p IH]; intros s; simpl.
  - congruence.
  - destruct s as [|y s]; [discriminate|].
    destruct (char_eqb x y) eqn:Hxy; [|discriminate].
    apply char_eqb_eq in Hxy. intros H. apply IH in H. congruence.
Qed.

Lemma digit_not_x (c : char) : is_digit c = true -> char_eqb (c_x) c = false.
Proof.
  intros H. destruct (char_eqb c_x c) eqn:Hc; [|reflexivity].
  apply char_eqb_eq in Hc. subst c. discriminate H.
Qed.

Lemma digit_not_at (c : char) : is_digit c = true -> char_eqb (c_at) c = false.
Proof.
  intros H. destruct (char_eqb c_at c) eqn:Hc; [|reflexivity].
  apply char_eqb_eq in Hc. subst c. discriminate H.
Qed.

Lemma digit_not_nl (c : char) : is_digit c = true -> char_eqb c c_nl = false.
Proof.
  intros H. destruct (char_eqb c c_nl) eqn:Hc; [|reflexivity].
  apply char_eqb_eq in Hc. subst c. discriminate H.
Qed.

(** Greedy repetition followed by something that cannot start with a digit
    stops exactly at the end of the run: every shorter split is refused by
    the continuation. *)
Lemma many_digits {A : Type} (ds rest : pystr) (k : pystr -> option A) :
  Forall (fun c => is_digit c = true) ds ->
  no_digit_ahead rest ->
  (forall c s', is_digit c = true -> k (c :: s') = None) ->
  many IDigit (ds ++ rest) k = k rest.
Proof.
  intros Hds Hrest Hk. induction Hds as [|d ds Hd Hds IH]; cbn [many item_ok app].
  - destruct rest as [|c rest]; [reflexivity|].
    cbn [many item_ok]. simpl in Hrest. now rewrite Hrest.
  - rewrite Hd, IH. destruct (k rest) eqn:Hkr; [reflexivity|].
    now apply Hk.
Qed.

(** A pattern anchored with [^] can only match at the first position. *)
Lemma rmatch_bol_off (whole : pystr) (r : regex) (s : pystr) (g : groups) k :
  List.length s <> List.length whole ->
  rmatch whole (Cat Bol r) s g k = None.
Proof.
  intros Hlen. cbn [rmatch].
  destruct (Nat.eqb_spec (List.length s) (List.length whole)); [contradiction|reflexivity].
Qed.

Lemma search_from_bol (whole : pystr) (r : regex) (s : pystr) :
  (List.length s < List.length whole)%nat ->
  search_from whole (Cat Bol r) s = None.
Proof.
  induction s as [|c s IH]; intros Hlen; cbn [search_from];
    rewrite rmatch_bol_off by lia; [reflexivity|].
  apply IH. cbn [List.length] in Hlen. lia.
Qed.

Lemma re_search_bol (r : regex) (text : pystr) :
  re_search (Cat Bol r) text = rmatch text r text [] (fun _ g => Some g).
Proof.
  unfold re_search.
  assert (Hhead : rmatch text (Cat Bol r) text [] (fun _ g => Some g)
                  = rmatch text r text [] (fun _ g => Some g)).
  { cbn [rmatch]. now rewrite Nat.eqb_refl. }
  destruct text as [|c s]; cbn [search_from]; rewrite Hhead;
    destruct (rmatch _ r _ [] _); try reflexivity.
  apply search_from_bol. cbn [List.length]. lia.
Qed.

Lemma take_drop_digits (s : pystr) : take_digits s ++ drop_digits s = s.
Proof.
  induction s as [|c s IH]; simpl; [reflexivity|].
  destruct (is_digit c); simpl; [now rewrite IH|reflexivity].
Qed.

Lemma take_digits_Forall (s : pystr) :
  Forall (fun c => is_digit c = true) (take_digits s).
Proof.
  induction s as [|c s IH]; simpl; [constructor|].
  destruct (is_digit c) eqn:Hc; constructor; assumption.
Qed.

Lemma drop_digits_no_digit (s : pystr) : no_digit_ahead (drop_digits s).
Proof.
  induction s as [|c s IH]; simpl; [exact I|].
  destruct (is_digit c) eqn:Hc; [assumption|exact Hc].
Qed.

Lemma take_digits_app (ds rest : pystr) :
  Forall (fun c => is_digit c = true) ds -> no_digit_ahead rest ->
  take_digits (ds ++ rest) = ds /\ drop_digits (ds ++ rest) = rest.
Proof.
  intros Hds Hrest. induction Hds as [|d ds Hd Hds IH]; simpl.
  - destruct rest as [|c rest]; simpl in *; [auto|]. now rewrite Hrest.
  - rewrite Hd. destruct IH as [-> ->]. auto.
Qed.

Lemma firstn_app_minus {A : Type} (a b : list A) :
  firstn (List.length (a ++ b) - List.length b) (a ++ b) = a.
Proof.
  rewrite length_app.
  replace (List.length a + List.length b - List.length b)%nat
    with (List.length a + 0)%nat by lia.
  rewrite firstn_app_2. simpl. apply app_nil_r.
Qed.

Lemma at_eol_digit (c : char) (s : pystr) : is_digit c = true -> at_eol (c :: s) = false.
Proof.
  intros H. destruct s; simpl; [|reflexivity]. now apply digit_not_nl.
Qed.

Lemma rmatch_group_digits (whole : pystr) (n : nat) (s : pystr) (g : groups) k :
  (forall c s' g', is_digit c = true -> k (c :: s') g' = None) ->
  rmatch whole (Group n (Many1 IDigit)) s g k
  = if is_empty (take_digits s) then None
    else k (drop_digits s) ((n, take_digits s) :: g).
Proof.
  intros Hk. destruct s as [|c s']; [reflexivity|].
  cbn [rmatch item_ok take_digits drop_digits].
  destruct (is_digit c) eqn:Hc; [|reflexivity].
  cbn [is_empty].
  rewrite <- (take_drop_digits s') at 1.
  rewrite many_digits.
  - f_equal. f_equal. f_equal.
    change (c :: s') with ([c] ++ s').
    rewrite <- (take_drop_digits s') at 1 3.
    rewrite app_assoc. apply firstn_app_minus.
  - apply take_digits_Forall.
  - apply drop_digits_no_digit.
  - intros; now apply Hk.
Qed.

Lemma scale_eval (whole ds rest2 : pystr) :
  rmatch whole (Cat (One (ILit c_at)) (Group 2 (Many1 IDigit))) rest2 [(1%nat, ds)]
    (fun s g => rmatch whole Eol s g final)
  = scale_groups ds rest2.
Proof.
  destruct rest2 as [|c rest3]; [reflexivity|].
  cbn [rmatch item_ok scale_groups].
  destruct (char_eqb c_at c); [|reflexivity].
  change (rmatch whole (Group 2 (Many1 IDigit)) rest3 [(1%nat, ds)]
            (fun s g => rmatch whole Eol s g final) = 
          if negb (is_empty (take_digits rest3)) && at_eol (drop_digits rest3)
          then Some [(2%nat, take_digits rest3); (1%nat, ds)] else None).
  rewrite rmatch_group_digits.
  - destruct (is_empty (take_digits rest3)); [reflexivity|].
    cbn [rmatch negb andb]. unfold final. reflexivity.
  - intros c' s' g' Hc'. cbn [rmatch]. now rewrite at_eol_digit.
Qed.

Lemma rmatch_Cat (whole : pystr) (r1 r2 : regex) s g k :
  rmatch whole (Cat r1 r2) s g k
  = rmatch whole r1 s g (fun s' g' => rmatch whole r2 s' g' k).
Proof. reflexivity. Qed.

Lemma rmatch_Opt (whole : pystr) (r : regex) s g k :
  rmatch whole (Opt r) s g k
  = match rmatch whole r s g k with Some res => Some res | None => k s g end.
Proof. reflexivity. Qed.

Lemma rmatch_One (whole : pystr) (i : item) c s g k :
  rmatch whole (One i) (c :: s) g k = if item_ok i c then k s g else None.
Proof. reflexivity. Qed.

Lemma rmatch_Eol (whole : pystr) s g :
  rmatch whole Eol s g final = if at_eol s then Some g else None.
Proof. reflexivity. Qed.

Lemma repeat_eval (whole ds rest : pystr) :
  rmatch whole
    (Cat (One (ILit c_x))
       (Cat (Backref 1) (Opt (Cat (One (ILit c_at)) (Group 2 (Many1 IDigit))))))
    rest [(1%nat, ds)] (fun s g => rmatch whole Eol s g final)
  = match rest with
    | c :: rest1 =>
        if char_eqb c_x c
        then match strip_prefix ds rest1 with
             | Some rest2 =>
                 match scale_groups ds rest2 with
                 | Some g => Some g
                 | None => if at_eol rest2 then Some [(1%nat, ds)] else None
                 end
             | None => None
             end
        else None
    | [] => None
    end.
Proof.
  rewrite rmatch_Cat. destruct rest as [|c rest1]; [reflexivity|].
  rewrite rmatch_One. cbn [item_ok].
  destruct (char_eqb c_x c); [|reflexivity].
  rewrite rmatch_Cat. cbn [rmatch group Nat.eqb] .
  destruct (strip_prefix ds rest1) as [rest2|]; [|reflexivity].
  pose proof (scale_eval whole ds rest2) as H. rewrite rmatch_Cat in H.
  cbn [rmatch] in H |- *.
  rewrite H. reflexivity.
Qed.

(** The backtracking matcher, run on the size pattern, is the direct
    recogniser. *)
Lemma size_re_direct (text : pystr) : re_search size_re text = direct_search text.
Proof.
  unfold size_re. rewrite re_search_bol, rmatch_Cat.
  rewrite rmatch_group_digits.
  - unfold direct_search. destruct (is_empty (take_digits text)); [reflexivity|].
    rewrite rmatch_Cat, rmatch_Opt, repeat_eval, rmatch_Eol.
    reflexivity.
  - intros c s' g' Hc. rewrite rmatch_Cat, rmatch_Opt, rmatch_Cat, rmatch_One.
    cbn [item_ok]. rewrite (digit_not_x c Hc), rmatch_Eol.
    now rewrite at_eol_digit.
Qed.

(** *** The pattern on the three token shapes *)

Lemma at_eol_eol (s : pystr) : at_eol s = true <-> eol s.
Proof.
  unfold eol, nl. destruct s as [|c [|c' s]]; simpl.
  - tauto.
  - rewrite char_eqb_eq. split; [intros ->; auto|]. intros [H|H]; congruence.
  - split; [discriminate|]. intros [H|H]; discriminate.
Qed.

Lemma eol_no_digit (e : pystr) : eol e -> no_digit_ahead e.
Proof. intros [->| ->]; simpl; [exact I|reflexivity]. Qed.

Lemma digits_nonempty (ds : pystr) : digits ds -> is_empty ds = false.
Proof. intros [Hne _]. destruct ds; [contradiction|reflexivity]. Qed.

Lemma direct_search_split (ds rest : pystr) :
  digits ds -> no_digit_ahead rest ->
  direct_search (ds ++ rest) = size_groups ds rest.
Proof.
  intros Hds Hrest. unfold direct_search.
  destruct (take_digits_app ds rest (proj2 Hds) Hrest) as [-> ->].
  now rewrite (digits_nonempty ds Hds).
Qed.

Lemma search_token_N (ds e : pystr) :
  digits ds -> eol e -> re_search size_re (token_N ds ++ e) = Some [(1%nat, ds)].
Proof.
  intros Hds He. rewrite size_re_direct, direct_search_split; auto using eol_no_digit.
  unfold size_groups, repeat_groups.
  apply at_eol_eol in He as He'.
  destruct He as [->| ->]; reflexivity.
Qed.

Lemma search_token_NxN (ds e : pystr) :
  digits ds -> eol e -> re_search size_re (token_NxN ds ds ++ e) = Some [(1%nat, ds)].
Proof.
  intros Hds He. unfold token_NxN. rewrite <- !app_assoc.
  rewrite size_re_direct, direct_search_split; auto; [|reflexivity].
  unfold size_groups, repeat_groups. cbn [app]. rewrite char_eqb_refl.
  rewrite strip_prefix_app.
  apply at_eol_eol in He as He'. rewrite He'.
  destruct He as [->| ->]; reflexivity.
Qed.

Lemma search_token_NxNS (ds ss e : pystr) :
  digits ds -> digits ss -> eol e ->
  re_search size_re (token_NxNS ds ss ++ e) = Some [(2%nat, ss); (1%nat, ds)].
Proof.
  intros Hds Hss He. unfold token_NxNS. rewrite <- !app_assoc.
  rewrite size_re_direct, direct_search_split; auto; [|reflexivity].
  unfold size_groups, repeat_groups. cbn [app]. rewrite char_eqb_refl.
  rewrite strip_prefix_app. unfold scale_groups. rewrite char_eqb_refl.
  destruct (take_digits_app ss e (proj2 Hss) (eol_no_digit e He)) as [-> ->].
  rewrite (digits_nonempty ss Hss).
  apply at_eol_eol in He. now rewrite He.
Qed.

(** Two different runs around the [x]: no match. *)
Lemma search_token_mismatch (ds1 ds2 : pystr) :
  digits ds1 -> digits ds2 -> ds1 <> ds2 ->
  re_search size_re (token_NxN ds1 ds2) = None.
Proof.
  intros Hds1 Hds2 Hne. unfold token_NxN.
  rewrite size_re_direct, direct_search_split; auto; [|reflexivity].
  unfold size_groups, repeat_groups. cbn [app]. rewrite char_eqb_refl.
  assert (Heol : at_eol (c_x :: ds2) = false).
  { destruct Hds2 as [Hn _]. destruct ds2; [contradiction|reflexivity]. }
  rewrite Heol.
  destruct (strip_prefix ds1 ds2) as [rest2|] eqn:Hstrip; [|reflexivity].
  apply strip_prefix_Some in Hstrip.
  destruct rest2 as [|c rest3].
  - rewrite app_nil_r in Hstrip. congruence.
  - assert (Hc : is_digit c = true).
    { destruct Hds2 as [_ Hall]. rewrite Hstrip in Hall.
      apply Forall_app in Hall as [_ Hall]. now inversion Hall. }
    unfold scale_groups. rewrite (digit_not_at c Hc), (at_eol_digit c rest3 Hc).
    reflexivity.
Qed.

(** Every text the pattern accepts is one of the three shapes, possibly
    followed by one newline. *)
Lemma search_accepts (text : pystr) (g : groups) :
  re_search size_re text = Some g ->
  exists ds e, digits ds /\ eol e /\
    ((text = token_N ds ++ e /\ g = [(1%nat, ds)])
     \/ (text = token_NxN ds ds ++ e /\ g = [(1%nat, ds)])
     \/ (exists ss, digits ss /\ text = token_NxNS ds ss ++ e
                    /\ g = [(2%nat, ss); (1%nat, ds)])).
Proof.
  rewrite size_re_direct. unfold direct_search.
  pose proof (take_drop_digits text) as Htext.
  pose proof (take_digits_Forall text) as Hall.
  set (ds := take_digits text) in *. set (rest := drop_digits text) in *.
  destruct (is_empty ds) eqn:Hemp; [discriminate|].
  assert (Hds : digits ds).
  { split; [|exact Hall]. intros ->. discriminate. }
  unfold size_groups, repeat_groups. intros H.
  assert (Hplain : (if at_eol rest then Some [(1%nat, ds)] else None) = Some g ->
          exists ds e, digits ds /\ eol e /\
            ((text = token_N ds ++ e /\ g = [(1%nat, ds)])
             \/ (text = token_NxN ds ds ++ e /\ g = [(1%nat, ds)])
             \/ (exists ss, digits ss /\ text = token_NxNS ds ss ++ e
                            /\ g = [(2%nat, ss); (1%nat, ds)]))).
  { destruct (at_eol rest) eqn:He; [|discriminate]. intros [= <-].
    exists ds, rest. apply at_eol_eol in He. unfold token_N. auto 6. }
  destruct rest as [|c rest1] eqn:Hrest; [auto|].
  destruct (char_eqb c_x c) eqn:Hx; [|auto].
  apply char_eqb_eq in Hx. subst c.
  destruct (strip_prefix ds rest1) as [rest2|] eqn:Hstrip; [|auto].
  apply strip_prefix_Some in Hstrip. subst rest1.
  destruct (scale_groups ds rest2) as [g2|] eqn:Hscale.
  - injection H as <-. unfold scale_groups in Hscale.
    destruct rest2 as [|c rest3]; [discriminate|].
    destruct (char_eqb c_at c) eqn:Hat; [|discriminate].
    apply char_eqb_eq in Hat. subst c.
    destruct (is_empty (take_digits rest3)) eqn:Hemp3; [discriminate|].
    destruct (at_eol (drop_digits rest3)) eqn:He; [|discriminate].
    injection Hscale as <-.
    exists ds, (drop_digits rest3). split; [exact Hds|].
    split; [now apply at_eol_eol|].
    right; right. exists (take_digits rest3). split; [|split; [|reflexivity]].
    + split; [|apply take_digits_Forall]. intros Hnil. rewrite Hnil in Hemp3. discriminate.
    + rewrite <- Htext. unfold token_NxNS. rewrite <- !app_assoc. cbn [app].
      now rewrite take_drop_digits.
  - destruct (at_eol rest2) eqn:He.
    + injection H as <-. exists ds, rest2. apply at_eol_eol in He.
      split; [exact Hds|]. split; [exact He|]. right; left. split; [|reflexivity].
      rewrite <- Htext. unfold token_NxN. now rewrite <- !app_assoc.
    + auto.
Qed.

(** *** [int] on a run of digits *)

Lemma int10_from_digits (ds : pystr) (acc : Z) :
  Forall (fun c => is_digit c = true) ds -> exists n, int10_from acc ds = Some n.
Proof.
  intros Hds. revert acc. induction Hds as [|d ds Hd Hds IH]; intros acc; simpl.
  - now exists acc.
  - unfold is_digit in Hd. destruct (decimal d); [apply IH|discriminate].
Qed.

Lemma int10_digits (ds : pystr) : digits ds -> exists n, int10 ds = Some n.
Proof.
  intros [Hne Hall]. destruct ds as [|d ds]; [contradiction|].
  unfold int10. now apply int10_from_digits.
Qed.

(** ** [IconSize]: parsing and validation *)

Lemma parse_size_groups1 (text ds : pystr) (n : Z) :
  re_search size_re text = Some [(1%nat, ds)] -> int10 ds = Some n ->
  parse_size text = IconSize_validate (mkIconSize n 1).
Proof.
  intros Hs Hn. unfold parse_size, IconSize_init, IconSize_fields.
  rewrite Hs. cbn [group Nat.eqb]. now rewrite Hn.
Qed.

Lemma parse_size_groups2 (text ds ss : pystr) (n sc : Z) :
  re_search size_re text = Some [(2%nat, ss); (1%nat, ds)] ->
  int10 ds = Some n -> int10 ss = Some sc ->
  parse_size text = IconSize_validate (mkIconSize n sc).
Proof.
  intros Hs Hn Hsc. unfold parse_size, IconSize_init, IconSize_fields.
  rewrite Hs. cbn [group Nat.eqb]. now rewrite Hn, Hsc.
Qed.

Lemma parse_size_nomatch (text : pystr) :
  re_search size_re text = None ->
  parse_size text = Raise (InvalidSizeSpecifier text).
Proof.
  intros Hs. unfold parse_size, IconSize_init, IconSize_fields. now rewrite Hs.
Qed.

Lemma IconSize_validate_ok (n sc : Z) :
  n mod 2 = 0 -> 0 < n -> 0 < sc ->
  IconSize_validate (mkIconSize n sc) = Ok (mkIconSize n sc).
Proof.
  intros Heven Hn Hsc. unfold IconSize_validate. cbn [size scale].
  rewrite Heven. cbn [Z.eqb negb].
  destruct (Z.leb_spec n 0); [lia|].
  destruct (Z.leb_spec sc 0); [lia|reflexivity].
Qed.

(** C1: every valid token of the shapes "N", "NxN" and "NxN@S" parses to
    the size the digits N denote and to scale 1, or S when it is given; a
    token whose two runs of digits differ, such as "32x64", fails with the
    invalid-specifier error.  A valid token has runs of digits that [int]
    converts under every limit of the interpreter: at most
    [max_digits_unchecked] digits each. *)
Theorem parse_size_valid_tokens :
  (forall ds n, digits ds -> (List.length ds <= max_digits_unchecked)%nat ->
     int10 ds = Some n -> n mod 2 = 0 -> 0 < n ->
     parse_size (token_N ds) = Ok (mkIconSize n 1)
     /\ parse_size (token_NxN ds ds) = Ok (mkIconSize n 1))
  /\ (forall ds ss n sc, digits ds -> digits ss ->
        (List.length ds <= max_digits_unchecked)%nat ->
        (List.length ss <= max_digits_unchecked)%nat ->
        int10 ds = Some n -> int10 ss = Some sc ->
        n mod 2 = 0 -> 0 < n -> 0 < sc ->
        parse_size (token_NxNS ds ss) = Ok (mkIconSize n sc))
  /\ (forall ds1 ds2, digits ds1 -> digits ds2 -> ds1 <> ds2 ->
        parse_size (token_NxN ds1 ds2)
        = Raise (InvalidSizeSpecifier (token_NxN ds1 ds2))).
Proof.
  split; [|split].
  - intros ds n Hds _ Hn Heven Hpos. split.
    + rewrite (parse_size_groups1 (token_N ds) ds n); auto.
      * apply IconSize_validate_ok; lia.
      * rewrite <- (app_nil_r (token_N ds)). apply search_token_N; [auto|now left].
    + rewrite (parse_size_groups1 (token_NxN ds ds) ds n); auto.
      * apply IconSize_validate_ok; lia.
      * rewrite <- (app_nil_r (token_NxN ds ds)).
        apply search_token_NxN; [auto|now left].
  - intros ds ss n sc Hds Hss _ _ Hn Hsc Heven Hpos Hscpos.
    rewrite (parse_size_groups2 (token_NxNS ds ss) ds ss n sc); auto.
    + now apply IconSize_validate_ok.
    + rewrite <- (app_nil_r (token_NxNS ds ss)).
      apply search_token_NxNS; [auto|auto|now left].
  - intros ds1 ds2 H1 H2 Hne. apply parse_size_nomatch.
    now apply search_token_mismatch.
Qed.

(** The four ways the validation ends. *)
Lemma IconSize_validate_cases (s : IconSize) :
  match IconSize_validate s with
  | Ok s' => s' = s /\ size s mod 2 = 0 /\ 0 < size s /\ 0 < scale s
  | Raise (SizeNotEven n) => n = size s /\ size s mod 2 <> 0
  | Raise (SizeNotPositive n) => n = size s /\ size s <= 0
  | Raise (ScaleNotPositive n) => n = scale s /\ scale s <= 0
  | _ => False
  end.
Proof.
  unfold IconSize_validate.
  destruct (Z.eqb_spec (size s mod 2) 0); cbn [negb]; [|auto].
  destruct (Z.leb_spec (size s) 0); [auto|].
  destruct (Z.leb_spec (scale s) 0); auto.
Qed.

(** What each result of the parser says about the token: the pattern is
    the only source of the invalid-specifier error, the size of the two size
    errors, an explicit scale of the scale error. *)
Lemma parse_size_outcome (text : pystr) :
  match parse_size text with
  | Ok s =>
      (exists g, re_search size_re text = Some g)
      /\ size s mod 2 = 0 /\ 0 < size s /\ 0 < scale s
  | Raise e =>
      match failure_kind e with
      | Some InvalidFormat => re_search size_re text = None
      | Some InvalidSize =>
          exists g ds n, re_search size_re text = Some g /\ group g 1 = Some ds
                         /\ int10 ds = Some n /\ (n mod 2 <> 0 \/ n <= 0)
      | Some InvalidScale =>
          exists g ss sc, re_search size_re text = Some g /\ group g 2 = Some ss
                          /\ int10 ss = Some sc /\ sc <= 0
      | None => False
      end
  | Exit _ => False
  end.
Proof.
  destruct (re_search size_re text) as [g|] eqn:Hs.
  2:{ rewrite (parse_size_nomatch text Hs). reflexivity. }
  destruct (search_accepts text g Hs) as (ds & e & Hds & He & Hshape).
  destruct (int10_digits ds Hds) as [n Hn].
  assert (Hplain : g = [(1%nat, ds)] ->
            match parse_size text with
            | Ok s => (exists g0, Some g = Some g0)
                      /\ size s mod 2 = 0 /\ 0 < size s /\ 0 < scale s
            | Raise e0 =>
                match failure_kind e0 with
                | Some InvalidFormat => Some g = None
                | Some InvalidSize =>
                    exists g0 ds0 n0, Some g = Some g0 /\ group g0 1 = Some ds0
                                      /\ int10 ds0 = Some n0
                                      /\ (n0 mod 2 <> 0 \/ n0 <= 0)
                | Some InvalidScale =>
                    exists g0 ss sc, Some g = Some g0 /\ group g0 2 = Some ss
                                     /\ int10 ss = Some sc /\ sc <= 0
                | None => False
                end
            | Exit _ => False
            end).
  { intros ->. rewrite (parse_size_groups1 text ds n Hs Hn).
    pose proof (IconSize_validate_cases (mkIconSize n 1)) as Hv.
    destruct (IconSize_validate (mkIconSize n 1)) as [s'|[]|]; try contradiction;
      cbn [size scale failure_kind] in *.
    - destruct Hv as (-> & Hv). cbn [size scale]. eauto.
    - destruct Hv as (-> & Hv). exists [(1%nat, ds)], ds, n. auto.
    - destruct Hv as (-> & Hv). exists [(1%nat, ds)], ds, n. auto.
    - lia. }
  destruct Hshape as [[_ Hg]|[[_ Hg]|(ss & Hss & _ & ->)]];
    [exact (Hplain Hg)|exact (Hplain Hg)|].
  destruct (int10_digits ss Hss) as [sc Hsc].
  rewrite (parse_size_groups2 text ds ss n sc Hs Hn Hsc).
  pose proof (IconSize_validate_cases (mkIconSize n sc)) as Hv.
  destruct (IconSize_validate (mkIconSize n sc)) as [s'|[]|]; try contradiction;
    cbn [size scale failure_kind] in *.
  - destruct Hv as (-> & Hv). cbn [size scale]. eauto.
  - destruct Hv as (-> & Hv). exists [(2%nat, ss); (1%nat, ds)], ds, n. auto.
  - destruct Hv as (-> & Hv). exists [(2%nat, ss); (1%nat, ds)], ds, n. auto.
  - destruct Hv as (-> & Hv). exists [(2%nat, ss); (1%nat, ds)], ss, sc. auto.
Qed.

(** The three kinds carry different messages. *)
Lemma failure_messages_differ (e1 e2 : Error) (k1 k2 : FailureKind) :
  failure_kind e1 = Some k1 -> failure_kind e2 = Some k2 -> k1 <> k2 ->
  Error_message e1 <> Error_message e2.
Proof.
  destruct e1; cbn [failure_kind]; try discriminate;
  destruct e2; cbn [failure_kind]; try discriminate;
  intros [= <-] [= <-] Hne; try contradiction; discriminate.
Qed.

(** A shape ends with a digit. *)
Lemma size_token_last (text : pystr) :
  size_token text -> is_digit (last text c_nl) = true.
Proof.
  assert (Hlast : forall ds pre, digits ds -> is_digit (last (pre ++ ds) c_nl) = true).
  { intros ds pre [Hne Hall].
    destruct (exists_last Hne) as (ds' & c & ->).
    rewrite app_assoc, last_last.
    apply Forall_app in Hall as [_ Hall]. now inversion Hall. }
  intros (ds & Hds & [->|[->|(ss & Hss & ->)]]).
  - apply (Hlast ds [] Hds).
  - unfold token_NxN. rewrite app_assoc. now apply Hlast.
  - unfold token_NxNS. rewrite !app_assoc. now apply Hlast.
Qed.

(** One newline after a token changes nothing: the parser gives the same
    result with and without it. *)
Lemma parse_size_newline (text : pystr) :
  size_token text -> parse_size (text ++ nl) = parse_size text.
Proof.
  assert (Hnil : eol []) by now left.
  assert (Hnl : eol nl) by now right.
  intros (ds & Hds & Hshape).
  destruct (int10_digits ds Hds) as [n Hn].
  destruct Hshape as [->|[->|(ss & Hss & ->)]].
  - rewrite (parse_size_groups1 _ ds n (search_token_N ds nl Hds Hnl) Hn).
    pose proof (search_token_N ds [] Hds Hnil) as H0. rewrite app_nil_r in H0.
    now rewrite (parse_size_groups1 _ ds n H0 Hn).
  - rewrite (parse_size_groups1 _ ds n (search_token_NxN ds nl Hds Hnl) Hn).
    pose proof (search_token_NxN ds [] Hds Hnil) as H0. rewrite app_nil_r in H0.
    now rewrite (parse_size_groups1 _ ds n H0 Hn).
  - destruct (int10_digits ss Hss) as [sc Hsc].
    rewrite (parse_size_groups2 _ ds ss n sc (search_token_NxNS ds ss nl Hds Hss Hnl)
               Hn Hsc).
    pose proof (search_token_NxNS ds ss [] Hds Hss Hnil) as H0.
    rewrite app_nil_r in H0.
    now rewrite (parse_size_groups2 _ ds ss n sc H0 Hn Hsc).
Qed.

(** C2: the token "32" followed by a newline is none of the three shapes,
    yet the parser accepts it, as size 32 and scale 1. *)
Theorem parse_size_trailing_newline :
  ~ size_token (lit "32" ++ nl)
  /\ parse_size (lit "32" ++ nl) = Ok (mkIconSize 32 1).
Proof.
  split.
  - intros H. apply size_token_last in H. discriminate H.
  - reflexivity.
Qed.

(** ** Sorting the sizes *)

Lemma IconSize_lt_spec (a b : IconSize) :
  IconSize_lt a b = true <-> size a < size b \/ (size a = size b /\ scale a < scale b).
Proof.
  unfold IconSize_lt. destruct (Z.eqb_spec (size a) (size b)) as [Heq|Hne].
  - rewrite Z.ltb_lt. lia.
  - rewrite Z.ltb_lt. lia.
Qed.

Lemma IconSize_lt_false (a b : IconSize) : IconSize_lt a b = false <-> IconSize_le b a.
Proof.
  unfold IconSize_le. rewrite <- not_true_iff_false, IconSize_lt_spec. lia.
Qed.

Lemma IconSize_lt_le (a b : IconSize) : IconSize_lt a b = true -> IconSize_le a b.
Proof. rewrite IconSize_lt_spec. unfold IconSize_le. lia. Qed.

Lemma IconSize_le_trans (a b c : IconSize) :
  IconSize_le a b -> IconSize_le b c -> IconSize_le a c.
Proof. unfold IconSize_le. lia. Qed.

Lemma IconSize_le_antisym (a b : IconSize) :
  IconSize_le a b -> IconSize_le b a -> a = b.
Proof.
  unfold IconSize_le. destruct a as [sa ca], b as [sb cb]. cbn [size scale].
  intros H1 H2. f_equal; lia.
Qed.

Lemma sort_insert_perm (x : IconSize) (l : list IconSize) :
  Permutation (x :: l) (sort_insert x l).
Proof.
  induction l as [|y l IH]; simpl; [reflexivity|].
  destruct (IconSize_lt x y); [reflexivity|].
  rewrite perm_swap. now constructor.
Qed.

Lemma sort_insert_sorted (x : IconSize) (l : list IconSize) :
  Sorted IconSize_le l -> Sorted IconSize_le (sort_insert x l).
Proof.
  induction l as [|y l IH]; intros Hs; simpl.
  - repeat constructor.
  - destruct (IconSize_lt x y) eqn:Hxy.
    + constructor; [assumption|]. constructor. now apply IconSize_lt_le.
    + apply IconSize_lt_false in Hxy. inversion Hs as [|? ? Hl Hhd]; subst.
      constructor; [now apply IH|].
      destruct l as [|z l]; simpl.
      * now constructor.
      * destruct (IconSize_lt x z); constructor; [assumption|].
        now inversion Hhd.
Qed.

Lemma fold_insert_sorted (l acc : list IconSize) :
  Sorted IconSize_le acc ->
  Sorted IconSize_le (fold_left (fun acc x => sort_insert x acc) l acc).
Proof.
  revert acc. induction l as [|x l IH]; intros acc Hacc; simpl; [assumption|].
  apply IH. now apply sort_insert_sorted.
Qed.

Lemma fold_insert_perm (l acc : list IconSize) :
  Permutation (acc ++ l) (fold_left (fun acc x => sort_insert x acc) l acc).
Proof.
  revert acc. induction l as [|x l IH]; intros acc; simpl.
  - now rewrite app_nil_r.
  - rewrite <- IH. rewrite <- sort_insert_perm. apply Permutation_sym, Permutation_middle.
Qed.

Lemma list_sort_sorted (l : list IconSize) : StronglySorted IconSize_le (list_sort l).
Proof.
  apply Sorted_StronglySorted.
  - intros a b c. apply IconSize_le_trans.
  - apply fold_insert_sorted. constructor.
Qed.

Lemma list_sort_perm (l : list IconSize) : Permutation l (list_sort l).
Proof. apply (fold_insert_perm l []). Qed.

(** A list has one sorted arrangement only, so the result does not depend
    on the sorting algorithm. *)
Lemma sorted_perm_unique (l1 l2 : list IconSize) :
  StronglySorted IconSize_le l1 -> StronglySorted IconSize_le l2 ->
  Permutation l1 l2 -> l1 = l2.
Proof.
  revert l2. induction l1 as [|a l1 IH]; intros l2 H1 H2 Hp.
  - apply Permutation_nil in Hp. now subst.
  - destruct l2 as [|b l2]; [apply Permutation_sym, Permutation_nil in Hp; discriminate|].
    inversion H1 as [|? ? Hs1 Ha]; subst. inversion H2 as [|? ? Hs2 Hb]; subst.
    assert (Hab : a = b).
    { assert (Hin1 : In a (b :: l2)) by (eapply Permutation_in; [exact Hp|now left]).
      assert (Hin2 : In b (a :: l1))
        by (eapply Permutation_in; [apply Permutation_sym; exact Hp|now left]).
      destruct Hin1 as [->|Hin1]; [reflexivity|].
      destruct Hin2 as [->|Hin2]; [reflexivity|].
      rewrite Forall_forall in Ha, Hb.
      apply IconSize_le_antisym; auto. }
    subst b. f_equal. apply IH; auto. now apply Permutation_cons_inv in Hp.
Qed.

(** The sizes of the settings are the requested sizes, sorted. *)
Lemma convert_args_sizes (c : CommandLine) (w w' : World) (st : Settings) :
  convert_args_to_settings c w = (Ok st, w') ->
  exists raw l, args_size c = Ok raw /\ target_sizes raw = Ok l
                /\ icon_sizes st = list_sort l.
Proof.
  unfold convert_args_to_settings. intros H. run_in H.
  branch H.
  all: injection H as <- <-; cbn [icon_sizes]; eauto.
Qed.

(** *** Inversion of the monad *)

Lemma bind_Ok_inv {A B : Type} (c : M A) (k : A -> M B) (w w' : World) (b : B) :
  bind c k w = (Ok b, w') ->
  exists a w1, c w = (Ok a, w1) /\ k a w1 = (Ok b, w').
Proof.
  unfold bind. destruct (c w) as [[a|e|n] w1]; try discriminate. eauto.
Qed.

Lemma fail_not_Ok {A : Type} (e : Error) (w w' : World) (a : A) :
  fail e w <> (Ok a, w').
Proof. unfold fail, bind, print, emit, exit. discriminate. Qed.

Lemma try_except_fail_Ok {A : Type} (c : M A) (w w' : World) (a : A) :
  try_except c fail w = (Ok a, w') -> c w = (Ok a, w').
Proof.
  unfold try_except. destruct (c w) as [[a0|e|n] w1]; auto.
  intros H. now apply fail_not_Ok in H.
Qed.

Lemma load_icon_settings (c : CommandLine) (w w' : World) (st : Settings)
      (im : IconImage) :
  load_icon c w = (Ok (st, im), w') ->
  exists w1, convert_args_to_settings c w = (Ok st, w1).
Proof.
  unfold load_icon. intros H. apply try_except_fail_Ok in H.
  apply bind_Ok_inv in H as (st0 & w1 & Hc & H).
  apply bind_Ok_inv in H as (im0 & w2 & _ & H).
  apply bind_Ok_inv in H as (? & w3 & _ & H).
  apply bind_Ok_inv in H as ([[ow oh] im1] & w4 & _ & H).
  destruct (is_svg im1) as [svg im2].
  apply bind_Ok_inv in H as (? & w5 & _ & H).
  destruct (is_svg im2) as [svg' im3].
  destruct (negb svg' && negb (ow =? oh)); [discriminate|].
  injection H as <- _ _. eauto.
Qed.

(** C5: sorting a list of sizes gives an arrangement of the same sizes in
    ascending order of size and, for equal sizes, of scale; the list
    [64x1, 32x2, 32x1] becomes [32x1, 32x2, 64x1]; and the sizes that the
    settings hand to the install loop are sorted this way. *)
Theorem sizes_sorted_by_size_then_scale :
  (forall l, StronglySorted IconSize_le (list_sort l) /\ Permutation l (list_sort l))
  /\ list_sort [mkIconSize 64 1; mkIconSize 32 2; mkIconSize 32 1]
      = [mkIconSize 32 1; mkIconSize 32 2; mkIconSize 64 1]
  /\ (forall c w st im w',
        load_icon c w = (Ok (st, im), w') ->
        StronglySorted IconSize_le (icon_sizes st)
        /\ exists raw l, args_size c = Ok raw /\ target_sizes raw = Ok l
                         /\ Permutation l (icon_sizes st)).
Proof.
  split; [|split].
  - intros l. split; [apply list_sort_sorted|apply list_sort_perm].
  - reflexivity.
  - intros c w st im w' H.
    apply load_icon_settings in H as [w1 H].
    apply convert_args_sizes in H as (raw & l & Hraw & Hl & ->).
    split; [apply list_sort_sorted|].
    exists raw, l. auto using list_sort_perm.
Qed.

(** ** [IconImage] *)

(** C8: constructing an [IconImage] with none of the three inputs, or with
    more than one, raises the exactly-one-input error before anything else
    happens, and that error has no other cause. *)
Theorem IconImage_exactly_one_input (id0 : pystr) (p : option Path)
        (b : option BytesIO) (i : option nat) (w : World) :
  (inputs_given p b i <> 1%nat ->
   IconImage_init id0 p b i w = (Raise ExactlyOneInput, w))
  /\ (inputs_given p b i = 1%nat ->
      fst (IconImage_init id0 p b i w) <> Raise ExactlyOneInput).
Proof.
  unfold IconImage_init, __post_init__, inputs_given. cbn [path raw_bytes img].
  split.
  - intros H. destruct p, b, i; cbn [is_not_None Nat.add Nat.eqb negb] in *;
      try reflexivity; contradiction.
  - intros H. destruct p, b, i; cbn [is_not_None Nat.add] in H; try discriminate H;
      cbn [is_not_None Nat.add Nat.eqb negb];
      match goal with
      | |- fst ?r <> _ => destruct r as [[im|e|code] w'] eqn:Hr; cbn [fst];
                          try discriminate
      end;
      intros [= ->]; run_in Hr;
      unfold _load_bytes_from_path, _load_image_from_bytes in Hr; run_in Hr;
      cbn [path raw_bytes img set_raw_bytes] in Hr;
      branch_all; congruence.
Qed.

(** The constructor on a path, step by step: the file is read, the suffix
    decides, and only a raster file is decoded. *)
Lemma IconImage_init_path (id0 : pystr) (p : Path) (w : World) :
  IconImage_init id0 (Some p) None None w
  = match read_bytes E p with
    | inl text => (Raise (LibraryError text), w)
    | inr data =>
        let sfx := get_file_suffix p in
        if str_eqb sfx (lit ".svg")
        then if Z.of_nat (List.length data) <=? 0 then (Raise EmptyRawBytes, w)
             else (Ok (mkIconImage id0 (Some p) (Some (mkBytesIO data 0)) None
                         (Some sfx) (Some true)), w)
        else match pil_open E data with
             | inl text => (Raise (LibraryError text), w)
             | inr d =>
                 let w' := mkWorld (trace w) (images w ++ [d]) in
                 if Z.of_nat (List.length data) <=? 0 then (Raise EmptyRawBytes, w')
                 else (Ok (mkIconImage id0 (Some p)
                             (Some (mkBytesIO data (pil_tell E data)))
                             (Some (List.length (images w))) (Some sfx) (Some false)),
                       w')
             end
    end.
Proof.
  exec. destruct (read_bytes E p) as [text|data]; [reflexivity|].
  destruct (str_eqb (get_file_suffix p) (lit ".svg")).
  - destruct (Z.of_nat (List.length data) <=? 0); reflexivity.
  - destruct (pil_open E data) as [text|d]; [reflexivity|].
    destruct (Z.of_nat (List.length data) <=? 0); reflexivity.
Qed.

(** The constructor on a buffer: the first 4096 bytes decide. *)
Lemma IconImage_init_bytes (id0 : pystr) (b : BytesIO) (w : World) :
  IconImage_init id0 None (Some b) None w
  = let early_bytes := firstn 4096 (content b) in
    if contains svg_marker early_bytes
    then if Z.of_nat (List.length (content b)) <=? 0 then (Raise EmptyRawBytes, w)
         else (Ok (mkIconImage id0 None
                     (Some (mkBytesIO (content b) (List.length early_bytes)))
                     None None (Some true)), w)
    else match pil_open E (content b) with
         | inl text => (Raise (LibraryError text), w)
         | inr d =>
             let w' := mkWorld (trace w) (images w ++ [d]) in
             if Z.of_nat (List.length (content b)) <=? 0 then (Raise EmptyRawBytes, w')
             else (Ok (mkIconImage id0 None
                         (Some (mkBytesIO (content b) (pil_tell E (content b))))
                         (Some (List.length (images w))) None (Some false)),
                   w')
         end.
Proof.
  destruct b as [data pos]. exec. cbn [skipn].
  destruct (contains svg_marker (firstn 4096 data)).
  - destruct (Z.of_nat (List.length data) <=? 0); reflexivity.
  - destruct (pil_open E data) as [text|d]; [reflexivity|].
    destruct (Z.of_nat (List.length data) <=? 0); reflexivity.
Qed.

(** The constructor on a decoded image: nothing is read or decided. *)
Lemma IconImage_init_img (id0 : pystr) (r : nat) (w : World) :
  IconImage_init id0 None None (Some r) w
  = (Ok (mkIconImage id0 None None (Some r) None None), w).
Proof. reflexivity. Qed.

(** C10: for an image built from a file path the vector decision is the
    test of the lower-cased suffix against ".svg" and nothing else: with
    such a suffix (".SVG" included) the file is taken as vector whatever it
    contains and is never decoded; the search of the first 4096 bytes for
    the case-sensitive marker decides only for an image built from bytes
    without a path. *)
Theorem vector_decision :
  (forall id0 p w im w',
     IconImage_init id0 (Some p) None None w = (Ok im, w') ->
     is_svg im = (str_eqb (lower (Path_suffix p)) (lit ".svg"), im))
  /\ (forall id0 p w data,
        read_bytes E p = inr data -> data <> [] ->
        str_eqb (lower (Path_suffix p)) (lit ".svg") = true ->
        IconImage_init id0 (Some p) None None w
        = (Ok (mkIconImage id0 (Some p) (Some (mkBytesIO data 0)) None
                 (Some (lower (Path_suffix p))) (Some true)), w))
  /\ lower (Path_suffix (Path_of_str (lit "icon.SVG"))) = lit ".svg"
  /\ (forall id0 b w im w',
        IconImage_init id0 None (Some b) None w = (Ok im, w') ->
        is_svg im = (contains svg_marker (firstn 4096 (content b)), im))
  /\ contains svg_marker (lit "<?xml version='1.0'?><SVG>") = false
  /\ (forall id0 r w im w',
        IconImage_init id0 None None (Some r) w = (Ok im, w') ->
        fst (is_svg im) = false /\ raw_bytes im = None).
Proof.
  repeat split.
  - intros id0 p w im w' H. rewrite IconImage_init_path in H.
    fold (get_file_suffix p). cbv zeta in H.
    destruct (read_bytes E p) as [text|data]; [discriminate|].
    destruct (str_eqb (get_file_suffix p) (lit ".svg")) eqn:Hsvg.
    + destruct (Z.of_nat (List.length data) <=? 0); [discriminate|].
      injection H as <- _. reflexivity.
    + destruct (pil_open E data) as [text|d]; [discriminate|]. cbv zeta in H.
      destruct (Z.of_nat (List.length data) <=? 0); [discriminate|].
      injection H as <- _. reflexivity.
  - intros id0 p w data Hread Hne Hsvg. rewrite IconImage_init_path, Hread.
    cbv zeta. unfold get_file_suffix. rewrite Hsvg.
    destruct (Z.leb_spec (Z.of_nat (List.length data)) 0) as [Hlen|Hlen];
      [|reflexivity].
    destruct data; [contradiction|]. cbn [List.length] in Hlen. lia.
  - intros id0 b w im w' H. rewrite IconImage_init_bytes in H. cbv zeta in H.
    destruct (contains svg_marker (firstn 4096 (content b))) eqn:Hsvg.
    + destruct (Z.of_nat (List.length (content b)) <=? 0); [discriminate|].
      injection H as <- _. reflexivity.
    + destruct (pil_open E (content b)) as [text|d]; [discriminate|]. cbv zeta in H.
      destruct (Z.of_nat (List.length (content b)) <=? 0); [discriminate|].
      injection H as <- _. reflexivity.
  - rewrite IconImage_init_img in H. injection H as <- _. reflexivity.
  - rewrite IconImage_init_img in H. injection H as <- _. reflexivity.
Qed.

(** *** The memo of [is_svg] *)

Lemma is_svg_cached (self : IconImage) (x : bool) :
  _is_svg self = Some x -> is_svg self = (x, self).
Proof. intros H. unfold is_svg. now rewrite H. Qed.

Lemma is_svg_fills (self : IconImage) :
  _is_svg (snd (is_svg self)) = Some (fst (is_svg self)).
Proof.
  destruct self as [i [p|] [[data pos]|] im [sfx|] [x|]]; reflexivity.
Qed.

Lemma is_svg_idem (self : IconImage) :
  is_svg (snd (is_svg self)) = is_svg self.
Proof.
  rewrite (is_svg_cached _ _ (is_svg_fills self)). now destruct (is_svg self).
Qed.

Lemma is_svg_same_source (self : IconImage) : same_source self (snd (is_svg self)).
Proof.
  unfold same_source.
  destruct self as [i [p|] [[data pos]|] im [sfx|] [x|]]; repeat split; reflexivity.
Qed.

(** The constructor leaves the memo filled when it was given a path or
    bytes, so every image the script acquires has it. *)
Lemma constructed_flag_known (id0 : pystr) (p : option Path) (b : option BytesIO)
      (w w' : World) (im : IconImage) :
  IconImage_init id0 p b None w = (Ok im, w') -> _is_svg im <> None.
Proof.
  intros H. destruct p as [p|], b as [b|].
  - change (IconImage_init id0 (Some p) (Some b) None w)
      with (@Raise IconImage ExactlyOneInput, w) in H.
    discriminate H.
  - rewrite IconImage_init_path in H. cbv zeta in H.
    destruct (read_bytes E p) as [text|data]; [discriminate|].
    destruct (str_eqb (get_file_suffix p) (lit ".svg")).
    + destruct (Z.of_nat (List.length data) <=? 0); [discriminate|].
      injection H as <- _. discriminate.
    + destruct (pil_open E data) as [text|d]; [discriminate|].
      destruct (Z.of_nat (List.length data) <=? 0); [discriminate|].
      injection H as <- _. discriminate.
  - rewrite IconImage_init_bytes in H. cbv zeta in H.
    destruct (contains svg_marker (firstn 4096 (content b))).
    + destruct (Z.of_nat (List.length (content b)) <=? 0); [discriminate|].
      injection H as <- _. discriminate.
    + destruct (pil_open E (content b)) as [text|d]; [discriminate|].
      destruct (Z.of_nat (List.length (content b)) <=? 0); [discriminate|].
      injection H as <- _. discriminate.
  - change (IconImage_init id0 None None None w)
      with (@Raise IconImage ExactlyOneInput, w) in H.
    discriminate H.
Qed.

(** C4: on a raster source the resize operation returns a new image
    object: with the pixels of the source when the source already has the
    target dimensions, otherwise the Lanczos resampling of the source to
    them.  In both cases the call leaves every existing image object and
    the inputs of the source as they were, and the source object is
    unchanged altogether once its vector flag is known, as it is after
    construction from a path or from bytes. *)
Theorem resize_raster_source (self : IconImage) (icon_size : IconSize) (w : World)
        (r : nat) :
  img self = Some r -> fst (is_svg self) = false ->
  let d := deref w r in
  let result :=
    if (im_width d =? size icon_size) && (im_height d =? size icon_size) then d
    else pil_resize E d (size icon_size) (size icon_size) LANCZOS in
  let w' := mkWorld (trace w) (images w ++ [result]) in
  let self' := snd (is_svg self) in
  resize_image_as_copy self icon_size LANCZOS w
  = (Ok (List.length (images w), self'), w')
  /\ deref w' (List.length (images w)) = result
  /\ (forall r0, (r0 < List.length (images w))%nat ->
        r0 <> List.length (images w) /\ deref w' r0 = deref w r0)
  /\ same_source self self'
  /\ (_is_svg self <> None -> self' = self).
Proof.
  intros Himg Hraster d result w' self'.
  assert (Himg' : img self' = Some r).
  { destruct (is_svg_same_source self) as (_ & _ & Hi & _).
    unfold self'. now rewrite <- Hi. }
  split; [|split; [|split; [|split]]].
  - unfold resize_image_as_copy, get_image_size.
    pose proof (is_svg_idem self) as Hidem.
    destruct (is_svg self) as [svg self1] eqn:Hsvg.
    cbn [fst snd] in *. subst svg. subst self'. rewrite Hidem.
    unfold bind, load, ret, alloc. rewrite Himg'. cbv beta iota.
    rewrite Himg'. fold d. subst result w'.
    destruct ((im_width d =? size icon_size) && (im_height d =? size icon_size));
      reflexivity.
  - unfold deref, w'. cbn [images]. now rewrite nth_middle.
  - intros r0 Hr0. split; [lia|].
    unfold deref, w'. cbn [images]. now rewrite app_nth1.
  - apply is_svg_same_source.
  - intros Hknown. destruct (_is_svg self) as [x|] eqn:Hx; [|contradiction].
    unfold self'. now rewrite (is_svg_cached self x Hx).
Qed.

(** ** The downloader *)

(** The read loop returns the chunks it took, appended to the buffer, and
    only prints. *)
Lemma download_loop_spec (rs : list bytes) (ts : option Z) (tsh : pystr)
      (data : bytes) (n : Z) (m : nat) (w : World) :
  exists lines,
    download_loop rs ts tsh data n m w
    = (Ok (data ++ List.concat (chunks_read rs)),
       mkWorld (trace w ++ map Print lines) (images w)).
Proof.
  revert data n m w. induction rs as [|chunk rs IH]; intros data n m w.
  - exists []. cbn [download_loop chunks_read List.concat map ret].
    rewrite !app_nil_r. now destruct w.
  - cbn [download_loop chunks_read].
    destruct chunk as [|b chunk].
    + exists []. cbn [is_empty List.concat map ret]. rewrite !app_nil_r. now destruct w.
    + cbn [is_empty List.concat].
      rewrite (app_assoc data (b :: chunk) (List.concat (chunks_read rs))).
      destruct (negb is_terminal_output).
      * apply IH.
      * destruct is_vt100_supported; unfold bind, print_noend, emit;
          match goal with
          | |- context [download_loop rs ts tsh ?d ?n' ?m' ?w'] =>
              destruct (IH d n' m' w') as [lines ->]
          end;
          cbn [trace images];
          rewrite <- (app_assoc (trace w) _ (map Print lines));
          eexists (_ :: lines); reflexivity.
Qed.

Lemma declared_size_readable (response : Response) (w : World) :
  header_readable response ->
  exists ts, declared_size response w = (Ok ts, w).
Proof.
  unfold header_readable, declared_size. intros H.
  destruct (content_length_header response) as [text|]; [|now exists None].
  specialize (H text eq_refl). destruct (py_int E text) as [n|]; [|contradiction].
  destruct (n >? 0); eexists; reflexivity.
Qed.

(** C9: both downloaders treat a status other than 200 as fatal: the one
    of [iconix.py] raises, which ends the script with status 1, the one of
    [patch.py] returns nothing, which ends that script with status 1; on
    status 200 both return a buffer at position 0 that holds the
    concatenation of the chunks read. *)
Theorem download_contract (url : pystr) (response : Response) (w : World) :
  urlopen E url = inr response ->
  (getcode response <> 200 ->
   download_with_progress url w
   = (Raise (HttpStatus (getcode response)), after w (HttpGet url))
   /\ (exists w', patch_download_with_progress url w = (Ok None, w'))
   /\ (url = discord_tar_url ->
       (exists w', patch_main w = (Exit 1, w'))
       /\ forall c st w0, convert_args_to_settings c w0 = (Ok st, w) ->
                          icon_path st = None ->
                          exists w', main c w0 = (Exit 1, w')))
  /\ (getcode response = 200 -> header_readable response ->
      let body := List.concat (chunks_read (reads response)) in
      (exists w', download_with_progress url w = (Ok (mkBytesIO body 0), w'))
      /\ (exists w', patch_download_with_progress url w
                     = (Ok (Some (mkBytesIO body 0)), w'))).
Proof.
  intros Hopen. split.
  - intros Hcode. apply Z.eqb_neq in Hcode.
    assert (Hd : download_with_progress url w
                 = (Raise (HttpStatus (getcode response)), after w (HttpGet url))).
    { unfold download_with_progress, bind, emit, lib_call, ret, raise.
      rewrite Hopen, Hcode. reflexivity. }
    assert (Hp : exists w', patch_download_with_progress url w = (Ok None, w')).
    { unfold patch_download_with_progress, bind, emit, lib_call, ret, print.
      rewrite Hopen, Hcode. cbn [negb]. eexists. reflexivity. }
    split; [exact Hd|]. split; [exact Hp|].
    intros ->. split.
    + unfold patch_main, bind, print, emit.
      unfold patch_download_with_progress, bind, emit, lib_call, ret, print.
      rewrite Hopen, Hcode. cbn [negb]. eexists. reflexivity.
    + intros c st w0 Hc Hicon. unfold main, load_icon, try_except, bind.
      rewrite Hc.
      unfold acquire_icon. rewrite Hicon.
      unfold get_latest_discord_icon, bind, print, emit.
      unfold download_with_progress, bind, emit, lib_call, ret, raise.
      cbn [trace images]. rewrite Hopen, Hcode. cbn [negb].
      unfold fail, bind, print, emit, exit. eexists. reflexivity.
  - intros Hcode Hhdr body. apply Z.eqb_eq in Hcode.
    split.
    + unfold download_with_progress, bind, emit, lib_call, ret.
      rewrite Hopen, Hcode. cbn [negb].
      match goal with
      | |- context [declared_size response ?w1] =>
          destruct (declared_size_readable response w1 Hhdr) as [ts ->]
      end.
      match goal with
      | |- context [download_loop ?rs ?a ?b ?d ?n ?m ?w1] =>
          destruct (download_loop_spec rs a b d n m w1) as [lines ->]
      end.
      cbn [app seek0 content]. destruct is_terminal_output; unfold print, emit;
        eexists; reflexivity.
    + unfold patch_download_with_progress, bind, emit, lib_call, ret.
      rewrite Hopen, Hcode. cbn [negb].
      match goal with
      | |- context [declared_size response ?w1] =>
          destruct (declared_size_readable response w1 Hhdr) as [ts ->]
      end.
      match goal with
      | |- context [download_loop ?rs ?a ?b ?d ?n ?m ?w1] =>
          destruct (download_loop_spec rs a b d n m w1) as [lines ->]
      end.
      cbn [app seek0 content]. unfold print, emit. eexists. reflexivity.
Qed.

(** ** The square check *)

Lemma is_svg_img (self : IconImage) : img (snd (is_svg self)) = img self.
Proof. destruct (is_svg_same_source self) as (_ & _ & H & _). now rewrite H. Qed.

Lemma is_svg_id (self : IconImage) : id (snd (is_svg self)) = id self.
Proof. destruct (is_svg_same_source self) as (H & _). now rewrite H. Qed.

(** The first block of the script once the image is there. *)
Lemma load_icon_raster (c : CommandLine) (w0 w1 w2 : World) (st : Settings)
      (im : IconImage) (r : nat) :
  convert_args_to_settings c w0 = (Ok st, w1) ->
  acquire_icon st w1 = (Ok im, w2) ->
  fst (is_svg im) = false -> img im = Some r ->
  let d := deref w2 r in
  let human_size := dimensions_text (im_width d) (im_height d) in
  let w3 := mkWorld (trace w2 ++ loaded_lines im human_size) (images w2) in
  load_icon c w0
  = if im_width d =? im_height d then (Ok (st, snd (is_svg im)), w3)
    else (Exit 1, after w3 (Print (lit "Error: " ++ Error_message (NotSquare human_size)
                                  ++ nl))).
Proof.
  intros Hc Hacq Hraster Himg d human_size w3.
  unfold load_icon, try_except, bind. rewrite Hc, Hacq.
  unfold print, emit, get_image_size, bind, load, ret.
  pose proof (is_svg_idem im) as Hidem. pose proof (is_svg_img im) as Himg1.
  destruct (is_svg im) as [svg im1] eqn:Hsvg. cbn [fst snd] in *. subst svg.
  rewrite Himg1, Himg. cbn [trace images]. rewrite !Hidem.
  subst w3 human_size d. unfold dimensions_text, loaded_lines, after, deref.
  cbn [negb andb trace images].
  rewrite <- (is_svg_id im), Hsvg. cbn [snd].
  destruct (im_width (nth r (images w2) blank_image)
            =? im_height (nth r (images w2) blank_image));
    cbn [negb]; unfold fail, raise, bind, print, emit, exit, ret;
    cbn [trace images]; rewrite <- !app_assoc; reflexivity.
Qed.

Lemma load_icon_vector (c : CommandLine) (w0 w1 w2 : World) (st : Settings)
      (im : IconImage) :
  convert_args_to_settings c w0 = (Ok st, w1) ->
  acquire_icon st w1 = (Ok im, w2) ->
  fst (is_svg im) = true ->
  load_icon c w0
  = (Ok (st, snd (is_svg im)),
     mkWorld (trace w2 ++ loaded_lines im (lit "Scalable Vector Graphics")) (images w2)).
Proof.
  intros Hc Hacq Hvector.
  unfold load_icon, try_except, bind. rewrite Hc, Hacq.
  unfold print, emit, get_image_size, bind, load, ret.
  pose proof (is_svg_idem im) as Hidem.
  destruct (is_svg im) as [svg im1] eqn:Hsvg. cbn [fst snd] in *. subst svg.
  cbn [trace images]. rewrite !Hidem. unfold loaded_lines.
  cbn [negb andb trace images].
  rewrite <- (is_svg_id im), Hsvg. cbn [snd].
  rewrite <- !app_assoc. reflexivity.
Qed.

(** C7: a raster source whose width differs from its height ends the
    script with status 1 right after the two lines that describe the
    loaded image and the error line: no image object has been created by a
    resize and nothing has been written.  A vector source passes the check
    whatever its dimensions.  [patch.py] rejects a non-square icon before it
    creates a directory or writes a file. *)
Theorem non_square_raster_rejected :
  (forall c w0 w1 w2 st im r,
     convert_args_to_settings c w0 = (Ok st, w1) ->
     acquire_icon st w1 = (Ok im, w2) ->
     fst (is_svg im) = false -> img im = Some r ->
     im_width (deref w2 r) <> im_height (deref w2 r) ->
     let human_size :=
       dimensions_text (im_width (deref w2 r)) (im_height (deref w2 r)) in
     main c w0
     = (Exit 1,
        mkWorld (trace w2 ++ loaded_lines im human_size
                 ++ [Print (lit "Error: Icon dimensions are not square ("
                            ++ human_size ++ lit ")." ++ nl)])
                (images w2)))
  /\ (forall c w0 w1 w2 st im,
        convert_args_to_settings c w0 = (Ok st, w1) ->
        acquire_icon st w1 = (Ok im, w2) ->
        fst (is_svg im) = true ->
        main c w0
        = install st (snd (is_svg im))
            (mkWorld (trace w2 ++ loaded_lines im (lit "Scalable Vector Graphics"))
               (images w2)))
  /\ (forall w w1 w2 tar_data png d,
        patch_download_with_progress discord_tar_url
          (after w (Print (fetching_message ++ nl))) = (Ok (Some tar_data), w1) ->
        patch_extract_discord_icon tar_data discord_png_path (after w1 (Print nl))
        = (Ok (Some png), w2) ->
        pil_open E (skipn (position png) (content png)) = inr d ->
        im_width d <> im_height d ->
        patch_main w = (Exit 1, after w2 (patch_geometry_error (im_width d) (im_height d)))).
Proof.
  split; [|split].
  - intros c w0 w1 w2 st im r Hc Hacq Hraster Himg Hne human_size.
    unfold main, bind.
    rewrite (load_icon_raster c w0 w1 w2 st im r Hc Hacq Hraster Himg).
    apply Z.eqb_neq in Hne. rewrite Hne. unfold after. cbn [trace images Error_message].
    subst human_size. rewrite <- !app_assoc. reflexivity.
  - intros c w0 w1 w2 st im Hc Hacq Hvector.
    unfold main, bind.
    now rewrite (load_icon_vector c w0 w1 w2 st im Hc Hacq Hvector).
  - intros w w1 w2 tar_data png d Hd Hx Hopen Hne.
    unfold patch_main, bind, print, emit.
    unfold after in Hd, Hx. rewrite Hd. cbn [trace images].
    change ([] ++ nl) with nl. rewrite Hx.
    unfold patch_get_image_size, bind, lib_call, ret. rewrite Hopen.
    apply Z.eqb_neq in Hne. rewrite Hne.
    assert (Hsucc : negb ((im_width d =? -1) && (im_height d =? -1)) = true).
    { apply Z.eqb_neq in Hne.
      destruct (Z.eqb_spec (im_width d) (-1)), (Z.eqb_spec (im_height d) (-1));
        try reflexivity. congruence. }
    rewrite Hsucc. cbn [negb orb]. unfold exit, after, patch_geometry_error,
      dimensions_text.
    cbn [trace images]. rewrite <- !app_assoc. reflexivity.
Qed.

(** ** Computations without effect on the file system *)

Lemma world_nil (w : World) : mkWorld (trace w ++ []) (images w ++ []) = w.
Proof. rewrite !app_nil_r. now destruct w. Qed.

Lemma quiet_lift {A : Type} (r : outcome A) : quiet (lift r).
Proof. intros w. exists r, [], []. rewrite world_nil. now split. Qed.

Lemma quiet_ret {A : Type} (a : A) : quiet (ret a).
Proof. apply (quiet_lift (Ok a)). Qed.

Lemma quiet_raise {A : Type} (e : Error) : quiet (@raise A e).
Proof. apply (quiet_lift (Raise e)). Qed.

Lemma quiet_exit {A : Type} (n : Z) : quiet (@exit A n).
Proof. apply (quiet_lift (Exit n)). Qed.

Lemma quiet_bind {A B : Type} (c : M A) (k : A -> M B) :
  quiet c -> (forall a, quiet (k a)) -> quiet (bind c k).
Proof.
  intros Hc Hk w. destruct (Hc w) as (r & evs & imgs & Heq & Hh).
  unfold bind. rewrite Heq. destruct r as [a|e|n].
  - destruct (Hk a (mkWorld (trace w ++ evs) (images w ++ imgs)))
      as (r2 & evs2 & imgs2 & Heq2 & Hh2).
    rewrite Heq2. exists r2, (evs ++ evs2), (imgs ++ imgs2).
    cbn [trace images]. rewrite !app_assoc. split; [reflexivity|].
    apply Forall_app. now split.
  - exists (Raise e), evs, imgs. now split.
  - exists (Exit n), evs, imgs. now split.
Qed.

Lemma quiet_try_except {A : Type} (c : M A) (h : Error -> M A) :
  quiet c -> (forall e, quiet (h e)) -> quiet (try_except c h).
Proof.
  intros Hc Hh w. destruct (Hc w) as (r & evs & imgs & Heq & Hv).
  unfold try_except. rewrite Heq. destruct r as [a|e|n].
  - exists (Ok a), evs, imgs. now split.
  - destruct (Hh e (mkWorld (trace w ++ evs) (images w ++ imgs)))
      as (r2 & evs2 & imgs2 & Heq2 & Hv2).
    rewrite Heq2. exists r2, (evs ++ evs2), (imgs ++ imgs2).
    cbn [trace images]. rewrite !app_assoc. split; [reflexivity|].
    apply Forall_app. now split.
  - exists (Exit n), evs, imgs. now split.
Qed.

Lemma quiet_emit (e : Event) : harmless e -> quiet (emit e).
Proof.
  intros He w. exists (Ok tt), [e], []. unfold emit. rewrite app_nil_r.
  split; [reflexivity|]. now constructor.
Qed.

Lemma quiet_print (text : pystr) : quiet (print text).
Proof. apply quiet_emit. exact I. Qed.

Lemma quiet_print_noend (text : pystr) : quiet (print_noend text).
Proof. apply quiet_emit. exact I. Qed.

Lemma quiet_alloc (d : ImageData) : quiet (alloc d).
Proof.
  intros w. exists (Ok (List.length (images w))), [], [d]. unfold alloc.
  rewrite app_nil_r. now split.
Qed.

Lemma quiet_load (r : nat) : quiet (load r).
Proof. intros w. exact (quiet_lift (Ok (deref w r)) w). Qed.

Lemma quiet_lib_call {A : Type} (r : pystr + A) : quiet (lib_call r).
Proof. destruct r; [apply quiet_raise|apply quiet_ret]. Qed.

Ltac quiet_step :=
  first
    [ apply quiet_ret | apply quiet_raise | apply quiet_exit | apply quiet_lift
    | apply quiet_print | apply quiet_print_noend | apply quiet_alloc
    | apply quiet_load | apply quiet_lib_call
    | apply quiet_emit; exact I
    | apply quiet_bind; [|intros]
    | apply quiet_try_except; [|intros]
    | match goal with
      | |- quiet (if ?b then _ else _) => destruct b
      | |- quiet (match ?x with _ => _ end) => destruct x
      end ].

Ltac quiet_auto := repeat quiet_step.

Lemma quiet_fail {A : Type} (e : Error) : quiet (@fail A e).
Proof. unfold fail. quiet_auto. Qed.

Lemma quiet_convert_args (c : CommandLine) : quiet (convert_args_to_settings c).
Proof. unfold convert_args_to_settings. quiet_auto. Qed.

Lemma quiet_download_loop (rs : list bytes) (ts : option Z) (tsh : pystr)
      (data : bytes) (n : Z) (m : nat) :
  quiet (download_loop rs ts tsh data n m).
Proof.
  revert data n m. induction rs as [|chunk rs IH]; intros data n m;
    cbn [download_loop]; [apply quiet_ret|].
  destruct chunk; [apply quiet_ret|].
  destruct (negb is_terminal_output); [apply IH|].
  destruct is_vt100_supported; (apply quiet_bind; [apply quiet_print_noend|intros; apply IH]).
Qed.

Lemma quiet_download (url : pystr) : quiet (download_with_progress url).
Proof.
  unfold download_with_progress, declared_size.
  repeat first [apply quiet_download_loop | quiet_step].
Qed.

Lemma quiet_print_names (names : list pystr) : quiet (print_names names).
Proof.
  induction names as [|n names IH]; cbn [print_names]; [apply quiet_ret|].
  apply quiet_bind; [apply quiet_print|intros; exact IH].
Qed.

Lemma quiet_extract (tar_data : BytesIO) (p : Path) : quiet (extract_discord_icon tar_data p).
Proof.
  unfold extract_discord_icon.
  repeat first [apply quiet_print_names | quiet_step].
Qed.

Lemma quiet_IconImage_init (id0 : pystr) (p : option Path) (b : option BytesIO)
      (i : option nat) :
  quiet (IconImage_init id0 p b i).
Proof.
  unfold IconImage_init, __post_init__, _load_bytes_from_path, _load_image_from_bytes.
  quiet_auto.
Qed.

Lemma quiet_acquire_icon (st : Settings) : quiet (acquire_icon st).
Proof.
  unfold acquire_icon, get_latest_discord_icon.
  repeat first [apply quiet_IconImage_init | apply quiet_download
               | apply quiet_extract | quiet_step].
Qed.

Lemma quiet_load_icon (c : CommandLine) : quiet (load_icon c).
Proof.
  unfold load_icon, get_image_size.
  repeat first [apply quiet_convert_args | apply quiet_acquire_icon
               | apply quiet_fail | quiet_step].
Qed.

Lemma harmless_allowed (evs : list Event) :
  Forall harmless evs -> Forall simulate_allowed evs.
Proof.
  apply Forall_impl. intros e. destruct e; cbn; auto; contradiction.
Qed.

Lemma convert_args_simulate (c : CommandLine) (w w' : World) (st : Settings) :
  convert_args_to_settings c w = (Ok st, w') -> simulate st = arg_simulate c.
Proof.
  unfold convert_args_to_settings. intros H. run_in H. branch H.
  all: injection H as <- <-; reflexivity.
Qed.

(** Reading the command line has no effect when it gives settings. *)
Lemma convert_args_world (c : CommandLine) (w w' : World) (st : Settings) :
  convert_args_to_settings c w = (Ok st, w') -> w' = w.
Proof.
  unfold convert_args_to_settings, bind, lift, raise, ret, exit, emit.
  destruct (no_arguments c); [intros H; discriminate H|].
  destruct (args_size c) as [raw|e|n]; try (intros H; discriminate H).
  destruct (str_eqb _ []); cbv beta iota; [intros H; discriminate H|].
  destruct (option_map Path_of_str (arg_icon c)) as [p|].
  - destruct (is_file E p); cbn [negb]; cbv beta iota; [|intros H; discriminate H].
    destruct (st_size E p <=? 0); cbv beta iota; [intros H; discriminate H|].
    destruct (negb (svg_supported E) && _); cbv beta iota;
      [intros H; discriminate H|].
    destruct (negb (arg_discord c) && _); cbv beta iota; [intros H; discriminate H|].
    destruct (target_sizes raw) as [l|e|n]; try (intros H; discriminate H).
    destruct (Z.of_nat _ <=? 0); cbv beta iota; [intros H; discriminate H|].
    now intros [= _ <-].
  - destruct (negb (arg_discord c) && _); cbv beta iota; [intros H; discriminate H|].
    destruct (target_sizes raw) as [l|e|n]; try (intros H; discriminate H).
    destruct (Z.of_nat _ <=? 0); cbv beta iota; [intros H; discriminate H|].
    now intros [= _ <-].
Qed.

(** ** The install loop *)

(** A resize creates at most image objects: it has no effect on the trace
    and never leaves the script. *)
Lemma resize_frame (self : IconImage) (icon_size : IconSize) (rs : Resampling)
      (w : World) :
  exists r imgs,
    resize_image_as_copy self icon_size rs w
    = (r, mkWorld (trace w) (images w ++ imgs))
    /\ forall n, r <> Exit n.
Proof.
  unfold resize_image_as_copy, get_image_size.
  destruct (is_svg self) as [svg self1]. destruct svg.
  - destruct (raw_bytes self1) as [b|].
    + unfold bind, lib_call, alloc, ret, raise.
      destruct (read_all (seek0 b)) as [data b'].
      destruct (svg2png E data (size icon_size) (size icon_size)) as [text|png].
      * exists (Raise (LibraryError text)), []. rewrite app_nil_r.
        destruct w; split; [reflexivity|discriminate].
      * destruct (pil_open E png) as [text|d].
        -- exists (Raise (LibraryError text)), []. rewrite app_nil_r.
           destruct w; split; [reflexivity|discriminate].
        -- eexists _, [d]. split; [reflexivity|discriminate].
    + exists (Raise NoSvgRawBytes), []. rewrite app_nil_r.
      destruct w; split; [reflexivity|discriminate].
  - destruct (is_svg self1) as [svg2 self2]. destruct svg2.
    + unfold bind, ret. destruct (img self2) as [r|].
      * unfold load, alloc, ret.
        destruct ((-1 =? size icon_size) && (-1 =? size icon_size));
          eexists _, [_]; (split; [reflexivity|discriminate]).
      * exists (Raise AssertionFailed), []. rewrite app_nil_r.
        destruct w; split; [reflexivity|discriminate].
    + destruct (img self2) as [r|] eqn:Himg.
      * unfold bind, load, ret, alloc. rewrite Himg.
        destruct ((im_width (deref w r) =? size icon_size)
                  && (im_height (deref w r) =? size icon_size));
          eexists _, [_]; (split; [reflexivity|discriminate]).
      * exists (Raise NoImageData), []. rewrite app_nil_r.
        destruct w; split; [reflexivity|discriminate].
Qed.

(** In a simulated run the loop only resizes and prints: it prints the
    target of each size in turn until a resize fails. *)
Lemma install_loop_simulate (st : Settings) :
  simulate st = true ->
  forall sizes im installed w,
  exists r k imgs,
    install_loop st im sizes installed w
    = (r, mkWorld (trace w ++ map (target_line (name st)) (firstn k sizes))
            (images w ++ imgs))
    /\ match r with
       | Ok l => k = List.length sizes
                 /\ l = installed ++ map (icon_target_file (name st)) sizes
       | Raise _ => (k < List.length sizes)%nat
       | Exit _ => False
       end.
Proof.
  intros Hsim sizes. induction sizes as [|sz rest IH]; intros im installed w.
  - exists (Ok installed), O, []. cbn [install_loop ret firstn map List.length].
    rewrite !app_nil_r. destruct w. auto.
  - cbn [install_loop]. unfold bind at 1.
    destruct (resize_frame im sz LANCZOS w) as (r0 & imgs0 & -> & Hexit).
    destruct r0 as [[scaled im1]|e|n].
    + unfold bind at 1. unfold print at 1, emit at 1. cbn [trace images].
      rewrite Hsim. cbn [negb]. unfold bind at 1. unfold ret at 1.
      match goal with
      | |- context [install_loop st im1 rest ?l ?w1] =>
          destruct (IH im1 l w1) as (r & k & imgs & -> & Hr)
      end.
      exists r, (S k), (imgs0 ++ imgs). cbn [trace images firstn map].
      split.
      * f_equal. f_equal; [|now rewrite app_assoc].
        rewrite <- app_assoc. reflexivity.
      * destruct r as [l|e|n]; cbn [List.length]; [|lia|exact Hr].
        destruct Hr as [-> ->]. split; [reflexivity|].
        cbn [map]. now rewrite <- app_assoc.
    + exists (Raise e), O, imgs0. cbn [firstn map List.length].
      rewrite app_nil_r. split; [reflexivity|lia].
    + now contradiction (Hexit n).
Qed.

(** The cache notifier prints, touches the theme directory and runs the
    refresh command, nothing else; when it returns, the directory has been
    touched. *)
Lemma notify_cache_effects (w : World) :
  exists r evs,
    notify_cache w = (r, mkWorld (trace w ++ evs) (images w))
    /\ Forall simulate_allowed evs
    /\ (r = Ok tt -> In (Utime icon_theme_dir) evs).
Proof.
  unfold notify_cache, os_call, bind, print, emit, get_trace, lib_call, ret,
    raise, exit.
  cbn [trace images].
  match goal with
  | |- context [os_accepts E ?t ?e] => destruct (os_accepts E t e) as [text|]
  end.
  { eexists _, [_]. split; [reflexivity|]. split; [repeat constructor|discriminate]. }
  cbn [trace images]. destruct (which E gnome_icon_cache_cmd).
  2:{ eexists _, [_; _]. rewrite <- app_assoc. split; [reflexivity|].
      split; [repeat constructor|]. intros _. right. now left. }
  match goal with
  | |- context [run_result E ?t ?a] => destruct (run_result E t a) as [text|result]
  end.
  { eexists _, [_; _]. rewrite <- app_assoc. split; [reflexivity|].
    split; [repeat constructor|discriminate]. }
  cbn [trace images]. destruct (negb (fst result =? 0)); cbn [trace images].
  - eexists _, [_; _; _; _]. rewrite <- !app_assoc. split; [reflexivity|].
    split; [repeat constructor|discriminate].
  - eexists _, [_; _; _; _]. rewrite <- !app_assoc. split; [reflexivity|].
    split; [repeat constructor|]. intros _. right. now left.
Qed.

(** The part of the script after loading, in a simulated run. *)
Lemma install_simulated (st : Settings) (im : IconImage) (w : World) :
  simulate st = true ->
  exists r evs k imgs rest,
    install st im w = (r, mkWorld (trace w ++ evs) (images w ++ imgs))
    /\ Forall simulate_allowed evs
    /\ evs = saving_line (str_title E (name st))
             :: map (target_line (name st)) (firstn k (icon_sizes st)) ++ rest
    /\ (r = Ok tt ->
        k = List.length (icon_sizes st)
        /\ In (Utime icon_theme_dir) rest
        /\ In (removal_event st) rest).
Proof.
  intros Hsim. unfold install. unfold bind at 1. unfold print at 1, emit at 1.
  unfold bind at 1. unfold try_except.
  match goal with
  | |- context [install_loop st im ?s ?l ?w1] =>
      destruct (install_loop_simulate st Hsim s im l w1) as (r1 & k & imgs & -> & Hr1)
  end.
  cbn [trace images].
  assert (Hlines : Forall simulate_allowed
                     (map (target_line (name st)) (firstn k (icon_sizes st)))).
  { apply Forall_forall. intros e He. apply in_map_iff in He as (sz & <- & _).
    exact I. }
  destruct r1 as [installed|e|n]; [|clear Hr1|contradiction].
  2:{ unfold fail, bind, print, emit, exit. cbn [trace images].
      eexists _, _, k, imgs, [_]. split; [|split; [|split]].
      - rewrite <- !app_assoc. reflexivity.
      - constructor; [exact I|]. apply Forall_app. split; [exact Hlines|].
        repeat constructor.
      - reflexivity.
      - discriminate. }
  destruct Hr1 as [Hk ->]. cbn [app].
  unfold bind at 1.
  match goal with
  | |- context [notify_cache ?w1] =>
      destruct (notify_cache_effects w1) as (r2 & evs2 & -> & Hevs2 & Hutime)
  end.
  cbn [trace images].
  destruct r2 as [[]|e|n].
  2:{ eexists _, _, k, imgs, evs2. split; [|split; [|split]].
      - rewrite <- !app_assoc. reflexivity.
      - constructor; [exact I|]. apply Forall_app. auto.
      - reflexivity.
      - discriminate. }
  2:{ eexists _, _, k, imgs, evs2. split; [|split; [|split]].
      - rewrite <- !app_assoc. reflexivity.
      - constructor; [exact I|]. apply Forall_app. auto.
      - reflexivity.
      - discriminate. }
  specialize (Hutime eq_refl).
  unfold os_call, print, bind, emit. cbn [trace images].
  match goal with
  | |- context [os_accepts E ?t ?e] => destruct (os_accepts E t e) as [text|]
  end.
  { eexists _, _, k, imgs, evs2. split; [|split; [|split]].
    - rewrite <- !app_assoc. reflexivity.
    - constructor; [exact I|]. apply Forall_app. auto.
    - reflexivity.
    - discriminate. }
  cbn [trace images]. rewrite Hsim. cbn [trace images].
  eexists _, _, k, imgs, (evs2 ++ [_; _; _]). split; [|split; [|split]].
  - rewrite <- !app_assoc. reflexivity.
  - constructor; [exact I|]. apply Forall_app. split; [exact Hlines|].
    apply Forall_app. split; [exact Hevs2|]. repeat constructor.
  - reflexivity.
  - intros _. split; [exact Hk|]. split.
    + apply in_or_app. now left.
    + apply in_or_app. right. left. unfold removal_event. reflexivity.
Qed.

(** C3, as amended: a run with simulate enabled creates no directory and
    opens or writes no icon file.  What the script does besides printing and
    downloading is: it updates the timestamp of the theme directory, runs
    the cache refresh command on the theme directory, and writes the
    removal-instructions file.  When the run completes, the settings read
    from the command line have the target of each of their sizes printed,
    in order, after the loading phase; the theme directory has been touched
    and the removal instructions for these sizes have been written next to
    the program.  (The rendering of a vector source is a call into CairoSVG
    that the environment answers; what that library reads on its own while
    it renders is no effect of this trace.) *)
Theorem simulate_effects (c : CommandLine) (w : World) :
  arg_simulate c = true ->
  exists r evs imgs,
    main c w = (r, mkWorld (trace w ++ evs) (images w ++ imgs))
    /\ Forall simulate_allowed evs
    /\ (r = Ok tt ->
        exists st pre rest,
          convert_args_to_settings c w = (Ok st, w)
          /\ Forall harmless pre
          /\ evs = pre ++ saving_line (str_title E (name st))
                   :: map (target_line (name st)) (icon_sizes st) ++ rest
          /\ In (Utime icon_theme_dir) rest
          /\ In (removal_event st) rest).
Proof.
  intros Hsim. unfold main, bind.
  destruct (quiet_load_icon c w) as (r1 & pre & imgs1 & Hload & Hquiet).
  rewrite Hload. pose proof (harmless_allowed pre Hquiet) as Hpre.
  destruct r1 as [[st im]|e|n].
  2:{ exists (Raise e), pre, imgs1. repeat split; [assumption|discriminate]. }
  2:{ exists (Exit n), pre, imgs1. repeat split; [assumption|discriminate]. }
  assert (Hc : convert_args_to_settings c w = (Ok st, w)).
  { apply load_icon_settings in Hload as [w1 Hc].
    now rewrite <- (convert_args_world c w w1 st Hc) at 2. }
  assert (Hst : simulate st = true).
  { now rewrite (convert_args_simulate c w w st Hc). }
  cbn [fst snd].
  destruct (install_simulated st im (mkWorld (trace w ++ pre) (images w ++ imgs1)) Hst)
    as (r & evs & k & imgs & rest & Heq & Hall & Hevs & Hok).
  rewrite Heq. cbn [trace images]. rewrite <- !app_assoc.
  exists r, (pre ++ evs), (imgs1 ++ imgs). split; [reflexivity|].
  split; [apply Forall_app; now split|].
  intros Hr. destruct (Hok Hr) as (Hk & Hutime & Hrem).
  exists st, pre, rest. subst evs k. rewrite firstn_all. auto.
Qed.

(** ** Target paths *)

Lemma split_no_sep (sep : char) (a : pystr) :
  Forall (fun c => c <> sep) a -> split sep a = [a].
Proof.
  induction 1 as [|c a Hc Ha IH]; [reflexivity|].
  cbn [split]. destruct (char_eqb c sep) eqn:Hcs.
  - apply char_eqb_eq in Hcs. contradiction.
  - now rewrite IH.
Qed.

Lemma split_app_sep (sep : char) (a b : pystr) :
  Forall (fun c => c <> sep) a -> split sep (a ++ sep :: b) = a :: split sep b.
Proof.
  induction 1 as [|c a Hc Ha IH]; cbn [split app].
  - now rewrite char_eqb_refl.
  - destruct (char_eqb c sep) eqn:Hcs.
    + apply char_eqb_eq in Hcs. contradiction.
    + now rewrite IH.
Qed.

Lemma split_nonempty (sep : char) (s : pystr) : split sep s <> [].
Proof.
  destruct s as [|c s]; cbn [split]; [discriminate|].
  destruct (char_eqb c sep); [discriminate|].
  destruct (split sep s); discriminate.
Qed.

Lemma join_split (sep : char) (s : pystr) : join [sep] (split sep s) = s.
Proof.
  induction s as [|c s IH]; [reflexivity|]. cbn [split].
  destruct (char_eqb c sep) eqn:Hcs.
  - apply char_eqb_eq in Hcs. subst c.
    pose proof (split_nonempty sep s) as Hne.
    destruct (split sep s) as [|h t]; [contradiction|].
    cbn [join app] in *. now rewrite IH.
  - pose proof (split_nonempty sep s) as Hne.
    destruct (split sep s) as [|h t]; [contradiction|].
    destruct t as [|h' t]; cbn [join app] in *; now rewrite <- IH.
Qed.

Lemma join_app (sep : pystr) (ps qs : list pystr) :
  ps <> [] -> qs <> [] -> join sep (ps ++ qs) = join sep ps ++ sep ++ join sep qs.
Proof.
  intros Hps Hqs. induction ps as [|x ps IH]; [contradiction|].
  destruct ps as [|y ps].
  - destruct qs; [contradiction|reflexivity].
  - cbn [join app] in *. rewrite IH by discriminate. now rewrite <- !app_assoc.
Qed.

Lemma Path_str_parts (p : Path) :
  parts p <> [] -> Path_str p = root p ++ join [c_slash] (parts p).
Proof.
  unfold Path_str. destruct (parts p); [contradiction|]. now destruct (root p).
Qed.

Lemma plain_relative_components (s : pystr) :
  plain_relative s = true ->
  components s = split c_slash s /\ startswith [c_slash] s = false.
Proof.
  unfold plain_relative, components. intros H. split.
  - induction (split c_slash s) as [|x l IH]; [reflexivity|].
    cbn [forallb filter] in *. apply andb_true_iff in H as [Hx Hl].
    rewrite Hx. now rewrite IH.
  - destruct s as [|c s]; [reflexivity|]. unfold startswith. cbn [strip_prefix].
    destruct (char_eqb c_slash c) eqn:Hc; [|reflexivity].
    apply char_eqb_eq in Hc. subst c. cbn [split] in H.
    rewrite char_eqb_refl in H. discriminate H.
Qed.

(** The decimal text of an integer has no slash. *)
Lemma str_of_Z_no_slash (n : Z) : no_slash (str_of_Z n).
Proof.
  assert (Hu : forall d, no_slash (lit (NilEmpty.string_of_uint d))).
  { induction d; cbn; constructor; try discriminate; assumption. }
  assert (Hz : forall d, no_slash (lit (NilZero.string_of_uint d))).
  { intros d. destruct d; try apply Hu. repeat constructor. discriminate. }
  unfold str_of_Z. destruct (Z.to_int n) as [d|d]; cbn [NilZero.string_of_int].
  - apply Hz.
  - constructor; [discriminate|apply Hz].
Qed.

Lemma get_name_no_slash (s : IconSize) : no_slash (get_name s).
Proof.
  unfold get_name, no_slash.
  destruct (scale s <=? 1); repeat (apply Forall_app; split);
    try apply str_of_Z_no_slash; repeat constructor; discriminate.
Qed.

Lemma get_name_has_x (s : IconSize) : In c_x (get_name s).
Proof.
  unfold get_name. destruct (scale s <=? 1); apply in_or_app; right; now left.
Qed.

Lemma keep_component_has_x (x : pystr) : In c_x x -> keep_component x = true.
Proof.
  destruct x as [|a [|b t]]; cbn [In]; [contradiction| |].
  - intros [->|[]]. reflexivity.
  - intros _. unfold keep_component. cbn [str_eqb negb andb].
    now rewrite andb_false_r.
Qed.

Lemma icon_theme_dir_parts :
  icon_theme_dir
  = mkPath (root get_xdg_data_home)
      (parts get_xdg_data_home ++ [lit "icons"; lit "hicolor"]).
Proof. reflexivity. Qed.

Lemma icon_parent_dir_parts (icon_size : IconSize) :
  icon_parent_dir icon_size
  = mkPath (root icon_theme_dir)
      (parts icon_theme_dir ++ [get_name icon_size; icon_context]).
Proof.
  unfold icon_parent_dir, truediv.
  pose proof (get_name_no_slash icon_size) as Hns.
  pose proof (get_name_has_x icon_size) as Hx.
  assert (Hstart : startswith [c_slash] (get_name icon_size ++ [c_slash] ++ icon_context)
                   = false).
  { destruct (get_name icon_size) as [|c g]; [contradiction|].
    unfold startswith. cbn [app strip_prefix].
    destruct (char_eqb c_slash c) eqn:Hc; [|reflexivity].
    apply char_eqb_eq in Hc. inversion Hns; subst. congruence. }
  rewrite Hstart. f_equal. f_equal. unfold components.
  cbn [app]. rewrite (split_app_sep c_slash _ _ Hns).
  cbn [filter]. rewrite (keep_component_has_x _ Hx). reflexivity.
Qed.

(** The text of a target path, for a name in plain form. *)
Lemma target_path_text (target_icon_name : pystr) (icon_size : IconSize) :
  plain_relative (target_icon_name ++ lit ".png") = true ->
  Path_str (icon_target_file target_icon_name icon_size)
  = Path_str icon_theme_dir ++ [c_slash] ++ get_name icon_size ++ [c_slash]
    ++ icon_context ++ [c_slash] ++ target_icon_name ++ lit ".png".
Proof.
  intros Hplain. unfold icon_target_file. rewrite icon_parent_dir_parts.
  destruct (plain_relative_components _ Hplain) as [Hcomp Hstart].
  unfold truediv. rewrite Hstart, Hcomp. cbn [root parts].
  pose proof (split_nonempty c_slash (target_icon_name ++ lit ".png")) as Hne.
  assert (Hdir : parts icon_theme_dir <> []).
  { rewrite icon_theme_dir_parts. cbn [parts]. now destruct (parts get_xdg_data_home). }
  rewrite !Path_str_parts; cbn [root parts].
  - rewrite <- app_assoc.
    rewrite (join_app _ (parts icon_theme_dir)); auto.
    + change ([get_name icon_size; icon_context]
              ++ split c_slash (target_icon_name ++ lit ".png"))
        with ([get_name icon_size]
              ++ [icon_context]
              ++ split c_slash (target_icon_name ++ lit ".png")).
      rewrite (join_app _ [get_name icon_size]); [|discriminate|discriminate].
      rewrite (join_app _ [icon_context]); [|discriminate|assumption].
      rewrite join_split. cbn [join]. now rewrite <- !app_assoc.
    + discriminate.
  - exact Hdir.
  - destruct (parts icon_theme_dir); [contradiction|discriminate].
Qed.

(** C6, as amended: for every size and every name whose file name
    [<name>.png] is in plain relative form, the text of the target path is
    [<theme root>/<WxH[@S]>/apps/<name>.png]; the theme root is the data home
    extended by [icons] and [hicolor], and the data home is XDG_DATA_HOME when
    that is set and not empty, else the home directory extended by [.local]
    and [share].  For the sizes "32" and "64x64@2" and the name "testapp" the
    settings hold the sizes 32x1 and 64x2, and a simulated run of the script
    has no effect but those a simulated run may have; when it completes it
    has printed, after the loading phase and the line that announces the
    saving, [.../32x32/apps/testapp.png] and then
    [.../64x64@2/apps/testapp.png]. *)
Theorem target_paths :
  (forall target_icon_name icon_size,
     plain_relative (target_icon_name ++ lit ".png") = true ->
     Path_str (icon_target_file target_icon_name icon_size)
     = Path_str icon_theme_dir ++ [c_slash] ++ get_name icon_size ++ [c_slash]
       ++ icon_context ++ [c_slash] ++ target_icon_name ++ lit ".png")
  /\ icon_theme_dir
     = mkPath (root get_xdg_data_home)
         (parts get_xdg_data_home ++ [lit "icons"; lit "hicolor"])
  /\ get_xdg_data_home
     = match XDG_DATA_HOME E with
       | Some (c :: text) => Path_of_str (c :: text)
       | _ => mkPath (root (Path_of_str (home E)))
                (parts (Path_of_str (home E)) ++ [lit ".local"; lit "share"])
       end
  /\ (forall w, convert_args_to_settings scenario w = (Ok scenario_settings, w))
  /\ (forall w, exists r evs imgs,
        main scenario w = (r, mkWorld (trace w ++ evs) (images w ++ imgs))
        /\ Forall simulate_allowed evs
        /\ (r = Ok tt ->
            exists pre rest,
              Forall harmless pre
              /\ evs
                 = pre
                   ++ [saving_line (str_title E (lit "testapp"));
                       Print (lit "- "
                              ++ quoted (Path_str icon_theme_dir
                                         ++ lit "/32x32/apps/testapp.png") ++ nl);
                       Print (lit "- "
                              ++ quoted (Path_str icon_theme_dir
                                         ++ lit "/64x64@2/apps/testapp.png") ++ nl)]
                   ++ rest)).
Proof.
  split; [exact target_path_text|]. split; [reflexivity|].
  split; [unfold get_xdg_data_home; now destruct (XDG_DATA_HOME E) as [[|c t]|]|].
  split; [reflexivity|].
  intros w. unfold main, bind.
  destruct (quiet_load_icon scenario w) as (r1 & pre & imgs1 & Hload & Hquiet).
  rewrite Hload. pose proof (harmless_allowed pre Hquiet) as Hpre.
  destruct r1 as [[st im]|e|n].
  2:{ exists (Raise e), pre, imgs1. repeat split; [assumption|discriminate]. }
  2:{ exists (Exit n), pre, imgs1. repeat split; [assumption|discriminate]. }
  assert (Hst : st = scenario_settings).
  { apply load_icon_settings in Hload as [w1 Hc].
    assert (H4 : convert_args_to_settings scenario w = (Ok scenario_settings, w))
      by reflexivity.
    rewrite H4 in Hc. now injection Hc as <- _. }
  subst st. cbn [fst snd].
  destruct (install_simulated scenario_settings im
              (mkWorld (trace w ++ pre) (images w ++ imgs1)) eq_refl)
    as (r & evs & k & imgs & rest & Heq & Hall & Hevs & Hok).
  rewrite Heq. cbn [trace images]. rewrite <- !app_assoc.
  exists r, (pre ++ evs), (imgs1 ++ imgs). split; [reflexivity|].
  split; [apply Forall_app; now split|].
  intros Hr. destruct (Hok Hr) as (Hk & _ & _).
  exists pre, rest. split; [exact Hquiet|]. subst evs k.
  cbn [icon_sizes scenario_settings List.length firstn map name app].
  unfold target_line. rewrite !target_path_text by reflexivity.
  reflexivity.
Qed.

(** * Further properties *)

(** ** [validate_size] against [IconSize] *)

Lemma rmatch_many1_digits (whole s : pystr) (g : groups) k :
  (forall c s', is_digit c = true -> k (c :: s') g = None) ->
  rmatch whole (Many1 IDigit) s g k
  = if is_empty (take_digits s) then None else k (drop_digits s) g.
Proof.
  intros Hk. destruct s as [|c s']; [reflexivity|].
  cbn [rmatch item_ok take_digits drop_digits].
  destruct (is_digit c) eqn:Hc; [|reflexivity].
  cbn [is_empty].
  rewrite <- (take_drop_digits s') at 1.
  rewrite many_digits.
  - reflexivity.
  - apply take_digits_Forall.
  - apply drop_digits_no_digit.
  - intros; now apply Hk.
Qed.

Lemma validate_scale_eval (whole ds rest2 : pystr) :
  rmatch whole (Group 2 (Cat (One (ILit c_at)) (Many1 IDigit))) rest2 [(1%nat, ds)]
    (fun s g => rmatch whole Eol s g final)
  = option_map with_at (scale_groups ds rest2).
Proof.
  destruct rest2 as [|c rest3]; [reflexivity|].
  cbn [rmatch item_ok scale_groups].
  destruct (char_eqb c_at c) eqn:Hc; [|reflexivity].
  apply char_eqb_eq in Hc. subst c.
  change (rmatch whole (Many1 IDigit) rest3 [(1%nat, ds)]
            (fun s' g' =>
               rmatch whole Eol s'
                 ((2%nat, firstn (List.length (c_at :: rest3) - List.length s')
                            (c_at :: rest3)) :: g') final)
          = option_map with_at
              (if negb (is_empty (take_digits rest3)) && at_eol (drop_digits rest3)
               then Some [(2%nat, take_digits rest3); (1%nat, ds)] else None)).
  rewrite rmatch_many1_digits.
  - destruct (is_empty (take_digits rest3)); [reflexivity|].
    rewrite rmatch_Eol. cbn [negb andb].
    destruct (at_eol (drop_digits rest3)); [|reflexivity].
    cbn [option_map with_at map fst snd Nat.eqb]. do 4 f_equal.
    change (c_at :: rest3) with ([c_at] ++ rest3).
    rewrite <- (take_drop_digits rest3) at 1 3.
    rewrite app_assoc. apply firstn_app_minus.
  - intros c' s' Hc'. rewrite rmatch_Eol. now rewrite at_eol_digit.
Qed.

Lemma rmatch_Backref (whole : pystr) (n : nat) s g k :
  rmatch whole (Backref n) s g k
  = match group g n with
    | Some v => match strip_prefix v s with Some s' => k s' g | None => None end
    | None => None
    end.
Proof. reflexivity. Qed.

Lemma validate_repeat_eval (whole ds rest : pystr) :
  rmatch whole
    (Cat (One (ILit c_x))
       (Cat (Backref 1) (Opt (Group 2 (Cat (One (ILit c_at)) (Many1 IDigit))))))
    rest [(1%nat, ds)] (fun s g => rmatch whole Eol s g final)
  = option_map with_at (repeat_groups ds rest).
Proof.
  rewrite rmatch_Cat. destruct rest as [|c rest1]; [reflexivity|].
  rewrite rmatch_One. cbn [item_ok repeat_groups].
  destruct (char_eqb c_x c); [|reflexivity].
  rewrite rmatch_Cat, rmatch_Backref. cbn [group Nat.eqb].
  destruct (strip_prefix ds rest1) as [rest2|]; [|reflexivity].
  rewrite rmatch_Opt, validate_scale_eval.
  destruct (scale_groups ds rest2) as [g|]; [reflexivity|].
  cbn [option_map]. rewrite rmatch_Eol.
  destruct (at_eol rest2); reflexivity.
Qed.

(** The pattern of [validate_size] accepts the same texts as the pattern
    of [IconSize], with the same first group. *)
Lemma validate_re_search (text : pystr) :
  re_search validate_re text = option_map with_at (re_search size_re text).
Proof.
  rewrite size_re_direct.
  unfold validate_re. rewrite re_search_bol, rmatch_Cat.
  rewrite rmatch_group_digits.
  - unfold direct_search. destruct (is_empty (take_digits text)); [reflexivity|].
    rewrite rmatch_Cat, rmatch_Opt, validate_repeat_eval, rmatch_Eol.
    unfold size_groups.
    destruct (repeat_groups (take_digits text) (drop_digits text)); [reflexivity|].
    cbn [option_map]. destruct (at_eol (drop_digits text)); reflexivity.
  - intros c s' g' Hc. rewrite rmatch_Cat, rmatch_Opt, rmatch_Cat, rmatch_One.
    cbn [item_ok]. rewrite (digit_not_x c Hc), rmatch_Eol.
    now rewrite at_eol_digit.
Qed.

Lemma group_with_at_1 (g : groups) : group (with_at g) 1 = group g 1.
Proof.
  induction g as [|[k v] g IH]; [reflexivity|].
  cbn [with_at map fst snd group] in *.
  destruct (Nat.eqb_spec k 2) as [->|Hk]; cbn [group Nat.eqb]; [exact IH|].
  destruct (Nat.eqb k 1); [reflexivity|exact IH].
Qed.

Lemma group_with_at_2 (g : groups) :
  group (with_at g) 2 = option_map (cons c_at) (group g 2).
Proof.
  induction g as [|[k v] g IH]; [reflexivity|].
  cbn [with_at map fst snd group] in *.
  destruct (Nat.eqb_spec k 2) as [->|Hk]; cbn [group Nat.eqb]; [reflexivity|].
  destruct (Nat.eqb_spec k 2); [contradiction|exact IH].
Qed.

(** [validate_size] over the pattern of [IconSize]. *)
Lemma validate_size_unfold (text : pystr) :
  validate_size text
  = match re_search size_re text with
    | None => None
    | Some m =>
        match group m 1 with
        | None => None
        | Some size_raw =>
            match int10 size_raw with
            | None => None
            | Some size_num =>
                if negb (size_num mod 2 =? 0) then None
                else if size_num <=? 0 then None
                else if is_not_None (group m 2) then Some (SizeStr text)
                else Some (SizeInt size_num)
            end
        end
    end.
Proof.
  unfold validate_size. rewrite validate_re_search.
  destruct (re_search size_re text) as [m|]; [|reflexivity].
  cbn [option_map]. rewrite group_with_at_1, group_with_at_2.
  destruct (group m 2); reflexivity.
Qed.


(** ** The name of a size *)

Lemma lit_String (a : ascii) (s : string) : lit (String a s) = N_of_ascii a :: lit s.
Proof. reflexivity. Qed.

Lemma int10_from_step (c : char) (k acc : Z) (text : pystr) :
  decimal c = Some k -> int10_from acc (c :: text) = int10_from (10 * acc + k) text.
Proof. intros H. cbn [int10_from]. now rewrite H. Qed.

(** [int] reads back what [str] wrote. *)
Lemma int10_from_uint_acc (d : Decimal.uint) (acc : positive) :
  int10_from (Z.pos acc) (lit (NilEmpty.string_of_uint d))
  = Some (Z.pos (Pos.of_uint_acc d acc)).
Proof.
  revert acc. induction d as [|d IH|d IH|d IH|d IH|d IH|d IH|d IH|d IH|d IH|d IH];
    intros acc; cbn [NilEmpty.string_of_uint Pos.of_uint_acc];
    [reflexivity|rewrite lit_String..].
  - rewrite (int10_from_step _ 0) by reflexivity.
    replace (10 * Z.pos acc + 0) with (Z.pos (10 * acc)) by lia. apply IH.
  - rewrite (int10_from_step _ 1) by reflexivity.
    replace (10 * Z.pos acc + 1) with (Z.pos (1 + 10 * acc)) by lia. apply IH.
  - rewrite (int10_from_step _ 2) by reflexivity.
    replace (10 * Z.pos acc + 2) with (Z.pos (2 + 10 * acc)) by lia. apply IH.
  - rewrite (int10_from_step _ 3) by reflexivity.
    replace (10 * Z.pos acc + 3) with (Z.pos (3 + 10 * acc)) by lia. apply IH.
  - rewrite (int10_from_step _ 4) by reflexivity.
    replace (10 * Z.pos acc + 4) with (Z.pos (4 + 10 * acc)) by lia. apply IH.
  - rewrite (int10_from_step _ 5) by reflexivity.
    replace (10 * Z.pos acc + 5) with (Z.pos (5 + 10 * acc)) by lia. apply IH.
  - rewrite (int10_from_step _ 6) by reflexivity.
    replace (10 * Z.pos acc + 6) with (Z.pos (6 + 10 * acc)) by lia. apply IH.
  - rewrite (int10_from_step _ 7) by reflexivity.
    replace (10 * Z.pos acc + 7) with (Z.pos (7 + 10 * acc)) by lia. apply IH.
  - rewrite (int10_from_step _ 8) by reflexivity.
    replace (10 * Z.pos acc + 8) with (Z.pos (8 + 10 * acc)) by lia. apply IH.
  - rewrite (int10_from_step _ 9) by reflexivity.
    replace (10 * Z.pos acc + 9) with (Z.pos (9 + 10 * acc)) by lia. apply IH.
Qed.

Lemma int10_from_uint (d : Decimal.uint) :
  int10_from 0 (lit (NilEmpty.string_of_uint d)) = Some (Z.of_N (Pos.of_uint d)).
Proof.
  induction d as [|d IH|d IH|d IH|d IH|d IH|d IH|d IH|d IH|d IH|d IH];
    cbn [NilEmpty.string_of_uint Pos.of_uint];
    [reflexivity|rewrite lit_String..].
  - rewrite (int10_from_step _ 0) by reflexivity. exact IH.
  - rewrite (int10_from_step _ 1) by reflexivity. apply (int10_from_uint_acc d 1).
  - rewrite (int10_from_step _ 2) by reflexivity. apply (int10_from_uint_acc d 2).
  - rewrite (int10_from_step _ 3) by reflexivity. apply (int10_from_uint_acc d 3).
  - rewrite (int10_from_step _ 4) by reflexivity. apply (int10_from_uint_acc d 4).
  - rewrite (int10_from_step _ 5) by reflexivity. apply (int10_from_uint_acc d 5).
  - rewrite (int10_from_step _ 6) by reflexivity. apply (int10_from_uint_acc d 6).
  - rewrite (int10_from_step _ 7) by reflexivity. apply (int10_from_uint_acc d 7).
  - rewrite (int10_from_step _ 8) by reflexivity. apply (int10_from_uint_acc d 8).
  - rewrite (int10_from_step _ 9) by reflexivity. apply (int10_from_uint_acc d 9).
Qed.

Lemma uint_text_digits (d : Decimal.uint) :
  Forall (fun c => is_digit c = true) (lit (NilEmpty.string_of_uint d)).
Proof.
  induction d; cbn [NilEmpty.string_of_uint]; [constructor|rewrite lit_String..];
    (constructor; [reflexivity|assumption]).
Qed.

Lemma str_of_Z_pos (p : positive) :
  str_of_Z (Z.pos p) = lit (NilEmpty.string_of_uint (Pos.to_uint p))
  /\ lit (NilEmpty.string_of_uint (Pos.to_uint p)) <> [].
Proof.
  unfold str_of_Z. cbn [Z.to_int NilZero.string_of_int NilZero.string_of_uint].
  pose proof (Unsigned.to_uint_nonnil p) as Hnil.
  destruct (Pos.to_uint p); try contradiction; (split; [reflexivity|discriminate]).
Qed.

(** The decimal text of a positive integer is a run of digits that [int]
    reads back. *)
Lemma str_of_Z_digits (n : Z) : 0 < n -> digits (str_of_Z n) /\ int10 (str_of_Z n) = Some n.
Proof.
  intros Hn. destruct n as [|p|p]; try lia.
  destruct (str_of_Z_pos p) as [-> Hne]. split.
  - split; [exact Hne|apply uint_text_digits].
  - unfold int10.
    destruct (lit (NilEmpty.string_of_uint (Pos.to_uint p))) eqn:Ht; [contradiction|].
    rewrite <- Ht, int10_from_uint, Unsigned.of_to. reflexivity.
Qed.

Lemma eol_nil : eol [].
Proof. now left. Qed.

Lemma parse_get_name (s : IconSize) : valid_size s -> parse_size (get_name s) = Ok s.
Proof.
  destruct s as [n sc]. intros (Heven & Hn & Hsc). cbn [size scale] in *.
  destruct (str_of_Z_digits n Hn) as [Hds Hint].
  unfold get_name. cbn [size scale]. destruct (Z.leb_spec sc 1) as [Hle|Hgt].
  - assert (sc = 1) as -> by lia.
    pose proof (search_token_NxN (str_of_Z n) [] Hds eol_nil) as Hs.
    rewrite app_nil_r in Hs. unfold token_NxN in Hs.
    rewrite (parse_size_groups1 _ _ n Hs Hint).
    now apply IconSize_validate_ok.
  - destruct (str_of_Z_digits sc Hsc) as [Hss Hint2].
    pose proof (search_token_NxNS (str_of_Z n) (str_of_Z sc) [] Hds Hss eol_nil) as Hs.
    rewrite app_nil_r in Hs. unfold token_NxNS in Hs.
    rewrite (parse_size_groups2 _ _ _ n sc Hs Hint Hint2).
    now apply IconSize_validate_ok.
Qed.

Lemma IconSize_init_valid (sz : size_arg) (scale0 : Z) (s : IconSize) :
  IconSize_init sz scale0 = Ok s -> valid_size s.
Proof.
  unfold IconSize_init. destruct (IconSize_fields sz scale0) as [s0|e|n]; try discriminate.
  pose proof (IconSize_validate_cases s0) as H.
  destruct (IconSize_validate s0) as [s1|e|n]; try discriminate.
  intros [= ->]. destruct H as (-> & H). exact H.
Qed.

(** X2: the directory name of a size parses back to that size, when the
    decimal texts of the size and of the scale are short enough for [str] to
    write them and for [int] to read them back under every limit of the
    interpreter (at most [max_digits_unchecked] digits).  This holds for
    every such size with an even, positive size and a positive scale, and so
    for every such size the constructor has returned, whatever it was
    given. *)
Theorem get_name_parses_back (s : IconSize) :
  few_digits (size s) -> few_digits (scale s) ->
  (valid_size s -> parse_size (get_name s) = Ok s)
  /\ (forall sz scale0, IconSize_init sz scale0 = Ok s ->
        parse_size (get_name s) = Ok s).
Proof.
  intros _ _. split; [apply parse_get_name|].
  intros sz scale0 H. apply parse_get_name. exact (IconSize_init_valid sz scale0 s H).
Qed.

Lemma get_name_inj (s1 s2 : IconSize) :
  valid_size s1 -> valid_size s2 -> get_name s1 = get_name s2 -> s1 = s2.
Proof.
  intros H1 H2 Heq. apply parse_get_name in H1, H2.
  rewrite Heq in H1. congruence.
Qed.


(** ** The order of the size tokens *)

Lemma convert_tokens_spec (tokens : list pystr) :
  convert_tokens tokens
  = if forallb token_ok tokens
    then Ok (map RawIconSize (flat_map token_sizes tokens))
    else Exit 2.
Proof.
  induction tokens as [|t rest IH]; [reflexivity|].
  cbn [convert_tokens forallb flat_map]. unfold token_ok at 1, token_sizes at 1.
  destruct (parse_size t) as [s|e|n]; cbn [andb]; try reflexivity.
  rewrite IH. destruct (forallb token_ok rest); reflexivity.
Qed.

Lemma target_sizes_parsed (l : list IconSize) : target_sizes (map RawIconSize l) = Ok l.
Proof.
  induction l as [|s l IH]; [reflexivity|].
  cbn [map target_sizes]. now rewrite IH.
Qed.

Lemma forallb_perm {A : Type} (f : A -> bool) (l1 l2 : list A) :
  Permutation l1 l2 -> forallb f l1 = forallb f l2.
Proof.
  induction 1 as [|x l l' _ IH|x y l|l l' l'' _ IH1 _ IH2]; cbn [forallb].
  - reflexivity.
  - now rewrite IH.
  - destruct (f x), (f y); reflexivity.
  - congruence.
Qed.

Lemma list_sort_perm_eq (l1 l2 : list IconSize) :
  Permutation l1 l2 -> list_sort l1 = list_sort l2.
Proof.
  intros H. apply sorted_perm_unique; try apply list_sort_sorted.
  rewrite <- (list_sort_perm l1), <- (list_sort_perm l2). exact H.
Qed.

(** X4: the order in which the size tokens are given does not matter: two
    command lines that differ only in the order of the tokens after
    [--size] give the same settings, or the same error, or the same exit
    status when the parser refuses a token. *)
Theorem size_token_order_irrelevant (d x : bool) (i n : option pystr)
        (tokens1 tokens2 : list pystr) (w : World) :
  Permutation tokens1 tokens2 ->
  convert_args_to_settings (mkCommandLine d i n (Some tokens1) x) w
  = convert_args_to_settings (mkCommandLine d i n (Some tokens2) x) w.
Proof.
  intros Hperm. unfold convert_args_to_settings.
  assert (Hno : forall t, no_arguments (mkCommandLine d i n (Some t) x) = false).
  { intros t. unfold no_arguments. cbn [arg_discord arg_icon arg_name arg_size
                                        arg_simulate is_not_None].
    destruct d, i, n; reflexivity. }
  rewrite !Hno. unfold args_size. cbn [arg_size arg_name arg_icon arg_discord arg_simulate].
  destruct tokens1 as [|a l1].
  - apply Permutation_nil in Hperm. now subst.
  - destruct tokens2 as [|b l2].
    { apply Permutation_sym, Permutation_nil in Hperm. discriminate. }
    rewrite !convert_tokens_spec, (forallb_perm token_ok _ _ Hperm).
    destruct (forallb token_ok (b :: l2)); [|reflexivity].
    pose proof (Permutation_flat_map token_sizes Hperm) as Hp.
    apply list_sort_perm_eq in Hp.
    unfold bind, lift, raise, ret.
    rewrite !target_sizes_parsed.
    destruct (str_eqb _ []); [reflexivity|].
    destruct (option_map Path_of_str i) as [icon_path|]; cbn [is_not_None negb andb].
    + destruct (negb (is_file E icon_path)); [reflexivity|].
      destruct (st_size E icon_path <=? 0); [reflexivity|].
      destruct (negb (svg_supported E) && _); [reflexivity|].
      rewrite andb_false_r. now rewrite Hp.
    + destruct (negb d); [reflexivity|]. now rewrite Hp.
Qed.

(** ** How the scripts end, and what they do on the way *)

Lemma ends_weaken {A : Type} (P P' : Event -> Prop) (X X' : Z -> Prop)
      (R R' : Error -> Prop) (c : M A) :
  ends P X R c ->
  (forall e, P e -> P' e) -> (forall n, X n -> X' n) -> (forall e, R e -> R' e) ->
  ends P' X' R' c.
Proof.
  intros Hc HP HX HR w. destruct (Hc w) as (r & evs & imgs & Heq & Hev & Hr).
  exists r, evs, imgs. split; [exact Heq|]. split.
  - revert Hev. apply Forall_impl. exact HP.
  - destruct r; auto.
Qed.

Lemma ends_lift {A : Type} (P : Event -> Prop) (X : Z -> Prop) (R : Error -> Prop)
      (r : outcome A) :
  match r with Ok _ => True | Raise e => R e | Exit n => X n end ->
  ends P X R (lift r).
Proof. intros Hr w. exists r, [], []. rewrite world_nil. now split. Qed.

Lemma ends_ret {A : Type} P X R (a : A) : ends P X R (ret a).
Proof. now apply (ends_lift P X R (Ok a)). Qed.

Lemma ends_raise {A : Type} P X (R : Error -> Prop) (e : Error) :
  R e -> ends P X R (@raise A e).
Proof. intros He. now apply (ends_lift P X R (Raise e)). Qed.

Lemma ends_exit {A : Type} P (X : Z -> Prop) R (n : Z) : X n -> ends P X R (@exit A n).
Proof. intros Hn. now apply (ends_lift P X R (Exit n)). Qed.

(** Sequencing, with a fact [G] about the value the first part returns. *)
Lemma ends_bind_post {A B : Type} P X R (G : A -> Prop) (c : M A) (k : A -> M B) :
  ends P X R c ->
  (forall w a w', c w = (Ok a, w') -> G a) ->
  (forall a, G a -> ends P X R (k a)) ->
  ends P X R (bind c k).
Proof.
  intros Hc HG Hk w. destruct (Hc w) as (r & evs & imgs & Heq & Hev & Hr).
  unfold bind. rewrite Heq. destruct r as [a|e|n].
  - destruct (Hk a (HG _ _ _ Heq) (mkWorld (trace w ++ evs) (images w ++ imgs)))
      as (r2 & evs2 & imgs2 & Heq2 & Hev2 & Hr2).
    rewrite Heq2. exists r2, (evs ++ evs2), (imgs ++ imgs2).
    cbn [trace images]. rewrite !app_assoc. split; [reflexivity|].
    split; [|exact Hr2]. apply Forall_app. now split.
  - exists (Raise e), evs, imgs. now split.
  - exists (Exit n), evs, imgs. now split.
Qed.

Lemma ends_bind {A B : Type} P X R (c : M A) (k : A -> M B) :
  ends P X R c -> (forall a, ends P X R (k a)) -> ends P X R (bind c k).
Proof.
  intros Hc Hk. apply (ends_bind_post P X R (fun _ => True)); auto.
Qed.

(** [try .. except]: what the body raises does not matter, the handler
    decides. *)
Lemma ends_try_except {A : Type} P X R (c : M A) (h : Error -> M A) :
  ends P X any c -> (forall e, ends P X R (h e)) -> ends P X R (try_except c h).
Proof.
  intros Hc Hh w. destruct (Hc w) as (r & evs & imgs & Heq & Hev & Hr).
  unfold try_except. rewrite Heq. destruct r as [a|e|n].
  - exists (Ok a), evs, imgs. now split.
  - destruct (Hh e (mkWorld (trace w ++ evs) (images w ++ imgs)))
      as (r2 & evs2 & imgs2 & Heq2 & Hev2 & Hr2).
    rewrite Heq2. exists r2, (evs ++ evs2), (imgs ++ imgs2).
    cbn [trace images]. rewrite !app_assoc. split; [reflexivity|].
    split; [|exact Hr2]. apply Forall_app. now split.
  - exists (Exit n), evs, imgs. now split.
Qed.

Lemma ends_emit (P : Event -> Prop) X R (e : Event) : P e -> ends P X R (emit e).
Proof.
  intros He w. exists (Ok tt), [e], []. unfold emit. rewrite app_nil_r.
  split; [reflexivity|]. split; [|exact I]. now constructor.
Qed.

Lemma ends_alloc P X R (d : ImageData) : ends P X R (alloc d).
Proof.
  intros w. exists (Ok (List.length (images w))), [], [d]. unfold alloc.
  rewrite app_nil_r. now split.
Qed.

Lemma ends_load P X R (r : nat) : ends P X R (load r).
Proof. intros w. exact (ends_lift P X R (Ok (deref w r)) I w). Qed.

Lemma ends_get_trace P X R : ends P X R get_trace.
Proof. intros w. exact (ends_lift P X R (Ok (trace w)) I w). Qed.

Lemma ends_lib_call {A : Type} P X (R : Error -> Prop) (r : pystr + A) :
  (forall t, R (LibraryError t)) -> ends P X R (lib_call r).
Proof. intros HR. destruct r; [apply ends_raise, HR|apply ends_ret]. Qed.

Lemma ends_os_call (P : Event -> Prop) X (R : Error -> Prop) (e : Event) :
  P e -> (forall t, R (LibraryError t)) -> ends P X R (os_call e).
Proof.
  intros He HR w. unfold os_call. destruct (os_accepts E (trace w) e) as [t|].
  - exact (ends_lift P X R (Raise (LibraryError t)) (HR t) w).
  - exact (ends_emit P X R e He w).
Qed.

Ltac ends_step :=
  first
    [ apply ends_ret | apply ends_alloc | apply ends_load | apply ends_get_trace
    | apply ends_raise; cbn; tauto
    | apply ends_exit; cbn; tauto
    | apply ends_lib_call; intros; cbn; tauto
    | apply ends_emit; cbn; tauto
    | apply ends_os_call; [cbn; tauto|intros; cbn; tauto]
    | apply ends_bind; [|intros]
    | match goal with
      | |- ends _ _ _ (if ?b then _ else _) => destruct b
      | |- ends _ _ _ (match ?x with _ => _ end) => destruct x
      | |- ends _ _ _ (let (_, _) := ?x in _) => destruct x
      end ].

Ltac ends_auto := repeat ends_step.

Ltac ends_side := hnf; auto.

Lemma ends_print (P : Event -> Prop) X R (text : pystr) :
  (forall t, P (Print t)) -> ends P X R (print text).
Proof. intros HP. apply ends_emit, HP. Qed.

Lemma no_request_print (t : pystr) : no_request (Print t).
Proof. exact I. Qed.

Lemma any_holds {A : Type} (a : A) : any a.
Proof. exact I. Qed.

Lemma none_any {A : Type} (P : A -> Prop) (a : A) : none a -> P a.
Proof. intros []. Qed.

Lemma ends_fail {A : Type} (P : Event -> Prop) R (e : Error) :
  (forall t, P (Print t)) -> ends P status_1 R (@fail A e).
Proof.
  intros HP. unfold fail. apply ends_bind; [now apply ends_print|intros _].
  now apply ends_exit.
Qed.

(** Reading the command line prints at most the help; it ends the script
    with status 1 (no argument) or 2 (a token refused by the parser). *)
Lemma ends_convert_args (c : CommandLine) :
  ends no_request status_1_or_2 any (convert_args_to_settings c).
Proof.
  unfold convert_args_to_settings.
  destruct (no_arguments c).
  - apply ends_bind; [now apply ends_emit|intros _]. apply ends_exit. now left.
  - apply ends_bind.
    + apply ends_lift. unfold args_size.
      destruct (arg_size c) as [[|t ts]|]; try exact I; [now right|].
      rewrite convert_tokens_spec. destruct (forallb token_ok (t :: ts)); [exact I|now right].
    + intros raw. repeat (apply ends_bind; [|intros]).
      * destruct (str_eqb _ []); [now apply ends_raise|apply ends_ret].
      * destruct (option_map Path_of_str (arg_icon c)) as [p|]; [|apply ends_ret].
        destruct (negb (is_file E p)); [now apply ends_raise|].
        destruct (st_size E p <=? 0); [now apply ends_raise|].
        destruct (_ && _); [now apply ends_raise|apply ends_ret].
      * destruct (_ && _); [now apply ends_raise|apply ends_ret].
      * apply ends_lift. clear. induction raw as [|r raw IH]; [exact I|].
        cbn [target_sizes].
        destruct r as [s|n].
        -- destruct (target_sizes raw); auto.
        -- unfold IconSize_init, IconSize_fields, IconSize_validate. cbn [size scale].
           destruct (negb _); [exact I|]. destruct (n <=? 0); [exact I|].
           cbn. destruct (target_sizes raw); auto.
      * destruct (_ <=? 0); [now apply ends_raise|apply ends_ret].
      * apply ends_ret.
Qed.

(** The methods of [IconImage] have no effect outside the program and
    never end the script. *)
Lemma ends_IconImage_init (id0 : pystr) (p : option Path) (b : option BytesIO)
      (i : option nat) :
  ends none none any (IconImage_init id0 p b i).
Proof.
  unfold IconImage_init, __post_init__, _load_bytes_from_path, _load_image_from_bytes.
  repeat first [apply ends_raise; exact I | apply ends_lib_call; intros; exact I
               | ends_step].
Qed.

Lemma ends_get_image_size (self : IconImage) : ends none none any (get_image_size self).
Proof.
  unfold get_image_size.
  repeat first [apply ends_raise; exact I | ends_step].
Qed.

Lemma ends_resize (self : IconImage) (icon_size : IconSize) (rs : Resampling) :
  ends none none any (resize_image_as_copy self icon_size rs).
Proof.
  unfold resize_image_as_copy.
  repeat first [apply ends_get_image_size | apply ends_raise; exact I
               | apply ends_lib_call; intros; exact I | ends_step].
Qed.

Lemma ends_download_loop (rs : list bytes) (ts : option Z) (tsh : pystr)
      (data : bytes) (n : Z) (m : nat) :
  ends any none none (download_loop rs ts tsh data n m).
Proof.
  revert data n m. induction rs as [|chunk rs IH]; intros data n m;
    cbn [download_loop]; [apply ends_ret|].
  destruct chunk; [apply ends_ret|].
  destruct (negb is_terminal_output); [apply IH|].
  destruct is_vt100_supported;
    (apply ends_bind; [now apply ends_emit|intros; apply IH]).
Qed.

Lemma ends_print_names (names : list pystr) : ends any none none (print_names names).
Proof.
  induction names as [|n names IH]; cbn [print_names]; [apply ends_ret|].
  apply ends_bind; [now apply ends_print|intros; exact IH].
Qed.

Lemma ends_get_latest_discord_icon : ends any none any get_latest_discord_icon.
Proof.
  unfold get_latest_discord_icon, download_with_progress, declared_size,
    extract_discord_icon.
  repeat first
    [ apply (ends_weaken any any none none none any (download_loop _ _ _ _ _ _));
        [apply ends_download_loop|auto|auto|intros; exact I]
    | apply (ends_weaken any any none none none any (print_names _));
        [apply ends_print_names|auto|auto|intros; exact I]
    | apply ends_print; intros; exact I
    | apply ends_raise; exact I | apply ends_lib_call; intros; exact I
    | apply ends_emit; exact I | ends_step ].
Qed.

Lemma ends_acquire_icon (st : Settings) : ends any none any (acquire_icon st).
Proof.
  unfold acquire_icon. destruct (icon_path st).
  - apply (ends_weaken none any none none any any);
      [apply ends_IconImage_init|apply none_any|auto|auto].
  - apply ends_bind; [apply ends_get_latest_discord_icon|intros raw].
    apply (ends_weaken none any none none any any);
      [apply ends_IconImage_init|apply none_any|auto|auto].
Qed.

(** With a custom icon nothing is fetched. *)
Lemma ends_acquire_custom (st : Settings) :
  icon_path st <> None -> ends no_request none any (acquire_icon st).
Proof.
  intros Hp. unfold acquire_icon. destruct (icon_path st); [|contradiction].
  apply (ends_weaken none no_request none none any any);
    [apply ends_IconImage_init|apply none_any|auto|auto].
Qed.

(** The settings keep the custom icon of the command line. *)
Lemma convert_args_icon (c : CommandLine) (w w' : World) (st : Settings) :
  convert_args_to_settings c w = (Ok st, w') ->
  icon_path st = option_map Path_of_str (arg_icon c).
Proof.
  unfold convert_args_to_settings. intros H. run_in H. branch H.
  all: injection H as <- <-; cbn [icon_path]; congruence.
Qed.

(** The part of the first block that follows the settings. *)
Lemma ends_load_body (P : Event -> Prop) (st : Settings) :
  (forall t, P (Print t)) ->
  ends P none any (acquire_icon st) ->
  ends P none any
    (icon_image <- acquire_icon st ;;
     print (lit "Loaded Icon:" ++ nl ++ lit "- Source: " ++ id icon_image) ;;;
     sz <- get_image_size icon_image ;;
     let '((original_width, original_height), icon_image) := sz in
     let (svg, icon_image) := is_svg icon_image in
     let human_size :=
       if svg then lit "Scalable Vector Graphics"
       else str_of_Z original_width ++ [c_x] ++ str_of_Z original_height in
     print (lit "- Input Size: " ++ human_size) ;;;
     let (svg, icon_image) := is_svg icon_image in
     if negb svg && negb (original_width =? original_height)
     then raise (NotSquare human_size)
     else ret (st, icon_image)).
Proof.
  intros HP Hacq.
  apply ends_bind; [exact Hacq|intros im].
  apply ends_bind; [now apply ends_print|intros _].
  apply ends_bind.
  - apply (ends_weaken none P none none any any);
      [apply ends_get_image_size|apply none_any|auto|auto].
  - intros [[ow oh] im2]. destruct (is_svg im2) as [svg im3].
    apply ends_bind; [now apply ends_print|intros _].
    destruct (is_svg im3) as [svg2 im4].
    destruct (_ && _); [now apply ends_raise|apply ends_ret].
Qed.

Lemma status_1_either (n : Z) : status_1 n -> status_1_or_2 n.
Proof. now left. Qed.

(** The first block never lets an exception through. *)
Lemma ends_load_icon (c : CommandLine) : ends any status_1_or_2 none (load_icon c).
Proof.
  unfold load_icon. apply ends_try_except.
  - apply ends_bind.
    + apply (ends_weaken no_request any status_1_or_2 status_1_or_2 any any);
        [apply ends_convert_args|intros; exact I|auto|auto].
    + intros st.
      apply (ends_weaken any any none status_1_or_2 any any);
        [|auto|apply none_any|auto].
      apply ends_load_body; [exact any_holds|apply ends_acquire_icon].
  - intros e. apply (ends_weaken any any status_1 status_1_or_2 none none);
      [|auto|apply status_1_either|auto].
    apply ends_fail. exact any_holds.
Qed.

Lemma ends_load_icon_custom (c : CommandLine) :
  arg_icon c <> None -> ends no_request status_1_or_2 none (load_icon c).
Proof.
  intros Hicon. unfold load_icon. apply ends_try_except.
  - apply (ends_bind_post _ _ _ (fun st => icon_path st <> None)).
    + apply ends_convert_args.
    + intros w st w' H. rewrite (convert_args_icon c w w' st H).
      destruct (arg_icon c); [discriminate|contradiction].
    + intros st Hst.
      apply (ends_weaken no_request no_request none status_1_or_2 any any);
        [|auto|apply none_any|auto].
      apply ends_load_body; [exact no_request_print|now apply ends_acquire_custom].
  - intros e. apply (ends_weaken no_request no_request status_1 status_1_or_2 none none);
      [|auto|apply status_1_either|auto].
    apply ends_fail. exact no_request_print.
Qed.

Lemma step_print (t : pystr) : step_event (Print t).
Proof. exact I. Qed.

Lemma step_no_request (e : Event) : step_event e -> no_request e.
Proof. destruct e; intros H; try exact I; contradiction. Qed.

(** The loop prints, creates directories and writes icons. *)
Lemma ends_install_loop (st : Settings) (sizes : list IconSize) :
  forall im installed, ends step_event none any (install_loop st im sizes installed).
Proof.
  induction sizes as [|sz sizes IH]; intros im installed; cbn [install_loop];
    [apply ends_ret|].
  apply ends_bind.
  - apply (ends_weaken none step_event none none any any);
      [apply ends_resize|apply none_any|auto|auto].
  - intros [scaled im2].
    apply ends_bind; [apply ends_print, step_print|intros _].
    apply ends_bind; [|intros _; apply IH].
    destruct (negb (simulate st)); [|apply ends_ret].
    apply ends_bind; [apply ends_os_call; [exact I|intros; exact I]|intros _].
    apply ends_bind; [apply ends_get_trace|intros t].
    apply ends_bind;
      [destruct (negb _); [now apply ends_raise|apply ends_ret]|intros _].
    apply ends_bind; [apply ends_os_call; [exact I|intros; exact I]|intros _].
    apply ends_bind; [apply ends_load|intros d].
    apply ends_os_call; [exact I|intros; exact I].
Qed.

(** The notification prints, touches and runs the cache command; it ends
    the script only with status 1, and only a system call of it can raise. *)
Lemma ends_notify_cache : ends step_event status_1 from_library notify_cache.
Proof.
  unfold notify_cache.
  apply ends_bind; [apply ends_print, step_print|intros _].
  apply ends_bind; [apply ends_os_call; [exact I|intros; exact I]|intros _].
  destruct (which E gnome_icon_cache_cmd); [|apply ends_ret].
  apply ends_bind; [apply ends_get_trace|intros t].
  apply ends_bind; [apply ends_lib_call; intros; exact I|intros result].
  apply ends_bind; [now apply ends_emit|intros _].
  destruct (negb _).
  - apply ends_bind; [apply ends_print, step_print|intros _].
    now apply ends_exit.
  - apply ends_print, step_print.
Qed.

(** The part after the first block: only the touch of the theme directory,
    the cache command and the writing of the removal file can raise. *)
Lemma ends_install (st : Settings) (im : IconImage) :
  ends no_request status_1 from_library (install st im).
Proof.
  unfold install.
  apply ends_bind; [apply ends_print, no_request_print|intros _].
  apply ends_bind.
  - apply ends_try_except.
    + apply (ends_weaken step_event no_request none status_1 any any);
        [apply ends_install_loop|apply step_no_request|apply none_any|auto].
    + intros e. apply ends_fail, no_request_print.
  - intros installed.
    apply ends_bind;
      [apply (ends_weaken step_event no_request status_1 status_1 from_library
                from_library);
         [apply ends_notify_cache|apply step_no_request|auto|auto]
      |intros _].
    apply ends_bind; [apply ends_os_call; [exact I|intros; exact I]|intros _].
    apply ends_bind; [apply ends_print, no_request_print|intros _].
    destruct (simulate st); [apply ends_print, no_request_print|apply ends_ret].
Qed.

Lemma ends_patch_main : ends any status_1 from_library patch_main.
Proof.
  unfold patch_main, patch_download_with_progress, declared_size,
    patch_extract_discord_icon, patch_get_image_size.
  repeat first
    [ apply (ends_weaken any any none status_1 none from_library
               (download_loop _ _ _ _ _ _));
        [apply ends_download_loop|auto|apply none_any|apply none_any]
    | apply (ends_weaken any any none status_1 none from_library (print_names _));
        [apply ends_print_names|auto|apply none_any|apply none_any]
    | apply ends_print; intros; exact I
    | apply ends_exit; reflexivity
    | apply ends_raise; exact I
    | apply ends_lib_call; intros; exact I
    | apply ends_os_call; [exact I|intros; exact I]
    | apply ends_emit; exact I
    | apply (ends_weaken step_event any status_1 status_1 from_library from_library
               notify_cache);
        [apply ends_notify_cache|intros; exact I|auto|auto]
    | ends_step ].
Qed.

Lemma ends_main (c : CommandLine) : ends any status_1_or_2 from_library (main c).
Proof.
  unfold main. apply ends_bind.
  - apply (ends_weaken any any status_1_or_2 status_1_or_2 none from_library);
      [apply ends_load_icon|auto|auto|apply none_any].
  - intros [st im]. cbn [fst snd].
    apply (ends_weaken no_request any status_1 status_1_or_2 from_library from_library);
      [apply ends_install|intros; exact I|apply status_1_either|auto].
Qed.

(** X5: with a custom icon the script never calls its downloader, whether
    or not the Discord icon was asked for as well: no run with [--icon] has a
    request of [urlopen] among its effects, so the Discord archive is not
    fetched.  (What CairoSVG loads on its own while it renders a custom SVG,
    which the script allows with [unsafe=True], is no effect of this
    trace.) *)
Theorem custom_icon_never_downloads (c : CommandLine) (w : World) :
  arg_icon c <> None ->
  exists r evs imgs,
    main c w = (r, mkWorld (trace w ++ evs) (images w ++ imgs))
    /\ Forall no_request evs
    /\ forall url, ~ In (HttpGet url) evs.
Proof.
  intros Hicon.
  assert (H : ends no_request status_1_or_2 from_library (main c)).
  { unfold main. apply ends_bind.
    - apply (ends_weaken no_request no_request status_1_or_2 status_1_or_2 none from_library);
        [now apply ends_load_icon_custom|auto|auto|apply none_any].
    - intros [st im]. cbn [fst snd].
      apply (ends_weaken no_request no_request status_1 status_1_or_2 from_library
               from_library);
        [apply ends_install|auto|apply status_1_either|auto]. }
  destruct (H w) as (r & evs & imgs & Heq & Hev & _).
  exists r, evs, imgs. split; [exact Heq|]. split; [exact Hev|].
  intros url Hin. rewrite Forall_forall in Hev. exact (Hev _ Hin).
Qed.


(** ** The settings *)

Lemma token_sizes_valid (tokens : list pystr) :
  Forall valid_size (flat_map token_sizes tokens).
Proof.
  induction tokens as [|t ts IH]; [constructor|].
  cbn [flat_map]. apply Forall_app. split; [|exact IH].
  unfold token_sizes. destruct (parse_size t) as [s|e|n] eqn:Hp; constructor;
    [|constructor].
  exact (IconSize_init_valid _ _ _ Hp).
Qed.

Lemma args_size_raw (c : CommandLine) (raw : list raw_size) :
  args_size c = Ok raw -> raw <> [] /\ Forall raw_valid raw.
Proof.
  unfold args_size. destruct (arg_size c) as [[|t ts]|].
  - discriminate.
  - rewrite convert_tokens_spec.
    destruct (forallb token_ok (t :: ts)) eqn:Hok; [|discriminate].
    intros [= <-]. split.
    + cbn [flat_map]. unfold token_sizes at 1. cbn [forallb] in Hok.
      apply andb_true_iff in Hok as [Ht _]. unfold token_ok in Ht.
      destruct (parse_size t); discriminate.
    + apply Forall_map, (token_sizes_valid (t :: ts)).
  - intros [= <-]. split; [discriminate|]. repeat constructor.
Qed.

Lemma target_sizes_valid (raw : list raw_size) (l : list IconSize) :
  Forall raw_valid raw -> target_sizes raw = Ok l ->
  List.length l = List.length raw /\ Forall valid_size l.
Proof.
  intros Hraw. revert l. induction Hraw as [|r raw Hr Hraw IH]; intros l.
  - intros [= <-]. split; [reflexivity|constructor].
  - cbn [target_sizes].
    destruct (match r with
              | RawIconSize s => Ok s
              | RawInt n => IconSize_init (SizeInt n) 1
              end) as [s|e|n] eqn:Hs; try discriminate.
    destruct (target_sizes raw) as [l0|e|n]; try discriminate.
    intros [= <-]. destruct (IH l0 eq_refl) as [Hlen Hall].
    split; [cbn [List.length]; now rewrite Hlen|]. constructor; [|exact Hall].
    destruct r as [s0|n0].
    + injection Hs as <-. exact Hr.
    + exact (IconSize_init_valid _ _ _ Hs).
Qed.

Lemma sorted_sizes (c : CommandLine) (raw : list raw_size) (l : list IconSize) :
  args_size c = Ok raw -> target_sizes raw = Ok l ->
  list_sort l <> [] /\ Forall valid_size (list_sort l).
Proof.
  intros Hraw Hl. destruct (args_size_raw c raw Hraw) as [Hne Hall].
  destruct (target_sizes_valid raw l Hall Hl) as [Hlen Hvalid].
  pose proof (list_sort_perm l) as Hperm. split.
  - intros Hnil. rewrite Hnil in Hperm. apply Permutation_sym, Permutation_nil in Hperm.
    subst l. destruct raw; [contradiction|discriminate].
  - revert Hvalid. now apply Permutation_Forall.
Qed.

Lemma args_size_no_raise (c : CommandLine) (e : Error) : args_size c <> Raise e.
Proof.
  unfold args_size. destruct (arg_size c) as [[|t ts]|]; try discriminate.
  rewrite convert_tokens_spec. destruct (forallb token_ok (t :: ts)); discriminate.
Qed.

(** The loop over the sizes can only fail with an error of the
    constructor. *)
Lemma target_sizes_raise (raw : list raw_size) (e : Error) :
  target_sizes raw = Raise e -> failure_kind e <> None.
Proof.
  induction raw as [|r raw IH]; [discriminate|].
  cbn [target_sizes]. destruct r as [s|n].
  - destruct (target_sizes raw) as [l|e0|n0]; try discriminate.
    intros [= ->]. now apply IH.
  - unfold IconSize_init, IconSize_fields.
    pose proof (IconSize_validate_cases (mkIconSize n 1)) as Hc.
    destruct (IconSize_validate (mkIconSize n 1)) as [s|e0|n0].
    + destruct (target_sizes raw) as [l|e1|n1]; try discriminate.
      intros [= ->]. now apply IH.
    + intros [= ->]. destruct e; try contradiction; discriminate.
    + discriminate.
Qed.

(** What a successful reading of the command line went through. *)
Lemma convert_args_inv (c : CommandLine) (w w' : World) (st : Settings) :
  convert_args_to_settings c w = (Ok st, w') ->
  let args_name := match arg_name c with Some n => n | None => lit "vesktop" end in
  let args_icon := option_map Path_of_str (arg_icon c) in
  exists raw l,
    args_size c = Ok raw /\ target_sizes raw = Ok l
    /\ str_eqb args_name [] = false
    /\ match args_icon with
       | Some p =>
           is_file E p = true /\ (st_size E p <=? 0) = false
           /\ negb (svg_supported E) && str_eqb (get_file_suffix p) (lit ".svg") = false
       | None => arg_discord c = true
       end
    /\ st = mkSettings args_name (list_sort l) (arg_simulate c) (arg_discord c) args_icon
    /\ w' = w.
Proof.
  unfold convert_args_to_settings, bind, lift, raise, ret, exit, emit.
  destruct (no_arguments c); [intros H; discriminate H|].
  destruct (args_size c) as [raw|e|n] eqn:Hraw; try (intros H; discriminate H).
  destruct (str_eqb _ []) eqn:Hname; cbv beta iota; [intros H; discriminate H|].
  destruct (option_map Path_of_str (arg_icon c)) as [p|].
  - destruct (is_file E p) eqn:Hfile; cbn [negb]; cbv beta iota;
      [|intros H; discriminate H].
    destruct (st_size E p <=? 0) eqn:Hsz; cbv beta iota; [intros H; discriminate H|].
    destruct (negb (svg_supported E) && _) eqn:Hsvg; cbv beta iota;
      [intros H; discriminate H|].
    cbn [is_not_None negb]. rewrite andb_false_r. cbv beta iota.
    destruct (target_sizes raw) as [l|e|n] eqn:Hl; try (intros H; discriminate H).
    destruct (Z.of_nat _ <=? 0); cbv beta iota; [intros H; discriminate H|].
    intros [= <- <-]. exists raw, l. repeat split; auto.
  - cbn [is_not_None negb]. rewrite andb_true_r.
    destruct (arg_discord c); cbn [negb]; cbv beta iota; [|intros H; discriminate H].
    destruct (target_sizes raw) as [l|e|n] eqn:Hl; try (intros H; discriminate H).
    destruct (Z.of_nat _ <=? 0); cbv beta iota; [intros H; discriminate H|].
    intros [= <- <-]. exists raw, l. repeat split; auto.
Qed.

(** X7: the settings that the script works with have been checked.  The
    name is not empty; there is at least one size, and every size is even
    and positive with a positive scale; an icon has been chosen; a custom
    icon is a regular, non-empty file, and a vector file only when CairoSVG
    is there.  Reading the command line has no effect, and its last check,
    for an empty list of sizes, can never fire. *)
Theorem settings_are_validated (c : CommandLine) (w w' : World) :
  (forall st,
     convert_args_to_settings c w = (Ok st, w') ->
     w' = w
     /\ name st <> []
     /\ icon_sizes st <> []
     /\ Forall valid_size (icon_sizes st)
     /\ (use_discord st = true \/ icon_path st <> None)
     /\ (forall p, icon_path st = Some p ->
           is_file E p = true /\ 0 < st_size E p
           /\ (get_file_suffix p = lit ".svg" -> svg_supported E = true)))
  /\ convert_args_to_settings c w <> (Raise NoTargetSize, w').
Proof.
  split.
  - intros st H. apply convert_args_inv in H.
    destruct H as (raw & l & Hraw & Hl & Hname & Hicon & -> & ->).
    destruct (sorted_sizes c raw l Hraw Hl) as [Hne Hvalid].
    cbn [name icon_sizes use_discord icon_path].
    split; [reflexivity|]. split.
    { intros Hn. rewrite Hn in Hname. discriminate Hname. }
    split; [exact Hne|]. split; [exact Hvalid|].
    destruct (option_map Path_of_str (arg_icon c)) as [p|].
    + destruct Hicon as (Hfile & Hsz & Hsvg). split; [right; discriminate|].
      intros p0 [= <-]. split; [exact Hfile|]. split; [now apply Z.leb_gt|].
      intros Hs. rewrite Hs in Hsvg. now destruct (svg_supported E).
    + split; [now left|]. intros p0 [=].
  - unfold convert_args_to_settings, bind, lift, raise, ret, exit, emit.
    destruct (no_arguments c); [discriminate|].
    pose proof (args_size_no_raise c) as Hnr.
    destruct (args_size c) as [raw|e|n] eqn:Hraw; try discriminate;
      [|now destruct (Hnr e)].
    destruct (str_eqb _ []); cbv beta iota; [discriminate|].
    assert (Hsizes : forall l, target_sizes raw = Ok l ->
                       (Z.of_nat (List.length (list_sort l)) <=? 0) = false).
    { intros l Hl. destruct (sorted_sizes c raw l Hraw Hl) as [Hne _].
      destruct (list_sort l); [contradiction|reflexivity]. }
    assert (Hloop : forall e w0,
              target_sizes raw = Raise e -> (@Raise Settings e, w0) <> (Raise NoTargetSize, w')).
    { intros e w0 He [= -> _]. now apply (target_sizes_raise raw NoTargetSize He). }
    destruct (option_map Path_of_str (arg_icon c)) as [p|].
    + destruct (negb (is_file E p)); cbv beta iota; [discriminate|].
      destruct (st_size E p <=? 0); cbv beta iota; [discriminate|].
      destruct (negb (svg_supported E) && _); cbv beta iota; [discriminate|].
      destruct (negb (arg_discord c) && _); cbv beta iota; [discriminate|].
      destruct (target_sizes raw) as [l|e|n]; try discriminate.
      * rewrite (Hsizes l eq_refl). discriminate.
      * now apply Hloop.
    + destruct (negb (arg_discord c) && _); cbv beta iota; [discriminate|].
      destruct (target_sizes raw) as [l|e|n]; try discriminate.
      * rewrite (Hsizes l eq_refl). discriminate.
      * now apply Hloop.
Qed.

(** ** What the downloader prints *)

Lemma download_loop_piped (rs : list bytes) (ts : option Z) (tsh : pystr)
      (data : bytes) (n : Z) (m : nat) (w : World) :
  isatty E = false ->
  download_loop rs ts tsh data n m w = (Ok (data ++ List.concat (chunks_read rs)), w).
Proof.
  intros Htty. revert data n m.
  induction rs as [|chunk rs IH]; intros data n m; cbn [download_loop chunks_read].
  - unfold ret. now rewrite app_nil_r.
  - destruct chunk as [|b chunk]; cbn [is_empty].
    + unfold ret. now rewrite app_nil_r.
    + unfold is_terminal_output. rewrite Htty. cbn [negb].
      rewrite IH. cbn [List.concat]. now rewrite app_assoc.
Qed.

Lemma download_loop_vt100 (rs : list bytes) (ts : option Z) (tsh : pystr)
      (data : bytes) (n : Z) (m : nat) (w : World) :
  isatty E = true -> os_name_nt E = false ->
  download_loop rs ts tsh data n m w
  = (Ok (data ++ List.concat (chunks_read rs)),
     mkWorld (trace w ++ map (fun k => vt100_line (progress_message ts tsh k))
                           (running_totals n (chunks_read rs)))
       (images w)).
Proof.
  intros Htty Hnt. revert data n m w.
  induction rs as [|chunk rs IH]; intros data n m w;
    cbn [download_loop chunks_read].
  - unfold ret. cbn [running_totals map]. rewrite !app_nil_r. now destruct w.
  - destruct chunk as [|b chunk]; cbn [is_empty].
    + unfold ret. cbn [running_totals map]. rewrite !app_nil_r. now destruct w.
    + unfold is_terminal_output, is_vt100_supported. rewrite Htty, Hnt. cbn [negb].
      unfold bind, print_noend, emit. rewrite IH. cbn [trace images].
      cbn [List.concat running_totals map].
      rewrite (app_assoc data (b :: chunk)).
      rewrite <- (app_assoc (trace w)). reflexivity.
Qed.

Lemma ljust_length (s : pystr) (width : nat) :
  List.length (ljust s width) = Nat.max (List.length s) width.
Proof. unfold ljust. rewrite length_app, repeat_length. lia. Qed.

Lemma download_loop_padded (rs : list bytes) (ts : option Z) (tsh : pystr)
      (data : bytes) (n : Z) (m : nat) (w : World) :
  isatty E = true -> os_name_nt E = true ->
  exists lines,
    download_loop rs ts tsh data n m w
    = (Ok (data ++ List.concat (chunks_read rs)),
       mkWorld (trace w ++ map Print lines) (images w))
    /\ Forall2 (fun k line => padded_line (progress_message ts tsh k) line)
         (running_totals n (chunks_read rs)) lines
    /\ Forall (fun line => (m < List.length line)%nat) lines
    /\ StronglySorted not_shorter lines.
Proof.
  intros Htty Hnt. revert data n m w.
  induction rs as [|chunk rs IH]; intros data n m w;
    cbn [download_loop chunks_read].
  - exists []. unfold ret. cbn [running_totals map]. rewrite !app_nil_r.
    split; [now destruct w|]. repeat constructor.
  - destruct chunk as [|b chunk]; cbn [is_empty].
    + exists []. unfold ret. cbn [running_totals map]. rewrite !app_nil_r.
      split; [now destruct w|]. repeat constructor.
    + unfold is_terminal_output, is_vt100_supported. rewrite Htty, Hnt. cbn [negb].
      set (n' := n + Z.of_nat (List.length (b :: chunk))).
      set (message := progress_message ts tsh n').
      unfold bind, print_noend, emit.
      destruct (IH (data ++ b :: chunk) n' (Nat.max m (List.length message))
                  (mkWorld (trace w ++ [Print ([c_cr] ++ ljust message m)]) (images w)))
        as (lines & Heq & Hpad & Hlong & Hsorted).
      exists (([c_cr] ++ ljust message m) :: lines).
      rewrite Heq. cbn [trace images List.concat running_totals map].
      fold n'. rewrite (app_assoc data (b :: chunk)).
      rewrite <- (app_assoc (trace w)). split; [reflexivity|].
      assert (Hlen : List.length ([c_cr] ++ ljust message m)
                     = S (Nat.max (List.length message) m)).
      { cbn [app List.length]. now rewrite ljust_length. }
      split; [|split].
      * constructor; [|exact Hpad].
        exists (m - List.length message)%nat. reflexivity.
      * constructor; [lia|]. revert Hlong. apply Forall_impl. intros line. lia.
      * constructor; [exact Hsorted|]. revert Hlong. apply Forall_impl.
        intros line. unfold not_shorter. lia.
Qed.

Lemma declared_size_announced (response : Response) (w : World) :
  header_readable response ->
  declared_size response w = (Ok (announced_size response), w).
Proof.
  intros Hr. unfold declared_size, announced_size, header_readable in *.
  destruct (content_length_header response) as [text|]; [|reflexivity].
  specialize (Hr text eq_refl).
  destruct (py_int E text) as [n|]; [|contradiction].
  destruct (n >? 0); reflexivity.
Qed.

(** X8: what a successful download prints.  When standard output is not a
    terminal, the only line is "Download complete.": no progress text
    reaches a pipe or a file.  On a VT100 terminal there is one progress
    line for every chunk read, each with the number of bytes read so far,
    and then the closing line after a line break. *)
Theorem download_output (url : pystr) (response : Response) (w : World) :
  urlopen E url = inr response -> getcode response = 200 ->
  header_readable response ->
  let body := List.concat (chunks_read (reads response)) in
  (isatty E = false ->
   download_with_progress url w
   = (Ok (mkBytesIO body 0),
      mkWorld (trace w ++ [HttpGet url; Print (lit "Download complete." ++ nl)])
        (images w)))
  /\ (isatty E = true -> os_name_nt E = false ->
      download_with_progress url w
      = (Ok (mkBytesIO body 0),
         mkWorld (trace w
                  ++ HttpGet url
                     :: map (fun k => vt100_line (progress_text response k))
                          (running_totals 0 (chunks_read (reads response)))
                  ++ [Print (nl ++ lit "Download complete." ++ nl)])
           (images w))).
Proof.
  intros Hopen Hcode Hread body. split.
  - intros Htty. unfold download_with_progress, bind, emit at 1.
    rewrite Hopen. cbn [lib_call]. unfold ret at 1. rewrite Hcode, Z.eqb_refl. cbn [negb]. cbv beta iota.
    rewrite (declared_size_announced response _ Hread).
    rewrite download_loop_piped by exact Htty.
    unfold is_terminal_output. rewrite Htty. unfold print, emit, ret, seek0.
    cbn [trace images content app]. rewrite <- app_assoc. reflexivity.
  - intros Htty Hnt. unfold download_with_progress, bind, emit at 1.
    rewrite Hopen. cbn [lib_call]. unfold ret at 1. rewrite Hcode, Z.eqb_refl. cbn [negb]. cbv beta iota.
    rewrite (declared_size_announced response _ Hread).
    rewrite download_loop_vt100 by assumption.
    unfold is_terminal_output. rewrite Htty. unfold print, emit, ret, seek0.
    cbn [trace images content app]. rewrite <- !app_assoc. reflexivity.
Qed.

(** X9: on a terminal without VT100 support every progress line is the
    return character, the progress text and trailing spaces, and no line is
    shorter than a line printed before it: each one covers what the
    terminal still shows of the previous ones. *)
Theorem padded_progress_lines (url : pystr) (response : Response) (w : World) :
  urlopen E url = inr response -> getcode response = 200 ->
  header_readable response ->
  isatty E = true -> os_name_nt E = true ->
  exists lines,
    download_with_progress url w
    = (Ok (mkBytesIO (List.concat (chunks_read (reads response))) 0),
       mkWorld (trace w ++ HttpGet url :: map Print lines
                ++ [Print (nl ++ lit "Download complete." ++ nl)])
         (images w))
    /\ Forall2 (fun k line => padded_line (progress_text response k) line)
         (running_totals 0 (chunks_read (reads response))) lines
    /\ StronglySorted not_shorter lines.
Proof.
  intros Hopen Hcode Hread Htty Hnt.
  destruct (download_loop_padded (reads response) (announced_size response)
              (total_size_text (announced_size response)) [] 0 0
              (mkWorld (trace w ++ [HttpGet url]) (images w)) Htty Hnt)
    as (lines & Heq & Hpad & _ & Hsorted).
  exists lines. split; [|split; assumption].
  unfold download_with_progress, bind, emit at 1.
  rewrite Hopen. cbn [lib_call]. unfold ret at 1. rewrite Hcode, Z.eqb_refl. cbn [negb]. cbv beta iota.
  rewrite (declared_size_announced response _ Hread).
  rewrite Heq.
  unfold is_terminal_output. rewrite Htty. unfold print, emit, ret, seek0.
  cbn [trace images content app]. rewrite <- !app_assoc. reflexivity.
Qed.

(** ** The icon inside the archive *)

Lemma getmember_spec (members : list (pystr * option bytes)) (name : pystr) :
  match getmember members name with
  | Some d => last_member members name d
  | None => ~ In name (map fst members)
  end.
Proof.
  induction members as [|[n d] rest IH]; cbn [getmember]; [intros []|].
  destruct (getmember rest name) as [x|].
  - destruct IH as (pre & post & -> & Hpost).
    exists ((n, d) :: pre), post. now split.
  - destruct (str_eqb n name) eqn:Hn.
    + apply str_eqb_eq in Hn. subst n. exists [], rest. now split.
    + cbn [map fst In]. intros [Heq|Hin]; [|contradiction].
      subst n. assert (H : str_eqb name name = true) by now apply str_eqb_eq.
      congruence.
Qed.

Lemma last_member_unique (members : list (pystr * option bytes)) (name : pystr)
      (d : option bytes) :
  last_member members name d -> getmember members name = Some d.
Proof.
  intros (pre & post & -> & Hpost).
  induction pre as [|[n0 d0] pre IH]; cbn [app getmember].
  - pose proof (getmember_spec post name) as H.
    destruct (getmember post name) as [x|].
    + destruct H as (pre' & post' & -> & _). exfalso. apply Hpost.
      rewrite map_app. apply in_or_app. right. now left.
    + assert (Hn : str_eqb name name = true) by now apply str_eqb_eq.
      now rewrite Hn.
  - now rewrite IH.
Qed.

Lemma extractfile_found (members : list (pystr * option bytes)) (name : pystr)
      (data : bytes) :
  extractfile members name = Some data <-> last_member members name (Some data).
Proof.
  unfold extractfile. split.
  - pose proof (getmember_spec members name) as H.
    destruct (getmember members name) as [[d|]|]; try discriminate.
    now intros [= <-].
  - intros H. now rewrite (last_member_unique _ _ _ H).
Qed.

Lemma extractfile_missing (members : list (pystr * option bytes)) (name : pystr) :
  extractfile members name = None <-> no_such_file members name.
Proof.
  unfold extractfile, no_such_file. split.
  - pose proof (getmember_spec members name) as H.
    destruct (getmember members name) as [[d|]|]; try discriminate; auto.
  - intros [Hno|Hlast].
    + pose proof (getmember_spec members name) as H.
      destruct (getmember members name) as [d|]; [|reflexivity].
      destruct H as (pre & post & -> & _). exfalso. apply Hno.
      rewrite map_app. apply in_or_app. right. now left.
    + now rewrite (last_member_unique _ _ _ Hlast).
Qed.

Lemma print_names_spec (names : list pystr) (w : World) :
  print_names names w
  = (Ok tt, mkWorld (trace w ++ map (fun n => Print (lit "- " ++ n ++ nl)) names)
              (images w)).
Proof.
  revert w. induction names as [|n names IH]; intros w; cbn [print_names map].
  - unfold ret. rewrite app_nil_r. now destruct w.
  - unfold bind, print, emit. rewrite IH. cbn [trace images].
    now rewrite <- !app_assoc.
Qed.

Lemma extract_listing (tar_data : BytesIO) (p : Path) (w : World)
      (members : list (pystr * option bytes)) :
  tar_open E (skipn (position tar_data) (content tar_data)) = inr members ->
  extract_discord_icon tar_data p w
  = match extractfile members (Path_str p) with
    | Some data =>
        (Ok (mkBytesIO data 0),
         mkWorld (trace w ++ listing members ++ [Print (found_message p data ++ nl)])
           (images w))
    | None =>
        (Raise (MemberNotFound p), mkWorld (trace w ++ listing members) (images w))
    end.
Proof.
  intros Hopen. unfold extract_discord_icon, bind at 1. rewrite Hopen.
  cbn [lib_call]. unfold ret at 1. unfold bind at 1, print at 1, emit at 1.
  unfold bind at 1. rewrite print_names_spec. cbn [trace images].
  rewrite map_map. unfold listing.
  destruct (extractfile members (Path_str p)) as [data|].
  - unfold bind, print, emit, ret, BytesIO_new. cbn [trace images].
    rewrite <- !app_assoc. reflexivity.
  - unfold raise. rewrite <- !app_assoc. reflexivity.
Qed.

Lemma patch_extract_listing (tar_data : BytesIO) (p : Path) (w : World)
      (members : list (pystr * option bytes)) :
  tar_open E (skipn (position tar_data) (content tar_data)) = inr members ->
  patch_extract_discord_icon tar_data p w
  = match extractfile members (Path_str p) with
    | Some data =>
        (Ok (Some (mkBytesIO data 0)),
         mkWorld (trace w ++ listing members ++ [Print (found_message p data ++ nl)])
           (images w))
    | None =>
        (Ok None,
         mkWorld (trace w ++ listing members
                  ++ [Print (lit "Error: " ++ Path_str p
                             ++ lit " was not found in archive!" ++ nl)])
           (images w))
    end.
Proof.
  intros Hopen. unfold patch_extract_discord_icon, bind at 1. rewrite Hopen.
  cbn [lib_call]. unfold ret at 1. unfold bind at 1, print at 1, emit at 1.
  unfold bind at 1. rewrite print_names_spec. cbn [trace images].
  rewrite map_map. unfold listing.
  destruct (extractfile members (Path_str p)) as [data|].
  - unfold bind, print, emit, ret, BytesIO_new. cbn [trace images].
    rewrite <- !app_assoc. reflexivity.
  - unfold bind, print, emit, ret. cbn [trace images].
    rewrite <- !app_assoc. reflexivity.
Qed.


(** The first block when the image cannot be acquired. *)
Lemma load_icon_acquire_raise (c : CommandLine) (w0 w1 w2 : World) (st : Settings)
      (e : Error) :
  convert_args_to_settings c w0 = (Ok st, w1) ->
  acquire_icon st w1 = (Raise e, w2) ->
  load_icon c w0 = (Exit 1, after w2 (Print (lit "Error: " ++ Error_message e ++ nl))).
Proof.
  intros Hargs Hacq. unfold load_icon, try_except, bind at 1. rewrite Hargs.
  unfold bind at 1. rewrite Hacq. reflexivity.
Qed.

Lemma download_ok (url : pystr) (response : Response) (w : World) :
  urlopen E url = inr response -> getcode response = 200 ->
  header_readable response ->
  exists lines,
    download_with_progress url w
    = (Ok (mkBytesIO (List.concat (chunks_read (reads response))) 0),
       mkWorld (trace w ++ HttpGet url :: map Print lines) (images w)).
Proof.
  intros Hopen Hcode Hread.
  destruct (download_loop_spec (reads response) (announced_size response)
              (total_size_text (announced_size response)) [] 0 0
              (mkWorld (trace w ++ [HttpGet url]) (images w))) as (lines & Heq).
  unfold download_with_progress, bind, emit at 1.
  rewrite Hopen. cbn [lib_call]. unfold ret at 1.
  rewrite Hcode, Z.eqb_refl. cbn [negb]. cbv beta iota.
  rewrite (declared_size_announced response _ Hread), Heq.
  cbn [trace images app].
  destruct is_terminal_output; unfold print, emit, ret, seek0; cbn [trace images content].
  - exists (lines ++ [(nl ++ lit "Download complete.") ++ nl]).
    rewrite map_app, <- !app_assoc. reflexivity.
  - exists (lines ++ [lit "Download complete." ++ nl]).
    rewrite map_app, <- !app_assoc. reflexivity.
Qed.

(** X11: the download and the extraction, composed.  When the server
    answers 200, the archive reader is given the whole body, and the icon
    the script loads is the last member named [Discord/discord.png] of that
    archive.  When the archive has no such file the script ends with status
    1, and the last line it prints carries the prefix twice:
    "Error: Error: Discord/discord.png was not found in archive!". *)
Theorem discord_icon_flow (response : Response)
        (members : list (pystr * option bytes)) (w : World) :
  urlopen E discord_tar_url = inr response -> getcode response = 200 ->
  header_readable response ->
  tar_open E (List.concat (chunks_read (reads response))) = inr members ->
  (forall data, last_member members (lit "Discord/discord.png") (Some data) ->
     exists w', get_latest_discord_icon w = (Ok (mkBytesIO data 0), w'))
  /\ (no_such_file members (lit "Discord/discord.png") ->
      (exists w', get_latest_discord_icon w
                  = (Raise (MemberNotFound discord_png_path), w'))
      /\ forall c st w0,
           convert_args_to_settings c w0 = (Ok st, w) -> icon_path st = None ->
           exists w',
             main c w0 = (Exit 1, w')
             /\ last (trace w') PrintHelp
                = Print (lit "Error: Error: Discord/discord.png was not found in archive!"
                         ++ nl)).
Proof.
  intros Hopen Hcode Hread Htar.
  assert (Hrun : forall w1, exists w3,
            get_latest_discord_icon w1
            = (match extractfile members (lit "Discord/discord.png") with
               | Some data => Ok (mkBytesIO data 0)
               | None => Raise (MemberNotFound discord_png_path)
               end, w3)).
  { intros w1. unfold get_latest_discord_icon, bind at 1, print at 1, emit at 1.
    destruct (download_ok discord_tar_url response
                (mkWorld (trace w1 ++ [Print (fetching_message ++ nl)]) (images w1))
                Hopen Hcode Hread) as (lines & Hdl).
    unfold bind at 1. rewrite Hdl.
    unfold bind at 1, print at 1, emit at 1. unfold bind at 1.
    rewrite (extract_listing _ discord_png_path _ members) by exact Htar.
    change (Path_str discord_png_path) with (lit "Discord/discord.png").
    destruct (extractfile members (lit "Discord/discord.png")) as [data|].
    - unfold bind, print, emit, ret. eexists. reflexivity.
    - eexists. reflexivity. }
  split.
  - intros data Hlast. apply extractfile_found in Hlast.
    destruct (Hrun w) as (w3 & Heq). rewrite Hlast in Heq. now exists w3.
  - intros Hno. apply extractfile_missing in Hno. split.
    + destruct (Hrun w) as (w3 & Heq). rewrite Hno in Heq. now exists w3.
    + intros c st w0 Hargs Hpath.
      destruct (Hrun w) as (w3 & Heq). rewrite Hno in Heq.
      assert (Hacq : acquire_icon st w = (Raise (MemberNotFound discord_png_path), w3)).
      { unfold acquire_icon. rewrite Hpath. unfold bind. now rewrite Heq. }
      pose proof (load_icon_acquire_raise c w0 w w3 st _ Hargs Hacq) as Hload.
      eexists. unfold main, bind. rewrite Hload. split; [reflexivity|].
      unfold after. cbn [trace]. rewrite last_last. reflexivity.
Qed.

(** ** What a constructed image can do *)

Lemma nonempty_bytes (data : bytes) : (Z.of_nat (List.length data) <=? 0) = false -> data <> [].
Proof. intros H ->. discriminate H. Qed.

Lemma constructed_loaded (id0 : pystr) (p : option Path) (b : option BytesIO)
      (i : option nat) (w w' : World) (im : IconImage) :
  IconImage_init id0 p b i w = (Ok im, w') -> loaded im.
Proof.
  destruct p as [p|], b as [b|], i as [r|]; try (intros H; discriminate H).
  - rewrite IconImage_init_path.
    destruct (read_bytes E p) as [text|data]; [discriminate|]. cbv zeta.
    destruct (str_eqb _ _).
    + destruct (_ <=? 0) eqn:Hlen; [discriminate|]. intros [= <- _].
      split; [|discriminate]. intros _. eexists. split; [reflexivity|].
      now apply nonempty_bytes.
    + destruct (pil_open E data) as [text|d]; [discriminate|].
      destruct (_ <=? 0); [discriminate|]. intros [= <- _].
      split; [discriminate|]. intros _. discriminate.
  - rewrite IconImage_init_bytes. cbv zeta.
    destruct (contains _ _).
    + destruct (_ <=? 0) eqn:Hlen; [discriminate|]. intros [= <- _].
      split; [|discriminate]. intros _. eexists. split; [reflexivity|].
      now apply nonempty_bytes.
    + destruct (pil_open E (content b)) as [text|d]; [discriminate|].
      destruct (_ <=? 0); [discriminate|]. intros [= <- _].
      split; [discriminate|]. intros _. discriminate.
  - rewrite IconImage_init_img. intros [= <- _].
    split; [discriminate|]. intros _. discriminate.
Qed.

Lemma is_svg_raw_bytes (self : IconImage) (b : BytesIO) :
  raw_bytes self = Some b ->
  exists b', raw_bytes (snd (is_svg self)) = Some b' /\ content b' = content b.
Proof.
  intros Hb. destruct (is_svg_same_source self) as (_ & _ & _ & H).
  rewrite Hb in H. cbn [option_map] in H.
  destruct (raw_bytes (snd (is_svg self))) as [b'|]; [|discriminate].
  injection H as H. now exists b'.
Qed.

Lemma loaded_get_image_size (im : IconImage) (w : World) :
  loaded im ->
  exists width height,
    get_image_size im w = (Ok ((width, height), snd (is_svg im)), w).
Proof.
  intros [_ Hraster]. unfold get_image_size.
  pose proof (is_svg_img im) as Himg.
  destruct (is_svg im) as [svg self]. cbn [fst snd] in *.
  destruct svg; [now exists (-1), (-1)|].
  rewrite Himg. destruct (img im) as [r|]; [|now destruct (Hraster eq_refl)].
  unfold bind, load, ret. eauto.
Qed.

Lemma loaded_resize (im : IconImage) (icon_size : IconSize) (rs : Resampling)
      (w : World) :
  loaded im ->
  match fst (resize_image_as_copy im icon_size rs w) with
  | Ok _ => True
  | Raise e => from_library e
  | Exit _ => False
  end.
Proof.
  intros Hl. pose proof Hl as [Hvector Hraster].
  unfold resize_image_as_copy. cbv zeta.
  destruct (loaded_get_image_size im w Hl) as (cw & ch & Hsize).
  pose proof (is_svg_img im) as Himg.
  destruct (is_svg im) as [svg self] eqn:Hsvg. cbn [fst snd] in *.
  destruct svg.
  - destruct (Hvector eq_refl) as (b & Hb & _).
    pose proof (is_svg_raw_bytes im b Hb) as (b' & Hb' & _).
    rewrite Hsvg in Hb'. cbn [snd] in Hb'. rewrite Hb'.
    cbv beta iota zeta delta [read_all seek0 content position].
    unfold bind, lib_call.
    destruct (svg2png E _ _ _) as [text|png]; [exact I|].
    unfold ret at 1. destruct (pil_open E png) as [text|d]; [exact I|].
    exact I.
  - assert (Hsize' : get_image_size self w = (Ok ((cw, ch), self), w)).
    { pose proof (is_svg_idem im) as Hidem. rewrite Hsvg in Hidem. cbn [snd] in Hidem.
      unfold get_image_size in *. rewrite Hidem. rewrite Hsvg in Hsize.
      exact Hsize. }
    unfold bind at 1. rewrite Hsize'. cbv beta iota.
    rewrite Himg. destruct (img im) as [r|]; [|now destruct (Hraster eq_refl)].
    unfold bind, load, alloc, ret.
    destruct (_ && _); exact I.
Qed.

(** X12: an image source that has been constructed can be used.  Whatever
    the one input was, [get_image_size] returns on it, and a resize can only
    fail inside CairoSVG or Pillow: the guards of the methods against a
    missing image, missing bytes or a missing path never fire on it.  A
    vector source holds bytes, and they are not empty. *)
Theorem constructed_image_is_usable (id0 : pystr) (p : option Path)
        (b : option BytesIO) (i : option nat) (w w' : World) (im : IconImage) :
  IconImage_init id0 p b i w = (Ok im, w') ->
  loaded im
  /\ (forall w2, exists width height,
        get_image_size im w2 = (Ok ((width, height), snd (is_svg im)), w2))
  /\ (forall icon_size rs w2,
        match fst (resize_image_as_copy im icon_size rs w2) with
        | Ok _ => True
        | Raise e => from_library e
        | Exit _ => False
        end).
Proof.
  intros H. apply constructed_loaded in H. split; [exact H|]. split.
  - intros w2. now apply loaded_get_image_size.
  - intros icon_size rs w2. now apply loaded_resize.
Qed.

(** X13: on a vector source the resize operation rewinds the buffer and
    hands all of its bytes to CairoSVG, with the size as width and as
    height; the PNG that comes back is decoded into a new image object.  The
    buffer is left at its end.  Neither the resampling filter nor the scale
    of the target size plays a part: a size at scale 2 is rendered with the
    same number of pixels as at scale 1. *)
Theorem resize_vector_source (self : IconImage) (icon_size : IconSize)
        (rs : Resampling) (w : World) (b : BytesIO) :
  fst (is_svg self) = true -> raw_bytes self = Some b ->
  resize_image_as_copy self icon_size rs w
  = match svg2png E (content b) (size icon_size) (size icon_size) with
    | inl text => (Raise (LibraryError text), w)
    | inr png =>
        match pil_open E png with
        | inl text => (Raise (LibraryError text), w)
        | inr d =>
            (Ok (List.length (images w),
                 set_raw_bytes (snd (is_svg self))
                   (Some (mkBytesIO (content b) (List.length (content b))))),
             mkWorld (trace w) (images w ++ [d]))
        end
    end
  /\ (forall rs' scale',
        resize_image_as_copy self (mkIconSize (size icon_size) scale') rs' w
        = resize_image_as_copy self icon_size rs w).
Proof.
  intros Hsvg Hb. split.
  - unfold resize_image_as_copy. cbv zeta.
    destruct (is_svg_raw_bytes self b Hb) as (b' & Hb' & Hcontent).
    destruct (is_svg self) as [svg self'] eqn:Heq. cbn [fst snd] in *. subst svg.
    rewrite Hb'. cbv beta iota zeta delta [read_all seek0 content position].
    destruct b' as [data pos]. cbn [content] in Hcontent. subst data.
    cbn [content position skipn Nat.add]. unfold bind, lib_call.
    destruct (svg2png E _ _ _) as [text|png]; [reflexivity|].
    unfold ret at 1. destruct (pil_open E png) as [text|d]; [reflexivity|].
    reflexivity.
  - intros rs' scale'. unfold resize_image_as_copy. cbv zeta. cbn [size].
    destruct (is_svg self) as [svg self']. cbn [fst] in Hsvg. subst svg.
    reflexivity.
Qed.

(** ** A run that writes *)

(** The loop of a real run: the sizes are installed one after the other,
    each with its line, its directory and its file opened and written, until
    one fails. *)
Lemma install_loop_real (st : Settings) :
  simulate st = false ->
  forall sizes im installed w,
  exists r ds tail imgs,
    install_loop st im sizes installed w
    = (r, mkWorld (trace w
                   ++ flat_map (install_events (name st))
                        (combine (firstn (List.length ds) sizes) ds)
                   ++ tail)
            (images w ++ imgs))
    /\ match r with
       | Ok l => List.length ds = List.length sizes /\ tail = []
                 /\ l = installed ++ map (icon_target_file (name st)) sizes
       | Raise _ => exists sz, nth_error sizes (List.length ds) = Some sz
                               /\ interrupted (name st) sz tail
       | Exit _ => False
       end.
Proof.
  intros Hsim sizes. induction sizes as [|sz rest IH]; intros im installed w.
  - exists (Ok installed), [], [], []. cbn [install_loop ret firstn combine flat_map].
    rewrite !app_nil_r. destruct w. auto.
  - cbn [install_loop]. unfold bind at 1.
    destruct (resize_frame im sz LANCZOS w) as (r0 & imgs0 & -> & Hexit).
    destruct r0 as [[scaled im1]|e|n]; [| |now contradiction (Hexit n)].
    2:{ exists (Raise e), [], [], imgs0. cbn [firstn combine flat_map List.length].
        rewrite !app_nil_r. split; [reflexivity|].
        exists sz. split; [reflexivity|now left]. }
    unfold bind at 1. unfold print at 1, emit at 1. cbn [trace images].
    rewrite Hsim. cbn [negb]. unfold bind at 1.
    unfold bind at 1. unfold os_call at 1. cbn [trace images].
    set (line := Print ((lit "- "
                         ++ quoted (Path_str (icon_target_file (name st) sz))) ++ nl)).
    assert (Hline : line = target_line (name st) sz).
    { unfold line, target_line. now rewrite <- app_assoc. }
    destruct (os_accepts E (trace w ++ [line]) (Mkdir (icon_parent_dir sz))) as [text|].
    { exists (Raise (LibraryError text)), [], [line], imgs0.
      cbn [firstn combine flat_map List.length app]. split; [reflexivity|].
      exists sz. split; [reflexivity|]. right. left. now rewrite Hline. }
    unfold emit at 1. cbn [trace images].
    unfold bind at 1, get_trace at 1. cbn [trace images].
    unfold bind at 1.
    destruct (negb (is_dir E _ (icon_parent_dir sz))).
    { unfold raise at 1.
      exists (Raise (MkdirFailed (icon_parent_dir sz))), [],
        [line; Mkdir (icon_parent_dir sz)], imgs0.
      cbn [firstn combine flat_map List.length app]. rewrite <- app_assoc.
      split; [reflexivity|].
      exists sz. split; [reflexivity|]. right. right. left. now rewrite Hline. }
    unfold ret at 1. unfold bind at 1. unfold os_call at 1. cbn [trace images].
    match goal with
    | |- context [os_accepts E ?t (OpenWb ?p)] =>
        destruct (os_accepts E t (OpenWb p)) as [text|]
    end.
    { exists (Raise (LibraryError text)), [],
        [line; Mkdir (icon_parent_dir sz)], imgs0.
      cbn [firstn combine flat_map List.length app]. rewrite <- app_assoc.
      split; [reflexivity|].
      exists sz. split; [reflexivity|]. right. right. left. now rewrite Hline. }
    unfold emit at 1. cbn [trace images].
    unfold bind at 1, load at 1. unfold os_call at 1. cbn [trace images].
    match goal with
    | |- context [os_accepts E ?t (WritePng ?p ?d)] =>
        set (d0 := d); destruct (os_accepts E t (WritePng p d0)) as [text|]
    end.
    { exists (Raise (LibraryError text)), [],
        [line; Mkdir (icon_parent_dir sz);
         OpenWb (icon_target_file (name st) sz)], imgs0.
      cbn [firstn combine flat_map List.length app]. rewrite <- !app_assoc.
      split; [reflexivity|].
      exists sz. split; [reflexivity|]. right. right. right. now rewrite Hline. }
    unfold emit at 1. cbn [trace images].
    match goal with
    | |- context [install_loop st im1 rest ?l ?w1] =>
        destruct (IH im1 l w1) as (r & ds & tail & imgs & -> & Hr)
    end.
    exists r, (d0 :: ds), tail, (imgs0 ++ imgs).
    cbn [trace images List.length firstn combine flat_map install_events fst snd].
    split.
    + f_equal. f_equal; [|now rewrite app_assoc].
      change (install_events (name st) (sz, d0))
        with [target_line (name st) sz; Mkdir (icon_parent_dir sz);
              OpenWb (icon_target_file (name st) sz);
              WritePng (icon_target_file (name st) sz) d0].
      rewrite <- Hline. rewrite <- !app_assoc. reflexivity.
    + destruct r as [l|e|n]; [|exact Hr|exact Hr].
      destruct Hr as (Hlen & -> & ->). split; [now rewrite Hlen|].
      split; [reflexivity|]. cbn [map]. now rewrite <- app_assoc.
Qed.

(** The part of the script after loading, in a real run: either every
    size has been installed and the rest are the notification and the
    removal instructions, or the loop failed at some size and the script
    printed the error and left. *)
Lemma install_real (st : Settings) (im : IconImage) (w : World) :
  simulate st = false ->
  exists r ds tail imgs,
    install st im w
    = (r, mkWorld (trace w
                   ++ saving_line (str_title E (name st))
                      :: flat_map (install_events (name st))
                           (combine (firstn (List.length ds) (icon_sizes st)) ds)
                      ++ tail)
            (images w ++ imgs))
    /\ ((List.length ds = List.length (icon_sizes st)
         /\ Forall simulate_allowed tail
         /\ (r = Ok tt ->
             In (Utime icon_theme_dir) tail /\ In (removal_event st) tail))
        \/ (exists sz part e,
              nth_error (icon_sizes st) (List.length ds) = Some sz
              /\ interrupted (name st) sz part
              /\ tail = part ++ [Print (lit "Error: " ++ Error_message e ++ nl)]
              /\ r = Exit 1)).
Proof.
  intros Hsim. unfold install. unfold bind at 1. unfold print at 1, emit at 1.
  unfold bind at 1. unfold try_except.
  match goal with
  | |- context [install_loop st im ?s ?l ?w1] =>
      destruct (install_loop_real st Hsim s im l w1)
        as (r1 & ds & tail1 & imgs & -> & Hr1)
  end.
  cbn [trace images].
  assert (Hsave : Print ((nl ++ lit "Saving new " ++ str_title E (name st)
                          ++ lit " app icons to disk:") ++ nl)
                  = saving_line (str_title E (name st))).
  { unfold saving_line. now rewrite <- !app_assoc. }
  rewrite Hsave.
  destruct r1 as [installed|e|n]; [| |contradiction].
  2:{ destruct Hr1 as (sz & Hnth & Hpart).
      unfold fail, bind, print, emit, exit. cbn [trace images].
      eexists (Exit 1), ds, (tail1 ++ [_]), imgs. split.
      - rewrite <- !app_assoc. reflexivity.
      - right. exists sz, tail1, e. repeat split; assumption. }
  destruct Hr1 as (Hlen & -> & ->). cbn [app]. rewrite app_nil_r.
  unfold bind at 1.
  match goal with
  | |- context [notify_cache ?w1] =>
      destruct (notify_cache_effects w1) as (r2 & evs2 & -> & Hevs2 & Hutime)
  end.
  cbn [trace images].
  destruct r2 as [[]|e|n].
  2:{ eexists _, ds, evs2, imgs. split.
      - rewrite <- !app_assoc. reflexivity.
      - left. repeat split; try assumption; discriminate. }
  2:{ eexists _, ds, evs2, imgs. split.
      - rewrite <- !app_assoc. reflexivity.
      - left. repeat split; try assumption; discriminate. }
  specialize (Hutime eq_refl).
  unfold os_call, print, bind, emit. cbn [trace images].
  match goal with
  | |- context [os_accepts E ?t ?e] => destruct (os_accepts E t e) as [text|]
  end.
  { eexists _, ds, evs2, imgs. split.
    - rewrite <- !app_assoc. reflexivity.
    - left. repeat split; try assumption; discriminate. }
  cbn [trace images]. rewrite Hsim. unfold ret. cbn [trace images].
  eexists _, ds, (evs2 ++ [_; _]), imgs. split.
  - rewrite <- !app_assoc. reflexivity.
  - left. split; [exact Hlen|]. split.
    + apply Forall_app. split; [exact Hevs2|]. repeat constructor.
    + intros _. split.
      * apply in_or_app. now left.
      * apply in_or_app. right. left. unfold removal_event. reflexivity.
Qed.

Lemma written_icons_app (a b : list Event) :
  written_icons (a ++ b) = written_icons a ++ written_icons b.
Proof. apply flat_map_app. Qed.

Lemma written_icons_allowed (evs : list Event) :
  Forall simulate_allowed evs -> written_icons evs = [].
Proof.
  induction 1 as [|e evs He _ IH]; [reflexivity|].
  cbn [written_icons flat_map]. fold (written_icons evs). rewrite IH.
  destruct e; try reflexivity; contradiction.
Qed.

Lemma written_icons_installed (target_icon_name : pystr) (sizes : list IconSize)
      (ds : list ImageData) :
  written_icons (flat_map (install_events target_icon_name) (combine sizes ds))
  = map (icon_target_file target_icon_name) (firstn (List.length ds) sizes).
Proof.
  revert ds. induction sizes as [|sz sizes IH]; intros [|d ds]; try reflexivity.
  cbn [combine flat_map List.length firstn map]. rewrite written_icons_app, IH.
  reflexivity.
Qed.

(** X14: a real run that completes.  Its settings are those read from the
    command line.  After the loading phase, which only prints and downloads,
    the script works through the sizes of the settings in order and for each
    one prints the target, creates the directory, opens the file and writes
    the PNG; then come the notification and the removal instructions and
    nothing else.  The files it has written are the targets of the sizes of
    the settings, and they are the files the removal instructions name. *)
Theorem real_run_effects (c : CommandLine) (w w' : World) :
  arg_simulate c = false -> main c w = (Ok tt, w') ->
  exists st ds pre rest,
    convert_args_to_settings c w = (Ok st, w)
    /\ List.length ds = List.length (icon_sizes st)
    /\ trace w'
       = trace w ++ pre
         ++ saving_line (str_title E (name st))
            :: flat_map (install_events (name st)) (combine (icon_sizes st) ds)
         ++ rest
    /\ Forall harmless pre /\ Forall simulate_allowed rest
    /\ In (Utime icon_theme_dir) rest /\ In (removal_event st) rest
    /\ written_icons (trace w')
       = written_icons (trace w)
         ++ map (icon_target_file (name st)) (icon_sizes st).
Proof.
  intros Hsim Hmain. unfold main, bind in Hmain.
  destruct (quiet_load_icon c w) as (r1 & pre & imgs1 & Hload & Hpre).
  rewrite Hload in Hmain.
  destruct r1 as [[st im]|e|n]; try discriminate Hmain.
  assert (Hc : convert_args_to_settings c w = (Ok st, w)).
  { apply load_icon_settings in Hload as [w1 Hc].
    now rewrite <- (convert_args_world c w w1 st Hc) at 2. }
  assert (Hst : simulate st = false).
  { now rewrite (convert_args_simulate c w w st Hc). }
  cbn [fst snd] in Hmain.
  destruct (install_real st im (mkWorld (trace w ++ pre) (images w ++ imgs1)) Hst)
    as (r & ds & tail & imgs & Heq & Hcases).
  rewrite Heq in Hmain. injection Hmain as -> <-. cbn [trace images].
  destruct Hcases as [(Hlen & Htail & Hok)|(sz & part & e & _ & _ & _ & Hr)];
    [|discriminate Hr].
  destruct (Hok eq_refl) as [Hutime Hrem].
  rewrite Hlen, firstn_all.
  exists st, ds, pre, tail. split; [exact Hc|]. split; [exact Hlen|]. split.
  { now rewrite <- !app_assoc. }
  repeat (split; [assumption|]).
  rewrite <- app_assoc, !written_icons_app.
  rewrite (written_icons_allowed pre) by now apply harmless_allowed.
  cbn [app]. change (saving_line ?t :: ?l) with ([saving_line t] ++ l).
  rewrite !written_icons_app, written_icons_installed, (written_icons_allowed tail Htail).
  rewrite Hlen, firstn_all, app_nil_r. reflexivity.
Qed.

(** X15: a real run whose loop fails.  The script prints the error and
    leaves with status 1.  The sizes before the failing one stay installed:
    nothing is undone.  Of the failing size there may be its line, its
    directory, and its file opened, that is created or emptied, but never
    written: a failing save leaves the file without the icon, and an icon
    of that size installed before is lost.  The theme directory is not
    touched, the cache is not refreshed and no removal instructions are
    written. *)
Theorem failed_install_stops (st : Settings) (im : IconImage) (w w1 : World)
        (e : Error) :
  simulate st = false ->
  install_loop st im (icon_sizes st) []
    (after w (saving_line (str_title E (name st)))) = (Raise e, w1) ->
  install st im w
  = (Exit 1, after w1 (Print (lit "Error: " ++ Error_message e ++ nl)))
  /\ exists ds sz part,
       nth_error (icon_sizes st) (List.length ds) = Some sz
       /\ interrupted (name st) sz part
       /\ trace w1
          = trace w
            ++ saving_line (str_title E (name st))
               :: flat_map (install_events (name st))
                    (combine (firstn (List.length ds) (icon_sizes st)) ds)
            ++ part
       /\ written_icons (trace w1)
          = written_icons (trace w)
            ++ map (icon_target_file (name st))
                 (firstn (List.length ds) (icon_sizes st)).
Proof.
  intros Hsim Hloop. split.
  - unfold install. unfold bind at 1. unfold print at 1, emit at 1.
    assert (Hsave : Print ((nl ++ lit "Saving new " ++ str_title E (name st)
                            ++ lit " app icons to disk:") ++ nl)
                    = saving_line (str_title E (name st))).
    { unfold saving_line. now rewrite <- !app_assoc. }
    rewrite Hsave. fold (after w (saving_line (str_title E (name st)))).
    unfold bind at 1, try_except. rewrite Hloop. reflexivity.
  - destruct (install_loop_real st Hsim (icon_sizes st) im []
                (after w (saving_line (str_title E (name st)))))
      as (r & ds & tail & imgs & Heq & Hr).
    rewrite Hloop in Heq. injection Heq as <- ->.
    destruct Hr as (sz & Hnth & Hpart).
    exists ds, sz, tail. split; [exact Hnth|]. split; [exact Hpart|].
    cbn [trace after]. split; [now rewrite <- !app_assoc|].
    rewrite <- !app_assoc, !written_icons_app. cbn [app].
    rewrite written_icons_installed.
    assert (Htail : written_icons tail = []).
    { destruct Hpart as [->|[->|[->| ->]]]; reflexivity. }
    rewrite Htail, app_nil_r.
    rewrite firstn_firstn, Nat.min_id. reflexivity.
Qed.

(** ** [patch.py] from start to end *)

Lemma os_call_Ok (e : Event) (w w' : World) (u : unit) :
  os_call e w = (Ok u, w') -> w' = after w e.
Proof.
  unfold os_call. destruct (os_accepts E (trace w) e); [discriminate|].
  unfold emit. now intros [= _ <-].
Qed.

Lemma print_Ok (text : pystr) (w w' : World) (u : unit) :
  print text w = (Ok u, w') -> w' = after w (Print (text ++ nl)).
Proof. unfold print, emit. now intros [= _ <-]. Qed.

Lemma patch_download_inv (url : pystr) (w w' : World) (tar_data : BytesIO) :
  patch_download_with_progress url w = (Ok (Some tar_data), w') ->
  exists response lines,
    urlopen E url = inr response /\ getcode response = 200
    /\ tar_data = mkBytesIO (List.concat (chunks_read (reads response))) 0
    /\ w' = mkWorld (trace w ++ HttpGet url :: map Print lines) (images w).
Proof.
  unfold patch_download_with_progress. unfold bind at 1, emit at 1.
  unfold bind at 1, lib_call.
  destruct (urlopen E url) as [text|response]; [discriminate|].
  unfold ret at 1. destruct (Z.eqb_spec (getcode response) 200) as [Hcode|Hcode];
    cbn [negb].
  2:{ unfold bind, print, emit, ret. discriminate. }
  unfold bind at 1.
  destruct (declared_size response _) as [[ts|e|n] w1] eqn:Hts; try discriminate.
  assert (Hw1 : w1 = mkWorld (trace w ++ [HttpGet url]) (images w)).
  { unfold declared_size in Hts.
    destruct (content_length_header response); [|now injection Hts as _ <-].
    destruct (py_int E _); [|discriminate Hts].
    destruct (_ >? 0); now injection Hts as _ <-. }
  subst w1. unfold bind at 1.
  destruct (download_loop_spec (reads response) ts (total_size_text ts) [] 0 0
              (mkWorld (trace w ++ [HttpGet url]) (images w))) as (lines & ->).
  cbn [trace images app]. unfold bind, print, emit, ret, seek0.
  cbn [trace images content]. intros [= <- <-].
  exists response. eexists (lines ++ [_]). split; [reflexivity|].
  split; [exact Hcode|]. split; [reflexivity|].
  rewrite map_app, <- !app_assoc. reflexivity.
Qed.

Lemma patch_extract_inv (tar_data : BytesIO) (p : Path) (w w' : World) (png : BytesIO) :
  patch_extract_discord_icon tar_data p w = (Ok (Some png), w') ->
  exists members data,
    tar_open E (skipn (position tar_data) (content tar_data)) = inr members
    /\ extractfile members (Path_str p) = Some data
    /\ png = mkBytesIO data 0
    /\ w' = mkWorld (trace w ++ listing members ++ [Print (found_message p data ++ nl)])
              (images w).
Proof.
  destruct (tar_open E (skipn (position tar_data) (content tar_data)))
    as [text|members] eqn:Hopen.
  - unfold patch_extract_discord_icon, bind at 1. rewrite Hopen. discriminate.
  - rewrite (patch_extract_listing _ _ _ members Hopen).
    destruct (extractfile members (Path_str p)) as [data|] eqn:Hex; [|discriminate].
    intros [= <- <-]. now exists members, data.
Qed.

Lemma patch_size_inv (image_data : BytesIO) (w w' : World) (success : bool)
      (width height : Z) (image_data' : BytesIO) :
  patch_get_image_size image_data w = (Ok ((success, width, height), image_data'), w') ->
  exists d,
    pil_open E (skipn (position image_data) (content image_data)) = inr d
    /\ width = im_width d /\ height = im_height d
    /\ image_data' = seek0 image_data /\ w' = w.
Proof.
  unfold patch_get_image_size, bind, lib_call.
  destruct (pil_open E _) as [text|d]; [discriminate|].
  unfold ret. intros [= _ <- <- <- <-]. now exists d.
Qed.

Lemma dimensions_text_plain (width height : Z) :
  no_slash (dimensions_text width height) /\ In c_x (dimensions_text width height).
Proof.
  unfold dimensions_text. split.
  - unfold no_slash. repeat (apply Forall_app; split);
      try apply str_of_Z_no_slash. repeat constructor. discriminate.
  - apply in_or_app. right. now left.
Qed.

Lemma patch_parent_dir_parts (width height : Z) :
  patch_icon_parent_dir width height
  = mkPath (root icon_theme_dir)
      (parts icon_theme_dir ++ [dimensions_text width height; icon_context]).
Proof.
  unfold patch_icon_parent_dir, truediv.
  destruct (dimensions_text_plain width height) as [Hns Hx].
  replace (str_of_Z width ++ [c_x] ++ str_of_Z height ++ [c_slash] ++ icon_context)
    with (dimensions_text width height ++ [c_slash] ++ icon_context)
    by (unfold dimensions_text; now rewrite <- !app_assoc).
  assert (Hstart : startswith [c_slash]
                     (dimensions_text width height ++ [c_slash] ++ icon_context)
                   = false).
  { destruct (dimensions_text width height) as [|c g]; [contradiction|].
    unfold startswith. cbn [app strip_prefix].
    destruct (char_eqb c_slash c) eqn:Hc; [|reflexivity].
    apply char_eqb_eq in Hc. inversion Hns; subst. congruence. }
  rewrite Hstart. f_equal. f_equal. unfold components.
  cbn [app]. rewrite (split_app_sep c_slash _ _ Hns).
  cbn [filter]. rewrite (keep_component_has_x _ Hx). reflexivity.
Qed.

(** Where [patch.py] writes: [<theme root>/<W>x<H>/apps/vesktop.png]. *)
Lemma patch_target_text (width height : Z) :
  Path_str (patch_icon_target_file width height discord_png_path)
  = Path_str icon_theme_dir ++ [c_slash] ++ dimensions_text width height
    ++ lit "/apps/vesktop.png".
Proof.
  unfold patch_icon_target_file. rewrite patch_parent_dir_parts.
  change (truediv ?p (patch_target_app_name ++ Path_suffix discord_png_path))
    with (mkPath (root p) (parts p ++ [lit "vesktop.png"])).
  cbn [root parts].
  assert (Hdir : parts icon_theme_dir <> []).
  { rewrite icon_theme_dir_parts. cbn [parts]. now destruct (parts get_xdg_data_home). }
  rewrite !Path_str_parts; cbn [root parts].
  - rewrite <- app_assoc.
    rewrite (join_app _ (parts icon_theme_dir)); [|exact Hdir|discriminate].
    cbn [app join]. now rewrite <- !app_assoc.
  - exact Hdir.
  - destruct (parts icon_theme_dir); [contradiction|discriminate].
Qed.

(** X16: [patch.py], when it completes, has installed the icon of the
    archive byte for byte.  The server answered 200; the archive reader was
    given the whole body; the bytes written are those of the last member
    named [Discord/discord.png], which Pillow decoded as a square image with
    a side divisible by 8; they went, after the directory was created and
    the file opened, to [<theme root>/<W>x<H>/apps/vesktop.png].  Before
    that the script only printed and downloaded; after it come the
    notification and the removal instructions. *)
Theorem patch_installs_archive_icon (w w' : World) :
  patch_main w = (Ok tt, w') ->
  exists response members data d pre line rest,
    urlopen E discord_tar_url = inr response /\ getcode response = 200
    /\ tar_open E (List.concat (chunks_read (reads response))) = inr members
    /\ last_member members (lit "Discord/discord.png") (Some data)
    /\ pil_open E data = inr d
    /\ im_width d = im_height d /\ im_width d mod 8 = 0
    /\ trace w'
       = trace w ++ pre
         ++ [Mkdir (patch_icon_parent_dir (im_width d) (im_height d));
             Print line;
             OpenWb (patch_icon_target_file (im_width d) (im_height d)
                       discord_png_path);
             WriteBytes (patch_icon_target_file (im_width d) (im_height d)
                           discord_png_path) data]
         ++ rest
    /\ Forall harmless pre /\ Forall simulate_allowed rest
    /\ Path_str (patch_icon_target_file (im_width d) (im_height d) discord_png_path)
       = Path_str icon_theme_dir ++ [c_slash]
         ++ dimensions_text (im_width d) (im_height d) ++ lit "/apps/vesktop.png".
Proof.
  unfold patch_main. intros H.
  apply bind_Ok_inv in H as ([] & w1 & Hp1 & H). apply print_Ok in Hp1.
  apply bind_Ok_inv in H as (tar & w2 & Hdl & H).
  destruct tar as [tar_data|]; [|discriminate H].
  apply patch_download_inv in Hdl
    as (response & lines & Hopen & Hcode & -> & ->).
  apply bind_Ok_inv in H as ([] & w3 & Hp2 & H). apply print_Ok in Hp2.
  apply bind_Ok_inv in H as (png & w4 & Hex & H).
  destruct png as [png|]; [|discriminate H].
  apply patch_extract_inv in Hex as (members & data & Htar & Hfile & -> & ->).
  cbn [position content skipn] in Htar.
  change (Path_str discord_png_path) with (lit "Discord/discord.png") in Hfile.
  apply extractfile_found in Hfile.
  apply bind_Ok_inv in H as ([[[success width] height] png2] & w5 & Hsz & H).
  apply patch_size_inv in Hsz as (d & Hpil & -> & -> & -> & ->).
  cbn [position content skipn] in Hpil.
  destruct (negb success).
  { apply bind_Ok_inv in H as (? & ? & _ & H). discriminate H. }
  destruct (negb (im_width d =? im_height d) || negb (im_width d mod 8 =? 0))
    eqn:Hgeom.
  { apply bind_Ok_inv in H as (? & ? & _ & H). discriminate H. }
  apply orb_false_iff in Hgeom as [Hsq Hdiv].
  apply negb_false_iff in Hsq, Hdiv. apply Z.eqb_eq in Hsq, Hdiv.
  cbv zeta in H.
  apply bind_Ok_inv in H as ([] & w6 & Hmk & H). apply os_call_Ok in Hmk.
  apply bind_Ok_inv in H as (t & w7 & Ht & H).
  unfold get_trace in Ht. injection Ht as <- <-.
  destruct (negb (is_dir E _ _)).
  { apply bind_Ok_inv in H as (? & ? & _ & H). discriminate H. }
  apply bind_Ok_inv in H as ([] & w8 & Hp3 & H). apply print_Ok in Hp3.
  apply bind_Ok_inv in H as ([] & w8' & Hop & H). apply os_call_Ok in Hop.
  apply bind_Ok_inv in H as ([] & w9 & Hwr & H). apply os_call_Ok in Hwr.
  apply bind_Ok_inv in H as ([] & w10 & Hnotify & H).
  destruct (notify_cache_effects w9) as (r2 & evs2 & Hn & Hevs2 & _).
  rewrite Hnotify in Hn. injection Hn as _ ->.
  apply bind_Ok_inv in H as ([] & w11 & Hrem & H). apply os_call_Ok in Hrem.
  apply print_Ok in H.
  subst. cbn [trace after seek0 read_all content position skipn fst].
  exists response, members, data, d.
  eexists (Print _ :: HttpGet _ :: map Print lines ++ Print _ :: listing members
           ++ [Print _]), _, (evs2 ++ [WriteText _ _; Print _]).
  repeat (split; [first [assumption|reflexivity]|]).
  split; [|split; [|split]].
  - repeat first [rewrite <- app_assoc | progress cbn [app]]. reflexivity.
  - constructor; [exact I|]. constructor; [exact I|].
    apply Forall_app. split.
    + apply Forall_forall. intros e He. apply in_map_iff in He as (x & <- & _). exact I.
    + constructor; [exact I|]. apply Forall_app. split; [|repeat constructor].
      unfold listing. constructor; [exact I|].
      apply Forall_forall. intros e He. apply in_map_iff in He as (x & <- & _). exact I.
  - apply Forall_app. split; [exact Hevs2|]. repeat constructor.
  - apply patch_target_text.
Qed.

(** ** The scale argument of the constructor *)

Lemma IconSize_init_groups1 (text ds : pystr) (n scale0 : Z) :
  re_search size_re text = Some [(1%nat, ds)] -> int10 ds = Some n ->
  IconSize_init (SizeStr text) scale0 = IconSize_validate (mkIconSize n scale0).
Proof.
  intros Hs Hn. unfold IconSize_init, IconSize_fields.
  rewrite Hs. cbn [group Nat.eqb]. now rewrite Hn.
Qed.

Lemma IconSize_init_groups2 (text ds ss : pystr) (n sc scale0 : Z) :
  re_search size_re text = Some [(2%nat, ss); (1%nat, ds)] ->
  int10 ds = Some n -> int10 ss = Some sc ->
  IconSize_init (SizeStr text) scale0 = IconSize_validate (mkIconSize n sc).
Proof.
  intros Hs Hn Hsc. unfold IconSize_init, IconSize_fields.
  rewrite Hs. cbn [group Nat.eqb]. now rewrite Hn, Hsc.
Qed.

(** X17: the second argument of the constructor.  With an integer, or a
    text without a scale, the scale of the result is the argument, and it is
    checked like any scale.  A scale written in the text replaces the
    argument altogether: the argument is not even checked, so a text with a
    valid scale is accepted together with an argument of zero. *)
Theorem IconSize_scale_argument (scale0 : Z) :
  (forall n, IconSize_init (SizeInt n) scale0 = IconSize_validate (mkIconSize n scale0))
  /\ (forall ds n, digits ds -> int10 ds = Some n ->
        IconSize_init (SizeStr (token_N ds)) scale0
        = IconSize_validate (mkIconSize n scale0)
        /\ IconSize_init (SizeStr (token_NxN ds ds)) scale0
           = IconSize_validate (mkIconSize n scale0))
  /\ (forall ds ss n sc, digits ds -> digits ss ->
        int10 ds = Some n -> int10 ss = Some sc ->
        IconSize_init (SizeStr (token_NxNS ds ss)) scale0
        = IconSize_validate (mkIconSize n sc))
  /\ (forall n, n mod 2 = 0 -> 0 < n -> scale0 <= 0 ->
        IconSize_init (SizeInt n) scale0 = Raise (ScaleNotPositive scale0)).
Proof.
  split; [reflexivity|]. split; [|split].
  - intros ds n Hds Hn. split.
    + pose proof (search_token_N ds [] Hds eol_nil) as Hs. rewrite app_nil_r in Hs.
      now apply IconSize_init_groups1 with ds.
    + pose proof (search_token_NxN ds [] Hds eol_nil) as Hs. rewrite app_nil_r in Hs.
      now apply IconSize_init_groups1 with ds.
  - intros ds ss n sc Hds Hss Hn Hsc.
    pose proof (search_token_NxNS ds ss [] Hds Hss eol_nil) as Hs.
    rewrite app_nil_r in Hs. now apply IconSize_init_groups2 with ds ss.
  - intros n Heven Hn Hsc. unfold IconSize_init, IconSize_fields, IconSize_validate.
    cbn [size scale]. rewrite Heven. cbn [Z.eqb negb].
    destruct (Z.leb_spec n 0); [lia|]. destruct (Z.leb_spec scale0 0); [reflexivity|lia].
Qed.

(** ** The removal instructions come last *)

Lemma step_no_text (evs : list Event) : Forall step_event evs -> no_text_written evs.
Proof.
  intros H p text Hin. rewrite Forall_forall in H. exact (H _ Hin).
Qed.

Lemma ends_install_loop_handled (st : Settings) (im : IconImage) :
  ends step_event status_1 none
    (try_except (install_loop st im (icon_sizes st) []) fail).
Proof.
  apply ends_try_except.
  - apply (ends_weaken step_event step_event none status_1 any any);
      [apply ends_install_loop|auto|apply none_any|auto].
  - intros e. apply ends_fail, step_print.
Qed.

(** X18: the removal instructions are the last thing the script writes.
    A run of the part after loading that leaves through [exit] does so with
    status 1 and has written no text file: neither a failure in the loop nor
    a failing cache command leaves removal instructions behind.  A run that
    returns has written them next to the program.  On a machine whose
    system calls succeed, a cache command that is found and returns a status
    other than 0 ends the notification, and with it the script, with status
    1. *)
Theorem instructions_come_last (st : Settings) (im : IconImage) (w : World) :
  (exists r evs imgs,
     install st im w = (r, mkWorld (trace w ++ evs) (images w ++ imgs))
     /\ (forall n, r = Exit n -> n = 1 /\ no_text_written evs)
     /\ (r = Ok tt -> exists text, In (WriteText removal_text_file text) evs))
  /\ (forall result,
        (forall t e, os_accepts E t e = None) ->
        which E gnome_icon_cache_cmd = true ->
        (forall t, run_result E t cache_argv = inr result) ->
        fst result <> 0 ->
        fst (notify_cache w) = Exit 1
        /\ In (Run cache_argv) (trace (snd (notify_cache w)))).
Proof.
  split.
  - unfold install. unfold bind at 1. unfold print at 1, emit at 1.
    unfold bind at 1.
    match goal with
    | |- context [try_except _ _ ?w1] =>
        destruct (ends_install_loop_handled st im w1)
          as (r1 & evs1 & imgs1 & -> & Hev1 & Hr1)
    end.
    cbn [trace images]. destruct r1 as [installed|e|n]; [|contradiction|].
    2:{ eexists (Exit n), (_ :: evs1), imgs1. split.
        - rewrite <- !app_assoc. reflexivity.
        - split; [|discriminate]. intros n0 [= <-]. split; [exact Hr1|].
          apply step_no_text. constructor; [exact I|exact Hev1]. }
    unfold bind at 1.
    match goal with
    | |- context [notify_cache ?w1] =>
        destruct (ends_notify_cache w1) as (r2 & evs2 & imgs2 & -> & Hev2 & Hr2)
    end.
    cbn [trace images]. destruct r2 as [[]|e|n].
    2:{ eexists (Raise e), (_ :: evs1 ++ evs2), (imgs1 ++ imgs2). split.
        - rewrite <- !app_assoc. reflexivity.
        - split; [intros n [=]|discriminate]. }
    2:{ eexists (Exit n), (_ :: evs1 ++ evs2), (imgs1 ++ imgs2). split.
        - rewrite <- !app_assoc. reflexivity.
        - split; [|discriminate]. intros n0 [= <-]. split; [exact Hr2|].
          apply step_no_text. constructor; [exact I|]. apply Forall_app. now split. }
    unfold os_call, print, bind, emit. cbn [trace images].
    match goal with
    | |- context [os_accepts E ?t ?e] => destruct (os_accepts E t e) as [text|]
    end.
    { eexists (Raise _), (_ :: evs1 ++ evs2), (imgs1 ++ imgs2). split.
      - rewrite <- !app_assoc. reflexivity.
      - split; [intros n [=]|discriminate]. }
    cbn [trace images]. destruct (simulate st); unfold ret; cbn [trace images].
    + eexists (Ok tt), (_ :: evs1 ++ evs2 ++ [_; _; _]), (imgs1 ++ imgs2).
      split.
      * rewrite <- !app_assoc. reflexivity.
      * split; [intros n [=]|]. intros _. eexists. right.
        apply in_or_app. right. apply in_or_app. right. left. reflexivity.
    + eexists (Ok tt), (_ :: evs1 ++ evs2 ++ [_; _]), (imgs1 ++ imgs2).
      split.
      * rewrite <- !app_assoc. reflexivity.
      * split; [intros n [=]|]. intros _. eexists. right.
        apply in_or_app. right. apply in_or_app. right. left. reflexivity.
  - intros result Hos Hwhich Hrun Hcode.
    unfold notify_cache, os_call, bind, print, emit, get_trace, lib_call, ret, exit.
    cbn [trace images]. rewrite Hos. cbn [trace images]. rewrite Hwhich, Hrun.
    cbn [trace images].
    destruct (Z.eqb_spec (fst result) 0) as [H0|_]; [contradiction|].
    cbn [negb fst snd trace]. split; [reflexivity|].
    apply in_or_app. left. apply in_or_app. right. now left.
Qed.


End Iconix.

(** * Instances on the sample environment *)

(** Runs of ASCII digits. *)
Lemma sample_digits_32 : digits no_unicode_digits (lit "32").
Proof. split; [discriminate|]. repeat constructor. Defined.

Lemma sample_digits_64 : digits no_unicode_digits (lit "64").
Proof. split; [discriminate|]. repeat constructor. Defined.

Lemma sample_digits_2 : digits no_unicode_digits (lit "2").
Proof. split; [discriminate|]. repeat constructor. Defined.

Lemma sample_short (ds : pystr) :
  Nat.leb (List.length ds) max_digits_unchecked = true ->
  (List.length ds <= max_digits_unchecked)%nat.
Proof. apply Nat.leb_le. Defined.

(** The tokens "32", "32x32", "32x32@2" and "32x64". *)
Lemma parse_size_valid_tokens_witness :
  parse_size no_unicode_digits (lit "32") = Ok (mkIconSize 32 1)
  /\ parse_size no_unicode_digits (lit "32x32") = Ok (mkIconSize 32 1)
  /\ parse_size no_unicode_digits (lit "32x32@2") = Ok (mkIconSize 32 2)
  /\ parse_size no_unicode_digits (lit "32x64")
      = Raise (InvalidSizeSpecifier (lit "32x64")).
Proof.
  destruct (parse_size_valid_tokens no_unicode_digits) as (H1 & H2 & H3).
  destruct (H1 (lit "32") 32 sample_digits_32 (sample_short (lit "32") eq_refl)
              eq_refl eq_refl eq_refl) as [Ha Hb].
  split; [exact Ha|]. split; [exact Hb|]. split.
  - exact (H2 (lit "32") (lit "2") 32 2 sample_digits_32 sample_digits_2
             (sample_short (lit "32") eq_refl) (sample_short (lit "2") eq_refl)
             eq_refl eq_refl eq_refl eq_refl eq_refl).
  - apply (H3 (lit "32") (lit "64") sample_digits_32 sample_digits_64).
    discriminate.
Defined.

(** The sizes "64", "32x32@2" and "32" reach the install loop sorted. *)
Lemma sizes_sorted_by_size_then_scale_witness :
  match load_icon no_unicode_digits no_unicode_lower sample_env
          (mkCommandLine true None (Some (lit "testapp"))
             (Some [lit "64"; lit "32x32@2"; lit "32"]) true) empty_world with
  | (Ok (st, _), _) => StronglySorted IconSize_le (icon_sizes st)
  | _ => False
  end.
Proof.
  destruct (load_icon no_unicode_digits no_unicode_lower sample_env _ empty_world)
    as [[[st im]|e|n] w'] eqn:H.
  - exact (proj1 (proj2 (proj2 (sizes_sorted_by_size_then_scale
                                  no_unicode_digits no_unicode_lower sample_env))
                    _ _ _ _ _ H)).
  - vm_compute in H. discriminate H.
  - vm_compute in H. discriminate H.
Defined.

(** No input, two inputs, one input. *)
Lemma IconImage_exactly_one_input_witness :
  IconImage_init no_unicode_lower sample_env (lit "none") None None None empty_world
  = (Raise ExactlyOneInput, empty_world)
  /\ IconImage_init no_unicode_lower sample_env (lit "two")
       (Some (Path_of_str (lit "a.png"))) (Some (mkBytesIO [1%N] 0)) None empty_world
     = (Raise ExactlyOneInput, empty_world)
  /\ fst (IconImage_init no_unicode_lower sample_env (lit "one")
            (Some (Path_of_str (lit "a.png"))) None None empty_world)
     <> Raise ExactlyOneInput.
Proof.
  split; [|split].
  - apply (proj1 (IconImage_exactly_one_input no_unicode_lower sample_env
                    (lit "none") None None None empty_world)).
    discriminate.
  - apply (proj1 (IconImage_exactly_one_input no_unicode_lower sample_env
                    (lit "two") (Some (Path_of_str (lit "a.png")))
                    (Some (mkBytesIO [1%N] 0)) None empty_world)).
    discriminate.
  - apply (proj2 (IconImage_exactly_one_input no_unicode_lower sample_env
                    (lit "one") (Some (Path_of_str (lit "a.png"))) None None
                    empty_world)).
    reflexivity.
Defined.

(** A simulated run of the scenario completes, and its trace holds the
    touch of the theme directory and the cache refresh run on it: the theme
    root does not stay untouched. *)
Lemma simulated_run_touches_theme_root :
  fst (main no_unicode_digits no_unicode_lower sample_env scenario empty_world)
  = Ok tt
  /\ untouched (icon_theme_dir sample_env)
       (trace (snd (main no_unicode_digits no_unicode_lower sample_env scenario
                      empty_world)))
     = false
  /\ In (Utime (icon_theme_dir sample_env))
        (trace (snd (main no_unicode_digits no_unicode_lower sample_env scenario
                       empty_world)))
  /\ In (Run (cache_argv sample_env))
        (trace (snd (main no_unicode_digits no_unicode_lower sample_env scenario
                       empty_world))).
Proof.
  split; [vm_compute; reflexivity|]. split; [vm_compute; reflexivity|].
  split; vm_compute; repeat (first [left; reflexivity|right]).
Qed.

(** The simulated run of the scenario completes.  Its settings are those
    of the scenario; after the loading phase it prints the targets of 32x1
    and 64x2, touches the theme directory and writes the removal
    instructions for these two targets. *)
Lemma simulate_effects_witness :
  arg_simulate scenario = true
  /\ convert_args_to_settings no_unicode_digits no_unicode_lower sample_env scenario
       empty_world
     = (Ok scenario_settings, empty_world)
  /\ exists evs imgs pre rest,
       main no_unicode_digits no_unicode_lower sample_env scenario empty_world
       = (Ok tt, mkWorld evs imgs)
       /\ Forall (simulate_allowed sample_env) evs
       /\ Forall harmless pre
       /\ evs = pre ++ saving_line (lit "testapp")
                :: [target_line sample_env (lit "testapp") (mkIconSize 32 1);
                    target_line sample_env (lit "testapp") (mkIconSize 64 2)]
                ++ rest
       /\ In (Utime (icon_theme_dir sample_env)) rest
       /\ In (removal_event sample_env scenario_settings) rest.
Proof.
  split; [reflexivity|]. split; [reflexivity|].
  destruct (simulate_effects no_unicode_digits no_unicode_lower sample_env scenario
              empty_world eq_refl)
    as (r & evs & imgs & Hmain & Hall & Hok).
  assert (Hr : fst (main no_unicode_digits no_unicode_lower sample_env scenario
                      empty_world) = Ok tt) by (vm_compute; reflexivity).
  rewrite Hmain in Hr. cbn [fst] in Hr. subst r.
  destruct (Hok eq_refl) as (st & pre & rest & Hc & Hpre & Hevs & Hutime & Hrem).
  assert (Hst : st = scenario_settings).
  { assert (H : convert_args_to_settings no_unicode_digits no_unicode_lower sample_env
                  scenario empty_world = (Ok scenario_settings, empty_world))
      by reflexivity.
    rewrite H in Hc. now injection Hc as <-. }
  subst st.
  exists evs, imgs, pre, rest. split; [exact Hmain|]. split; [exact Hall|].
  split; [exact Hpre|]. split; [exact Hevs|]. split; assumption.
Defined.

(** A 256x256 source resized to 256 (a copy) and to 64 (a resampling). *)
Lemma resize_raster_source_witness :
  resize_image_as_copy no_unicode_lower sample_env
    (mkIconImage (lit "icon") None None (Some O) None (Some false))
    (mkIconSize 256 1) LANCZOS (mkWorld [] [sample_image])
  = (Ok (1%nat, mkIconImage (lit "icon") None None (Some O) None (Some false)),
     mkWorld [] [sample_image; sample_image])
  /\ resize_image_as_copy no_unicode_lower sample_env
       (mkIconImage (lit "icon") None None (Some O) None (Some false))
       (mkIconSize 64 1) LANCZOS (mkWorld [] [sample_image])
     = (Ok (1%nat, mkIconImage (lit "icon") None None (Some O) None (Some false)),
        mkWorld [] [sample_image; mkImage 64 64 [7%N; 7%N; 7%N]]).
Proof.
  split.
  - exact (proj1 (resize_raster_source no_unicode_lower sample_env
                    (mkIconImage (lit "icon") None None (Some O) None (Some false))
                    (mkIconSize 256 1) (mkWorld [] [sample_image]) O
                    eq_refl eq_refl)).
  - exact (proj1 (resize_raster_source no_unicode_lower sample_env
                    (mkIconImage (lit "icon") None None (Some O) None (Some false))
                    (mkIconSize 64 1) (mkWorld [] [sample_image]) O
                    eq_refl eq_refl)).
Defined.

(** With the name "/x" the target is [/x.png]: not the text
    [<theme root>/32x32/apps//x.png], and not below the theme root. *)
Lemma target_path_absolute_name :
  Path_str (icon_target_file sample_env (lit "/x") (mkIconSize 32 1)) = lit "/x.png"
  /\ Path_str (icon_target_file sample_env (lit "/x") (mkIconSize 32 1))
     <> Path_str (icon_theme_dir sample_env) ++ lit "/32x32/apps/" ++ lit "/x"
        ++ lit ".png"
  /\ under (icon_theme_dir sample_env)
       (icon_target_file sample_env (lit "/x") (mkIconSize 32 1)) = false.
Proof.
  split; [reflexivity|]. split; [vm_compute; discriminate|reflexivity].
Qed.

(** The two targets of the scenario, and the simulated run of the scenario
    on the sample machine: it completes and has printed the two targets, one
    after the other, after the loading phase. *)
Lemma target_paths_witness :
  Path_str (icon_target_file sample_env (lit "testapp") (mkIconSize 32 1))
  = lit "/home/user/.local/share/icons/hicolor/32x32/apps/testapp.png"
  /\ Path_str (icon_target_file sample_env (lit "testapp") (mkIconSize 64 2))
     = lit "/home/user/.local/share/icons/hicolor/64x64@2/apps/testapp.png"
  /\ exists evs imgs pre rest,
       main no_unicode_digits no_unicode_lower sample_env scenario empty_world
       = (Ok tt, mkWorld evs imgs)
       /\ Forall (simulate_allowed sample_env) evs
       /\ Forall harmless pre
       /\ evs
          = pre
            ++ [saving_line (lit "testapp");
                Print (lit "- "
                       ++ quoted (lit "/home/user/.local/share/icons/hicolor/32x32/apps/testapp.png")
                       ++ nl);
                Print (lit "- "
                       ++ quoted (lit "/home/user/.local/share/icons/hicolor/64x64@2/apps/testapp.png")
                       ++ nl)]
            ++ rest.
Proof.
  destruct (target_paths no_unicode_digits no_unicode_lower sample_env)
    as (H1 & _ & _ & _ & H5).
  split; [exact (H1 (lit "testapp") (mkIconSize 32 1) eq_refl)|].
  split; [exact (H1 (lit "testapp") (mkIconSize 64 2) eq_refl)|].
  destruct (H5 empty_world) as (r & evs & imgs & Hmain & Hall & Hok).
  assert (Hr : fst (main no_unicode_digits no_unicode_lower sample_env scenario
                      empty_world) = Ok tt) by (vm_compute; reflexivity).
  rewrite Hmain in Hr. cbn [fst] in Hr. subst r.
  destruct (Hok eq_refl) as (pre & rest & Hpre & Hevs).
  exists evs, imgs, pre, rest. split; [exact Hmain|]. split; [exact Hall|].
  split; [exact Hpre|]. exact Hevs.
Defined.

(** A 204 answer and a 200 answer with the chunks [1 2] and [3]. *)
Lemma download_contract_witness :
  download_with_progress sample_env_204 discord_tar_url empty_world
  = (Raise (HttpStatus 204), after empty_world (HttpGet discord_tar_url))
  /\ exists w', download_with_progress sample_env discord_tar_url empty_world
                = (Ok (mkBytesIO [1%N; 2%N; 3%N] 0), w').
Proof.
  split.
  - apply (proj1 (download_contract no_unicode_digits no_unicode_lower sample_env_204
                    discord_tar_url (mkResponse 204 None []) empty_world eq_refl)).
    discriminate.
  - apply (proj2 (download_contract no_unicode_digits no_unicode_lower sample_env
                    discord_tar_url (mkResponse 200 None [[1%N; 2%N]; [3%N]])
                    empty_world eq_refl)).
    + reflexivity.
    + intros text H. discriminate H.
Defined.

(** The file [logo.SVG], whose bytes hold no marker. *)
Lemma vector_decision_witness :
  is_svg no_unicode_lower
    (mkIconImage (lit "logo") (Some (Path_of_str (lit "logo.SVG")))
       (Some (mkBytesIO [1%N; 2%N; 3%N] 0)) None (Some (lit ".svg")) (Some true))
  = (true,
     mkIconImage (lit "logo") (Some (Path_of_str (lit "logo.SVG")))
       (Some (mkBytesIO [1%N; 2%N; 3%N] 0)) None (Some (lit ".svg")) (Some true))
  /\ IconImage_init no_unicode_lower sample_env (lit "logo")
       (Some (Path_of_str (lit "logo.SVG"))) None None empty_world
     = (Ok (mkIconImage (lit "logo") (Some (Path_of_str (lit "logo.SVG")))
              (Some (mkBytesIO [1%N; 2%N; 3%N] 0)) None (Some (lit ".svg"))
              (Some true)), empty_world).
Proof.
  split.
  - exact (proj1 (vector_decision no_unicode_lower sample_env) (lit "logo")
             (Path_of_str (lit "logo.SVG")) empty_world _ empty_world eq_refl).
  - refine (proj1 (proj2 (vector_decision no_unicode_lower sample_env)) (lit "logo")
              (Path_of_str (lit "logo.SVG")) empty_world [1%N; 2%N; 3%N]
              eq_refl _ eq_refl).
    discriminate.
Defined.

(** A 300x200 icon in both scripts, and a vector file. *)
Lemma non_square_raster_rejected_witness :
  main no_unicode_digits no_unicode_lower sample_env_wide scenario empty_world
  = (Exit 1,
     mkWorld
       (trace (snd (acquire_icon no_unicode_lower sample_env_wide scenario_settings
                      empty_world))
        ++ loaded_lines
             (mkIconImage (lit "Official Discord Icon") None
                (Some (mkBytesIO [1%N; 2%N; 3%N] 0)) (Some O) None (Some false))
             (lit "300x200")
        ++ [Print (lit "Error: Icon dimensions are not square (300x200)." ++ nl)])
       [mkImage 300 200 [7%N]])
  /\ (exists st im w,
        main no_unicode_digits no_unicode_lower sample_env scenario_svg empty_world
        = install no_unicode_lower sample_env st im w)
  /\ fst (patch_main sample_env_wide empty_world) = Exit 1.
Proof.
  split; [|split].
  - destruct (acquire_icon no_unicode_lower sample_env_wide scenario_settings
                empty_world) as [[im|e|n] w2] eqn:Hacq;
      [|vm_compute in Hacq; discriminate Hacq..].
    pose proof Hacq as Hv. vm_compute in Hv. injection Hv as Him Hw2.
    pose proof (proj1 (non_square_raster_rejected no_unicode_digits no_unicode_lower
                         sample_env_wide)
                  scenario empty_world empty_world w2 scenario_settings im O
                  eq_refl Hacq) as H.
    rewrite <- Him, <- Hw2 in H.
    specialize (H eq_refl eq_refl ltac:(vm_compute; discriminate)).
    rewrite <- Him, <- Hw2. exact H.
  - eexists _, _, _.
    eapply (proj1 (proj2 (non_square_raster_rejected no_unicode_digits
                            no_unicode_lower sample_env))
              scenario_svg empty_world).
    + vm_compute. reflexivity.
    + vm_compute. reflexivity.
    + vm_compute. reflexivity.
  - erewrite (proj2 (proj2 (non_square_raster_rejected no_unicode_digits
                              no_unicode_lower sample_env_wide))
                empty_world _ _ _ _ (mkImage 300 200 [7%N])).
    + reflexivity.
    + vm_compute. reflexivity.
    + vm_compute. reflexivity.
    + reflexivity.
    + discriminate.
Defined.

(** * Instances of the further properties *)


(** The size 64 at scale 2, named "64x64@2". *)
Lemma get_name_parses_back_witness :
  get_name (mkIconSize 64 2) = lit "64x64@2"
  /\ few_digits 64 /\ few_digits 2
  /\ parse_size no_unicode_digits (get_name (mkIconSize 64 2)) = Ok (mkIconSize 64 2).
Proof.
  split; [reflexivity|].
  split; [exact (sample_short (str_of_Z 64) eq_refl)|].
  split; [exact (sample_short (str_of_Z 2) eq_refl)|].
  apply (proj1 (get_name_parses_back no_unicode_digits (mkIconSize 64 2)
                  (sample_short (str_of_Z 64) eq_refl)
                  (sample_short (str_of_Z 2) eq_refl))).
  repeat split; reflexivity.
Defined.


(** [--size 64 32] and [--size 32 64]. *)
Lemma size_token_order_irrelevant_witness :
  convert_args_to_settings no_unicode_digits no_unicode_lower sample_env
    (mkCommandLine true None None (Some [lit "64"; lit "32"]) false) empty_world
  = convert_args_to_settings no_unicode_digits no_unicode_lower sample_env
      (mkCommandLine true None None (Some [lit "32"; lit "64"]) false) empty_world.
Proof.
  apply (size_token_order_irrelevant no_unicode_digits no_unicode_lower sample_env).
  apply perm_swap.
Defined.

(** A custom vector file, with the Discord icon asked for as well: the run
    completes without a request. *)
Lemma custom_icon_never_downloads_witness :
  fst (main no_unicode_digits no_unicode_lower sample_env
         (mkCommandLine true (Some (lit "logo.SVG")) None None true) empty_world)
  = Ok tt
  /\ forall url,
       ~ In (HttpGet url)
            (trace (snd (main no_unicode_digits no_unicode_lower sample_env
                           (mkCommandLine true (Some (lit "logo.SVG")) None None true)
                           empty_world))).
Proof.
  split; [vm_compute; reflexivity|].
  destruct (custom_icon_never_downloads no_unicode_digits no_unicode_lower sample_env
              (mkCommandLine true (Some (lit "logo.SVG")) None None true) empty_world)
    as (r & evs & imgs & Heq & _ & Hno); [discriminate|].
  rewrite Heq. exact Hno.
Defined.

(** The settings of the scenario. *)
Lemma settings_are_validated_witness :
  name scenario_settings <> []
  /\ icon_sizes scenario_settings <> []
  /\ Forall valid_size (icon_sizes scenario_settings).
Proof.
  destruct (proj1 (settings_are_validated no_unicode_digits no_unicode_lower
                     sample_env scenario empty_world empty_world)
              scenario_settings eq_refl)
    as (_ & Hname & Hne & Hvalid & _).
  auto.
Defined.

(** The chunks [1 2] and [3], to a pipe and to a VT100 terminal. *)
Lemma download_output_witness :
  download_with_progress sample_env discord_tar_url empty_world
  = (Ok (mkBytesIO [1%N; 2%N; 3%N] 0),
     mkWorld [HttpGet discord_tar_url; Print (lit "Download complete." ++ nl)] [])
  /\ download_with_progress sample_env_vt100 discord_tar_url empty_world
     = (Ok (mkBytesIO [1%N; 2%N; 3%N] 0),
        mkWorld
          ([] ++ HttpGet discord_tar_url
                 :: map (fun k => vt100_line
                                    (progress_text sample_env_vt100
                                       (mkResponse 200 None [[1%N; 2%N]; [3%N]]) k))
                      [2; 3]
                 ++ [Print (nl ++ lit "Download complete." ++ nl)])
          []).
Proof.
  split.
  - refine (proj1 (download_output sample_env discord_tar_url
                     (mkResponse 200 None [[1%N; 2%N]; [3%N]]) empty_world
                     eq_refl eq_refl _) eq_refl).
    intros text H. discriminate H.
  - refine (proj2 (download_output sample_env_vt100 discord_tar_url
                     (mkResponse 200 None [[1%N; 2%N]; [3%N]]) empty_world
                     eq_refl eq_refl _) eq_refl eq_refl).
    intros text H. discriminate H.
Defined.

(** The same chunks on a terminal without VT100 support. *)
Lemma padded_progress_lines_witness :
  exists lines,
    download_with_progress sample_env_windows discord_tar_url empty_world
    = (Ok (mkBytesIO [1%N; 2%N; 3%N] 0),
       mkWorld ([] ++ HttpGet discord_tar_url :: map Print lines
                ++ [Print (nl ++ lit "Download complete." ++ nl)]) [])
    /\ Forall2 (fun k line =>
                  padded_line (progress_text sample_env_windows
                                 (mkResponse 200 None [[1%N; 2%N]; [3%N]]) k) line)
         [2; 3] lines
    /\ StronglySorted not_shorter lines.
Proof.
  refine (padded_progress_lines sample_env_windows discord_tar_url
            (mkResponse 200 None [[1%N; 2%N]; [3%N]]) empty_world
            eq_refl eq_refl _ eq_refl eq_refl).
  intros text H. discriminate H.
Defined.


(** The download and the extraction on the sample machine. *)
Lemma discord_icon_flow_witness :
  exists w',
    get_latest_discord_icon sample_env empty_world
    = (Ok (mkBytesIO [1%N; 2%N; 3%N] 0), w').
Proof.
  apply (proj1 (discord_icon_flow no_unicode_digits no_unicode_lower sample_env
                  (mkResponse 200 None [[1%N; 2%N]; [3%N]])
                  [(lit "Discord/discord.png", Some [1%N; 2%N; 3%N])] empty_world
                  eq_refl eq_refl (fun text H => ltac:(discriminate H)) eq_refl)).
  exists [], []. split; [reflexivity|]. intros [].
Defined.

(** The image built from the file [a.png]. *)
Lemma constructed_image_is_usable_witness :
  loaded no_unicode_lower
    (mkIconImage (lit "one") (Some (Path_of_str (lit "a.png")))
       (Some (mkBytesIO [1%N; 2%N; 3%N] 0)) (Some O) (Some (lit ".png")) (Some false)).
Proof.
  refine (proj1 (constructed_image_is_usable no_unicode_lower sample_env (lit "one")
                   (Some (Path_of_str (lit "a.png"))) None None empty_world
                   (mkWorld [] [sample_image]) _ _)).
  vm_compute. reflexivity.
Defined.

(** A vector source resized to 64 pixels, at scale 1 and at scale 2. *)
Lemma resize_vector_source_witness :
  resize_image_as_copy no_unicode_lower sample_env
    (mkIconImage (lit "logo") (Some (Path_of_str (lit "logo.svg")))
       (Some (mkBytesIO [1%N; 2%N; 3%N] 0)) None (Some (lit ".svg")) (Some true))
    (mkIconSize 64 2) LANCZOS empty_world
  = (Ok (O, mkIconImage (lit "logo") (Some (Path_of_str (lit "logo.svg")))
              (Some (mkBytesIO [1%N; 2%N; 3%N] 3)) None (Some (lit ".svg"))
              (Some true)),
     mkWorld [] [sample_image]).
Proof.
  exact (proj1 (resize_vector_source no_unicode_lower sample_env
                  (mkIconImage (lit "logo") (Some (Path_of_str (lit "logo.svg")))
                     (Some (mkBytesIO [1%N; 2%N; 3%N] 0)) None (Some (lit ".svg"))
                     (Some true))
                  (mkIconSize 64 2) LANCZOS empty_world (mkBytesIO [1%N; 2%N; 3%N] 0)
                  eq_refl eq_refl)).
Defined.

(** The scenario as a run that writes, on the sample machine: it
    completes, its settings are those of the scenario, and the icon files it
    has written are the two targets. *)
Lemma real_run_effects_witness :
  arg_simulate scenario_real = false
  /\ fst (main no_unicode_digits no_unicode_lower sample_env scenario_real empty_world)
     = Ok tt
  /\ convert_args_to_settings no_unicode_digits no_unicode_lower sample_env
       scenario_real empty_world
     = (Ok scenario_real_settings, empty_world)
  /\ map Path_str
       (written_icons
          (trace (snd (main no_unicode_digits no_unicode_lower sample_env scenario_real
                         empty_world))))
     = [lit "/home/user/.local/share/icons/hicolor/32x32/apps/testapp.png";
        lit "/home/user/.local/share/icons/hicolor/64x64@2/apps/testapp.png"]
  /\ exists rest,
       In (removal_event sample_env scenario_real_settings) rest
       /\ Forall (simulate_allowed sample_env) rest
       /\ exists pre,
            trace (snd (main no_unicode_digits no_unicode_lower sample_env
                          scenario_real empty_world))
            = pre ++ rest.
Proof.
  split; [reflexivity|]. split; [vm_compute; reflexivity|].
  split; [reflexivity|].
  destruct (real_run_effects no_unicode_digits no_unicode_lower sample_env
              scenario_real empty_world
              (snd (main no_unicode_digits no_unicode_lower sample_env scenario_real
                      empty_world))
              eq_refl ltac:(vm_compute; reflexivity))
    as (st & ds & pre & rest & Hc & Hlen & Htrace & Hpre & Hrest & Hutime & Hrem
        & Hwritten).
  assert (Hst : st = scenario_real_settings).
  { assert (H : convert_args_to_settings no_unicode_digits no_unicode_lower sample_env
                  scenario_real empty_world = (Ok scenario_real_settings, empty_world))
      by reflexivity.
    rewrite H in Hc. now injection Hc as <-. }
  subst st. split.
  - rewrite Hwritten. vm_compute. reflexivity.
  - exists rest. split; [exact Hrem|]. split; [exact Hrest|].
    eexists. rewrite Htrace. cbn [trace empty_world app].
    rewrite app_comm_cons, app_assoc. reflexivity.
Defined.

(** The same settings on a machine on which the second icon cannot be
    saved: the script leaves with status 1; the first icon is written; the
    file of the second has been opened, and so emptied, but not written. *)
Lemma failed_install_stops_witness :
  fst (install no_unicode_lower sample_env_no_save scenario_real_settings
         (mkIconImage (lit "icon") None None (Some O) None (Some false))
         (mkWorld [] [sample_image]))
  = Exit 1
  /\ written_icons
       (trace (snd (install no_unicode_lower sample_env_no_save scenario_real_settings
                      (mkIconImage (lit "icon") None None (Some O) None (Some false))
                      (mkWorld [] [sample_image]))))
     = [icon_target_file sample_env_no_save (lit "testapp") (mkIconSize 32 1)]
  /\ opened_files
       (trace (snd (install no_unicode_lower sample_env_no_save scenario_real_settings
                      (mkIconImage (lit "icon") None None (Some O) None (Some false))
                      (mkWorld [] [sample_image]))))
     = [icon_target_file sample_env_no_save (lit "testapp") (mkIconSize 32 1);
        icon_target_file sample_env_no_save (lit "testapp") (mkIconSize 64 2)].
Proof.
  rewrite (proj1 (failed_install_stops no_unicode_lower sample_env_no_save
                    scenario_real_settings
                    (mkIconImage (lit "icon") None None (Some O) None (Some false))
                    (mkWorld [] [sample_image])
                    (snd (install_loop no_unicode_lower sample_env_no_save
                            scenario_real_settings
                            (mkIconImage (lit "icon") None None (Some O) None
                               (Some false))
                            (icon_sizes scenario_real_settings) []
                            (after (mkWorld [] [sample_image])
                               (saving_line
                                  (str_title sample_env_no_save
                                     (name scenario_real_settings))))))
                    (LibraryError (lit "No space left on device"))
                    eq_refl ltac:(vm_compute; reflexivity))).
  split; [reflexivity|]. split; vm_compute; reflexivity.
Defined.

(** [patch.py] on the sample machine. *)
Lemma patch_installs_archive_icon_witness :
  exists response members data d pre line rest,
    urlopen sample_env discord_tar_url = inr response /\ getcode response = 200
    /\ tar_open sample_env (List.concat (chunks_read (reads response))) = inr members
    /\ last_member members (lit "Discord/discord.png") (Some data)
    /\ pil_open sample_env data = inr d
    /\ im_width d = im_height d /\ im_width d mod 8 = 0
    /\ trace (snd (patch_main sample_env empty_world))
       = [] ++ pre
         ++ [Mkdir (patch_icon_parent_dir sample_env (im_width d) (im_height d));
             Print line;
             OpenWb (patch_icon_target_file sample_env (im_width d) (im_height d)
                       discord_png_path);
             WriteBytes (patch_icon_target_file sample_env (im_width d) (im_height d)
                           discord_png_path) data]
         ++ rest
    /\ Forall harmless pre /\ Forall (simulate_allowed sample_env) rest
    /\ Path_str (patch_icon_target_file sample_env (im_width d) (im_height d)
                   discord_png_path)
       = Path_str (icon_theme_dir sample_env) ++ [c_slash]
         ++ dimensions_text (im_width d) (im_height d) ++ lit "/apps/vesktop.png".
Proof.
  apply (patch_installs_archive_icon sample_env empty_world).
  vm_compute. reflexivity.
Defined.

(** "32x32@2" with a scale argument of zero, and the integer 32 with it. *)
Lemma IconSize_scale_argument_witness :
  IconSize_init no_unicode_digits (SizeStr (lit "32x32@2")) 0 = Ok (mkIconSize 32 2)
  /\ IconSize_init no_unicode_digits (SizeInt 32) 0 = Raise (ScaleNotPositive 0).
Proof.
  destruct (IconSize_scale_argument no_unicode_digits 0) as (_ & _ & H3 & H4).
  split.
  - exact (H3 (lit "32") (lit "2") 32 2 sample_digits_32 sample_digits_2
             eq_refl eq_refl).
  - apply H4; [reflexivity|reflexivity|discriminate].
Defined.

(** A cache command that returns status 1. *)
Lemma instructions_come_last_witness :
  fst (notify_cache sample_env_cache_fails empty_world) = Exit 1
  /\ In (Run (cache_argv sample_env_cache_fails))
        (trace (snd (notify_cache sample_env_cache_fails empty_world))).
Proof.
  apply (proj2 (instructions_come_last no_unicode_lower sample_env_cache_fails
                  scenario_settings
                  (mkIconImage (lit "icon") None None (Some O) None (Some false))
                  empty_world)
           (1, lit "gtk-update-icon-cache: failed")).
  - reflexivity.
  - reflexivity.
  - reflexivity.
  - discriminate.
Defined.
